(** * MTP over WebUSB: a shallow embedding of [mtpDriver.js] and of the
    configuration-file parser of the WebHub view.

    JavaScript numbers that the driver manipulates are integers well inside
    the exact range of a double; they are modelled as [Z].  The bitwise
    operators work on the 32-bit two's complement image of their operands,
    which is written out in module [JS].  A [Uint8Array] is a [list Z] whose
    elements are stored modulo 256; a store outside the array is ignored and
    a load outside the array yields [undefined]. *)

From Stdlib Require Import ZArith Lia List Bool String Ascii.
From stdpp Require Import base list strings gmap.
From Equations Require Import Equations.

Local Open Scope Z_scope.

(** ** JavaScript integer semantics *)

Module JS.

(** [ToInt32]: reduction modulo 2^32 into the signed range. *)
Definition ToInt32 (x : Z) : Z := (x + 2147483648) mod 4294967296 - 2147483648.

(** [ToUint8]: what a store into a [Uint8Array] keeps. *)
Definition ToUint8 (x : Z) : Z := x mod 256.

(** [a << k]: the shift count is taken modulo 32, the result is an int32. *)
Definition shl (a k : Z) : Z := ToInt32 (Z.shiftl (ToInt32 a) (Z.land k 31)).

(** [a >> k]: sign-propagating shift of the int32 image of [a]. *)
Definition sar (a k : Z) : Z := Z.shiftr (ToInt32 a) (Z.land k 31).

(** [a & b] and [a | b] on the int32 images. *)
Definition band (a b : Z) : Z := Z.land (ToInt32 a) (ToInt32 b).
Definition bor (a b : Z) : Z := Z.lor (ToInt32 a) (ToInt32 b).

(** [Math.ceil(a / b)] for integers [a] and a positive integer [b]. *)
Definition ceil_div (a b : Z) : Z := - ((- a) / b).

(** [for (let i = lo; i < hi; i++) body]: the body is a state transformer. *)
Definition for_loop {S : Type} (lo hi : Z) (body : Z -> S -> S) (s : S) : S :=
  fold_left (fun acc k => body (lo + Z.of_nat k) acc) (seq 0 (Z.to_nat (hi - lo))) s.

(** [new Uint8Array(n)] *)
Definition new_Uint8Array (n : Z) : list Z := repeat 0 (Z.to_nat n).

(** [arr[i] = v] on a [Uint8Array]: ignored out of range. *)
Definition u8_store (arr : list Z) (i : Z) (v : Z) : list Z :=
  if i <? 0 then arr else <[Z.to_nat i := ToUint8 v]> arr.

(** [arr[i]] on a [Uint8Array]: [None] stands for [undefined]. *)
Definition u8_load (arr : list Z) (i : Z) : option Z :=
  if i <? 0 then None else arr !! Z.to_nat i.

(** [arr[i]] used as an operand of a bitwise operator or stored into a
    typed array: [undefined] is converted to 0. *)
Definition rd (arr : list Z) (i : Z) : Z := default 0 (u8_load arr i).

(** [arr.slice(lo, hi)] for [0 <= lo]. *)
Definition slice (arr : list Z) (lo hi : Z) : list Z :=
  take (Z.to_nat (hi - lo)) (drop (Z.to_nat lo) arr).

(** The elements of a well-formed [Uint8Array]. *)
Definition bytesb (l : list Z) : bool := forallb (fun b => (0 <=? b) && (b <? 256)) l.

End JS.

(** ** Protocol constants *)

Definition CONTAINER_TYPE_UNDEFINED : Z := 0x0000.
Definition MTP_PACKET_TYPE_COMMAND : Z := 0x0001.
Definition CONTAINER_TYPE_DATA : Z := 0x0002.
Definition CONTAINER_TYPE_RESPONSE : Z := 0x0003.
Definition CONTAINER_TYPE_EVENT : Z := 0x0004.

Definition MTP_OPEN_SESSION : Z := 0x1002.
Definition MTP_GET_STORAGE_IDS : Z := 0x1004.
Definition MTP_GET_STORAGE_INFO : Z := 0x1005.
Definition GET_OBJECT_HANDLES : Z := 0x1007.
Definition GET_OBJECT_INFO : Z := 0x1008.
Definition GET_OBJECT : Z := 0x1009.
Definition CLOSE_SESSION : Z := 0x1003.
Definition MTP_DELETE_OBJECT : Z := 0x100b.
Definition SEND_OBJECT_INFO : Z := 0x100c.
Definition SEND_OBJECT : Z := 0x100d.

Definition UNDEFINED_OBJECT_FORMAT : Z := 0x3000.
Definition PLACE_IN_ROOT : Z := 0xffffffff.

Definition MTP_OK : Z := 0x2001.
Definition SESSION_ALREADY_OPEN : Z := 0x201e.

Definition MTP_PACKET_MAX_SIZE : Z := 512.
Definition MTP_CONTAINER_ARRAY_LEN : Z := 12.

(** ** class mtpPacket *)

Record mtpPacket := MkPacket {
  parameterArrayLength : Z;
  containerArrayLength : Z;
  container_array : list Z;
  parameters_array : list Z;
  type : Z;
  operation : Z;
  transaction_id : Z
}.

(** [new mtpPacket(parameterLength)] *)
Definition new_mtpPacket (parameterLength : Z) : mtpPacket :=
  let parameterArrayLength := parameterLength * 4 in
  let containerArrayLength := parameterArrayLength + MTP_CONTAINER_ARRAY_LEN in
  {| parameterArrayLength := parameterArrayLength;
     containerArrayLength := containerArrayLength;
     container_array := JS.new_Uint8Array containerArrayLength;
     parameters_array := JS.new_Uint8Array parameterArrayLength;
     type := 0;
     operation := 0;
     transaction_id := 0 |}.

Definition set_container_array (a : list Z) (p : mtpPacket) : mtpPacket :=
  MkPacket (parameterArrayLength p) (containerArrayLength p) a (parameters_array p)
           (type p) (operation p) (transaction_id p).

Definition set_parameters_array (a : list Z) (p : mtpPacket) : mtpPacket :=
  MkPacket (parameterArrayLength p) (containerArrayLength p) (container_array p) a
           (type p) (operation p) (transaction_id p).

(** Direct assignment to [containerArrayLength], as the upload paths do. *)
Definition set_containerArrayLength (n : Z) (p : mtpPacket) : mtpPacket :=
  MkPacket (parameterArrayLength p) n (container_array p) (parameters_array p)
           (type p) (operation p) (transaction_id p).

Definition setTransactionType (transactionType : Z) (p : mtpPacket) : mtpPacket :=
  MkPacket (parameterArrayLength p) (containerArrayLength p) (container_array p)
           (parameters_array p) transactionType (operation p) (transaction_id p).

Definition setOperation (op : Z) (p : mtpPacket) : mtpPacket :=
  MkPacket (parameterArrayLength p) (containerArrayLength p) (container_array p)
           (parameters_array p) (type p) op (transaction_id p).

Definition setTransactionID (tx : Z) (p : mtpPacket) : mtpPacket :=
  MkPacket (parameterArrayLength p) (containerArrayLength p) (container_array p)
           (parameters_array p) (type p) (operation p) tx.

(** One of the five loops of [setParams]: four bytes of [param] at [base]. *)
Definition setParams_loop (base param : Z) (arr : list Z) : list Z :=
  JS.for_loop 0 4 (fun i a => JS.u8_store a (i + base) (JS.band (JS.sar param (i * 8)) 0xff)) arr.

Definition setParams (param1 param2 param3 param4 param5 : Z) (p : mtpPacket) : mtpPacket :=
  let a := parameters_array p in
  let a := setParams_loop 0 param1 a in
  let a := setParams_loop 4 param2 a in
  let a := setParams_loop 8 param3 a in
  let a := setParams_loop 12 param4 a in
  let a := setParams_loop 16 param5 a in
  set_parameters_array a p.

Definition pack (p : mtpPacket) : mtpPacket :=
  let c := container_array p in
  (* container length *)
  let c := JS.for_loop 0 4
             (fun i c => JS.u8_store c i (JS.band (JS.sar (containerArrayLength p) (i * 8)) 0xff)) c in
  (* container type *)
  let c := JS.u8_store c 4 (JS.band (type p) 0xff) in
  let c := JS.u8_store c 5 (JS.band (JS.sar (type p) 8) 0xff) in
  (* operation code *)
  let c := JS.u8_store c 6 (JS.band (operation p) 0xff) in
  let c := JS.u8_store c 7 (JS.band (JS.sar (operation p) 8) 0xff) in
  (* transaction id *)
  let c := JS.for_loop 8 (containerArrayLength p - parameterArrayLength p)
             (fun i c => JS.u8_store c i (JS.band (JS.sar (transaction_id p) ((i - 8) * 8)) 0xff)) c in
  (* parameters *)
  let c := JS.for_loop (containerArrayLength p - parameterArrayLength p) (containerArrayLength p)
             (fun i c => JS.u8_store c i
                (JS.rd (parameters_array p) (i - (containerArrayLength p - parameterArrayLength p)))) c in
  set_container_array c p.

(** The Command packet for operation [op], transaction [tx] and the parameter
    list [ps]: built as every call site does, with [setParams] receiving the
    parameters followed by zeros. *)
Definition command_packet (op tx : Z) (ps : list Z) : list Z :=
  let p := new_mtpPacket (Z.of_nat (length ps)) in
  let p := setTransactionType MTP_PACKET_TYPE_COMMAND p in
  let p := setOperation op p in
  let p := setTransactionID tx p in
  let p := setParams (nth 0 ps 0) (nth 1 ps 0) (nth 2 ps 0) (nth 3 ps 0) (nth 4 ps 0) p in
  container_array (pack p).

(** Little-endian encoding and decoding as the wire format defines them:
    the reference the packets built by [pack] are compared with. *)
Fixpoint le_bytes (k : nat) (x : Z) : list Z :=
  match k with
  | O => []
  | S k' => x mod 256 :: le_bytes k' (x / 256)
  end.

Fixpoint le_val (bs : list Z) : Z :=
  match bs with
  | [] => 0
  | b :: bs' => b + 256 * le_val bs'
  end.

(** Reads of multi-byte fields, as the driver writes them out. *)
Definition read16 (buf : list Z) (o : Z) : Z :=
  JS.bor (JS.shl (JS.rd buf (o + 1)) 8) (JS.rd buf o).

Definition read32 (buf : list Z) (o : Z) : Z :=
  JS.bor (JS.bor (JS.bor (JS.rd buf o) (JS.shl (JS.rd buf (o + 1)) 8))
                 (JS.shl (JS.rd buf (o + 2)) 16))
         (JS.shl (JS.rd buf (o + 3)) 24).

(** [(buf[7] << 8) | buf[6]]: the operation or response code of a packet. *)
Definition packet_code (buf : list Z) : Z := read16 buf 6.

(** ** class ObjectInfoDataset

    The field [container_array] of the class is [oi_container_array] here,
    the name being taken by [mtpPacket]. *)

Record ObjectInfoDataset := MkObjectInfo {
  containerLength : Z;
  oi_container_array : list Z;
  filename_array : list Z;
  fileID : option Z;              (* [None]: constructed with [undefined] *)
  fileName : list Z;              (* UTF-16 code units *)
  dateCreateLength : list Z;
  dateCreateArray : list Z;
  dateModLength : list Z;
  dateModArray : list Z;
  keywords : list Z;
  filesize : option Z
}.

Definition fixed_date_array : list Z :=
  [0x32; 0x0; 0x30; 0x0; 0x32; 0x0; 0x32; 0x0; 0x30; 0x0; 0x33; 0x0; 0x31; 0x0; 0x35; 0x0;
   0x54; 0x0; 0x30; 0x0; 0x39; 0x0; 0x33; 0x0; 0x37; 0x0; 0x34; 0x0; 0x30; 0x0; 0x2e; 0x0; 0x30].

(** [new ObjectInfoDataset(file_id)] *)
Definition new_ObjectInfoDataset (file_id : option Z) : ObjectInfoDataset :=
  {| containerLength := 52;
     oi_container_array := JS.new_Uint8Array 52;
     filename_array := JS.new_Uint8Array 0;
     fileID := file_id;
     fileName := [];
     dateCreateLength := [0; 0; 0; 0x12];
     dateCreateArray := fixed_date_array;
     dateModLength := [0; 0; 0; 0x12];
     dateModArray := fixed_date_array;
     keywords := [0; 0; 0; 0];
     filesize := None |}.

(** [initContainer]: the file-name loop advances [i] by two and [j] by one,
    so [i = 2 * j] throughout. *)
Definition initContainer (objectFormat objectCompressedSize associationType associationDesc : Z)
    (filename : list Z) (o : ObjectInfoDataset) : ObjectInfoDataset :=
  let flen := Z.of_nat (length filename) in
  let fa := JS.new_Uint8Array (flen * 2) in
  let fa := JS.for_loop 0 flen
              (fun j fa =>
                 let i := 2 * j in
                 let fa := if i =? 0 then JS.u8_store fa i (flen + 1) else JS.u8_store fa i 0 in
                 JS.u8_store fa (i + 1) (nth (Z.to_nat j) filename 0)) fa in
  let c := oi_container_array o in
  let c := JS.for_loop 4 6
             (fun i c => JS.u8_store c i (JS.band (JS.sar objectFormat ((i - 8) * 8)) 0xff)) c in
  let c := JS.for_loop 8 MTP_CONTAINER_ARRAY_LEN
             (fun i c => JS.u8_store c i
                (JS.band (JS.sar objectCompressedSize ((i - MTP_CONTAINER_ARRAY_LEN) * 8)) 0xff)) c in
  let c := JS.u8_store c 13 0x30 in
  let c := JS.for_loop 42 44
             (fun i c => JS.u8_store c i (JS.band (JS.sar associationType ((i - 42) * 8)) 0xff)) c in
  let c := JS.for_loop 44 48
             (fun i c => JS.u8_store c i (JS.band (JS.sar associationDesc ((i - 44) * 8)) 0xff)) c in
  MkObjectInfo (containerLength o) c fa (fileID o) filename (dateCreateLength o)
               (dateCreateArray o) (dateModLength o) (dateModArray o) (keywords o) (filesize o).

(** ** class storageInfoDataset *)

Record storageInfoDataset := MkStorageInfo {
  storageID : Z;
  storageSize : Z;
  usedSpace : Z;
  freeSpace : Z;
  storageDescLength : Z;
  storageDescription : list Z;
  objectInfoObjects : list ObjectInfoDataset;
  baseAddr : option Z
}.

(** [new storageInfoDataset(str_id)] *)
Definition new_storageInfoDataset (str_id : Z) : storageInfoDataset :=
  {| storageID := str_id;
     storageSize := 0;
     usedSpace := 0;
     freeSpace := 0;
     storageDescLength := 0;
     storageDescription := [];
     objectInfoObjects := [];
     baseAddr := None |}.

Definition initDatasetFromMTPContainer (receivedBuf : list Z) (s : storageInfoDataset)
    : storageInfoDataset :=
  let storageSize :=
    JS.for_loop 18 26
      (fun i acc => JS.bor acc (JS.shl (JS.rd receivedBuf i) ((i - 10) * 8))) 0 in
  let freeSpace :=
    JS.for_loop 26 34
      (fun i acc => JS.bor acc (JS.shl (JS.rd receivedBuf i) ((i - 18) * 8))) 0 in
  let baseAddr := 38 in
  {| storageID := storageID s;
     storageSize := storageSize;
     usedSpace := storageSize - freeSpace;
     freeSpace := freeSpace;
     storageDescLength := JS.bor (JS.bor (JS.bor (JS.rd receivedBuf baseAddr)
                                                 (JS.shl (JS.rd receivedBuf (baseAddr + 1)) 8))
                                         (JS.shl (JS.rd receivedBuf (baseAddr + 2)) 16))
                                 (JS.shl (JS.rd receivedBuf (baseAddr + 3)) 24);
     storageDescription := storageDescription s;
     objectInfoObjects := objectInfoObjects s;
     baseAddr := Some baseAddr |}.

(** ** class MTPDevice: state, transport and promises *)

(** The fields of an [MTPDevice] that the protocol code reads or writes.  The
    USB handle, the interface number and the endpoint numbers only select
    where the transfers go; the transfers themselves are in [world]. *)
Record MTPDevice := MkDevice {
  sessionOpen : bool;
  sessionID : Z;
  storageInfoObjects : list storageInfoDataset;
  transactionID : Z
}.

(** [new MTPDevice()] *)
Definition new_MTPDevice : MTPDevice :=
  {| sessionOpen := false; sessionID := 1; storageInfoObjects := []; transactionID := 0 |}.

(** The object that the view passes to [downloadAudioFile] for progress. *)
Record deviceSettings := MkSettings {
  audioCopyBytes : Z;
  audioCopyTotalBytes : Z
}.

(** How one [transferIn] call settles: with data, with a rejection, or never. *)
Inductive transfer := XferData (data : list Z) | XferError | XferPending.

(** How one [transferOut] call settles. *)
Inductive out_status := OutOk | OutError | OutPending.

(** The call site of a [transferIn]. *)
Inductive in_site :=
  InGetPacket | InOpenSession | InDownloadLoop | InDownloadTrailing.

(** Values a driver promise resolves with: [true]/[false], [[status, bytes]]
    and [[status, number]]. *)
Inductive value :=
  | VBool (b : bool)
  | VStatusBytes (status : bool) (bytes : list Z)
  | VStatusNum (status : bool) (n : Z).

Inductive event :=
  | EvTransferIn (site : in_site)
  | EvTransferOut (packet : list Z)
  | EvBlobAdd (blobNumber : Z) (fileBlob : list Z)
  | EvResolve (v : value).

(** The state the driver runs in.  [bulk_in k] and [bulk_out k] say how the
    [k]-th bulk IN and bulk OUT transfer of the run settle; [log] records
    the transfers issued, the blobs added to the [fileblobs] collection and
    the calls of [resolve], oldest first; [promise] is the state of the
    promise the running operation returns. *)
Record world := MkWorld {
  device : MTPDevice;
  lenaDevice : option deviceSettings;
  bulk_in : nat -> transfer;
  in_pos : nat;
  bulk_out : nat -> out_status;
  out_pos : nat;
  log : list event;
  promise : option value
}.

(** Outcome of a computation, and of a promise: a value, an exception (a
    rejection), or no completion at all. *)
Inductive result (A : Type) := Ok (a : A) | Throw | Hang.
Arguments Ok {A} a.
Arguments Throw {A}.
Arguments Hang {A}.

Definition M (A : Type) : Type := world -> result A * world.

#[global] Instance M_ret : MRet M := fun A a w => (Ok a, w).
#[global] Instance M_bind : MBind M := fun A B f m w =>
  match m w with
  | (Ok a, w') => f a w'
  | (Throw, w') => (Throw, w')
  | (Hang, w') => (Hang, w')
  end.

Definition throw {A} : M A := fun w => (Throw, w).
Definition hang {A} : M A := fun w => (Hang, w).

(** Run [m] and hand its outcome over as a value: the promise of [m]. *)
Definition settle {A} (m : M A) : M (result A) := fun w =>
  let '(r, w') := m w in (Ok r, w').

(** [await p] *)
Definition await {A} (p : result A) : M A := fun w => (p, w).

(** [m.catch(h)] *)
Definition catch_ {A} (m : M A) (h : M A) : M A := fun w =>
  match m w with
  | (Throw, w') => h w'
  | rw => rw
  end.

Definition modify (f : world -> world) : M unit := fun w => (Ok tt, f w).
Definition get_device : M MTPDevice := fun w => (Ok (device w), w).

Definition with_device (f : MTPDevice -> MTPDevice) (w : world) : world :=
  MkWorld (f (device w)) (lenaDevice w) (bulk_in w) (in_pos w) (bulk_out w) (out_pos w)
          (log w) (promise w).

Definition with_lenaDevice (f : option deviceSettings -> option deviceSettings) (w : world) : world :=
  MkWorld (device w) (f (lenaDevice w)) (bulk_in w) (in_pos w) (bulk_out w) (out_pos w)
          (log w) (promise w).

Definition with_log (e : event) (w : world) : world :=
  MkWorld (device w) (lenaDevice w) (bulk_in w) (in_pos w) (bulk_out w) (out_pos w)
          (log w ++ [e]) (promise w).

Definition with_promise (p : option value) (w : world) : world :=
  MkWorld (device w) (lenaDevice w) (bulk_in w) (in_pos w) (bulk_out w) (out_pos w)
          (log w) p.

Definition next_in (w : world) : world :=
  MkWorld (device w) (lenaDevice w) (bulk_in w) (S (in_pos w)) (bulk_out w) (out_pos w)
          (log w) (promise w).

Definition next_out (w : world) : world :=
  MkWorld (device w) (lenaDevice w) (bulk_in w) (in_pos w) (bulk_out w) (S (out_pos w))
          (log w) (promise w).

(** [new Promise(...)]: a fresh pending promise. *)
Definition new_Promise : M unit := modify (with_promise None).

(** [resolve(v)]: only the first call settles the promise. *)
Definition resolve (v : value) : M unit := fun w =>
  let w := with_log (EvResolve v) w in
  match promise w with
  | None => (Ok tt, with_promise (Some v) w)
  | Some _ => (Ok tt, w)
  end.

(** [return promise] from an async function: the caller gets the value the
    promise resolves with, or waits for ever. *)
Definition return_promise : M value := fun w =>
  match promise w with
  | Some v => (Ok v, w)
  | None => (Hang, w)
  end.

(** [device.device.transferIn(device.endpointIn, MTP_PACKET_MAX_SIZE)] and
    [new Uint8Array(result.data.buffer)]. *)
Definition transferIn (site : in_site) : M (list Z) := fun w =>
  let w' := next_in (with_log (EvTransferIn site) w) in
  match bulk_in w (in_pos w) with
  | XferData d => (Ok d, w')
  | XferError => (Throw, w')
  | XferPending => (Hang, w')
  end.

(** [this.device.transferOut(this.endpointOut, packet)] *)
Definition transferOut (packet : list Z) : M unit := fun w =>
  let w' := next_out (with_log (EvTransferOut packet) w) in
  match bulk_out w (out_pos w) with
  | OutOk => (Ok tt, w')
  | OutError => (Throw, w')
  | OutPending => (Hang, w')
  end.

(** [sendPacket]: the write between two 10 ms sleeps, then a console log. *)
Definition sendPacket (packet : list Z) : M unit := transferOut packet.

(** [getPacket]: the promise has no rejection path, so a failed transfer
    leaves it pending. *)
Definition getPacket : M (list Z) :=
  r ← settle (transferIn InGetPacket);
  match r with
  | Ok d => mret d
  | _ => hang
  end.

(** [receivePackets(device, no_of_packets)]: all reads are issued at once;
    the result settles when every one of them has. *)
Fixpoint receivePackets_issue (n : nat) : M (list (result (list Z))) :=
  match n with
  | O => mret []
  | S n' => r ← settle getPacket; rs ← receivePackets_issue n'; mret (r :: rs)
  end.

Fixpoint promise_all {A} (rs : list (result A)) : result (list A) :=
  match rs with
  | [] => Ok []
  | r :: rs' =>
      match r, promise_all rs' with
      | Ok a, Ok l => Ok (a :: l)
      | Throw, _ => Throw
      | _, Throw => Throw
      | _, _ => Hang
      end
  end.

Definition receivePackets (no_of_packets : nat) : M (list (list Z)) :=
  rs ← receivePackets_issue no_of_packets; await (promise_all rs).

(** [++this.transactionID] *)
Definition pre_incr_transactionID : M Z := fun w =>
  let t := transactionID (device w) + 1 in
  (Ok t, with_device (fun d => MkDevice (sessionOpen d) (sessionID d) (storageInfoObjects d) t) w).

Definition set_sessionOpen (b : bool) : M unit :=
  modify (with_device (fun d => MkDevice b (sessionID d) (storageInfoObjects d) (transactionID d))).

Definition set_storageInfoObjects (l : list storageInfoDataset) (w : world) : world :=
  with_device (fun d => MkDevice (sessionOpen d) (sessionID d) l (transactionID d)) w.

(** [device.storageInfoObjects.push(s)] *)
Definition push_storageInfoObject (s : storageInfoDataset) (w : world) : world :=
  set_storageInfoObjects (storageInfoObjects (device w) ++ [s]) w.

Definition log_event (e : event) : M unit := modify (with_log e).

(** ** MTPDevice operations

    In each operation the reads are issued first, the Command is written
    next, and the [then] handler runs when the reads have settled; the
    definitions follow that order.  [settle] keeps the effects of a step
    whose outcome the function only looks at later. *)

(** [openSession] *)
Definition openSession_then (receivedBuffer : list Z) : M unit :=
  if (packet_code receivedBuffer =? MTP_OK) || (packet_code receivedBuffer =? SESSION_ALREADY_OPEN)
  then set_sessionOpen true;; resolve (VBool true)
  else set_sessionOpen false;; throw.

Definition openSession : M value :=
  new_Promise;;
  r ← settle (transferIn InOpenSession);
  d ← get_device;
  let openSession := new_mtpPacket 1 in
  let openSession := setTransactionType MTP_PACKET_TYPE_COMMAND openSession in
  let openSession := setOperation MTP_OPEN_SESSION openSession in
  let openSession := setTransactionID (transactionID d) openSession in
  let openSession := setParams (sessionID d) 0 0 0 0 openSession in
  let openSession := pack openSession in
  sent ← settle (sendPacket (container_array openSession));
  _ ← settle (catch_ (receivedBuffer ← await r; openSession_then receivedBuffer)
                     (resolve (VBool false)));
  await sent;;
  return_promise.

(** [getStorageIDS] *)
Definition getStorageIDS_then (receivedPackets : list (list Z)) : M unit :=
  let p0 := nth 0 receivedPackets [] in
  let p1 := nth 1 receivedPackets [] in
  let '(storageIDBuffer, MTP_OKBuffer) :=
    if packet_code p0 =? MTP_GET_STORAGE_IDS then (p0, p1) else (p1, p0) in
  if packet_code MTP_OKBuffer =? MTP_OK then
    modify (set_storageInfoObjects []);;
    let numberOfStorageIDS := read32 storageIDBuffer 12 in
    let readBase := 16 in
    modify (JS.for_loop 0 numberOfStorageIDS
              (fun i w =>
                 let storage_id := read32 storageIDBuffer (readBase + i * 4) in
                 push_storageInfoObject (new_storageInfoDataset storage_id) w));;
    resolve (VBool true)
  else throw.

Definition getStorageIDS : M value :=
  results ← settle (receivePackets 2);
  new_Promise;;
  let getStorageIDS := new_mtpPacket 0 in
  let getStorageIDS := setTransactionType MTP_PACKET_TYPE_COMMAND getStorageIDS in
  let getStorageIDS := setOperation MTP_GET_STORAGE_IDS getStorageIDS in
  tx ← pre_incr_transactionID;
  let getStorageIDS := setTransactionID tx getStorageIDS in
  let getStorageIDS := pack getStorageIDS in
  sent ← settle (sendPacket (container_array getStorageIDS));
  _ ← settle (catch_ (receivedPackets ← await results; getStorageIDS_then receivedPackets)
                     (resolve (VBool false)));
  await sent;;
  return_promise.

(** [deleteFile(fileObject)] *)
Definition deleteFile_then (receivedPackets : list (list Z)) : M unit :=
  if packet_code (nth 0 receivedPackets []) =? MTP_OK
  then resolve (VBool true)
  else throw.

(** Reading a property of [x]: a TypeError when [x] is [undefined]. *)
Definition defined {A : Type} (x : option A) : M A :=
  match x with
  | Some a => mret a
  | None => throw
  end.

(** The argument may be [undefined] (the view passes the result of a
    [find] or [filter(...)[0]]).  What follows the creation of the promise
    is the rest of the async body up to its [await]: a throw anywhere in it
    rejects the call, and the handler attached to the reads still runs.
    Here the first statement, [console.log("Deleting", fileObject,
    fileObject.fileID)], is the one that throws, before [++transactionID]. *)
Definition deleteFile (fileObject : option ObjectInfoDataset) : M value :=
  result ← settle (receivePackets 1);
  new_Promise;;
  sent ← settle (fileObject ← defined fileObject;
                 let delete_packet := new_mtpPacket 2 in
                 tx ← pre_incr_transactionID;
                 let delete_packet := setTransactionID tx delete_packet in
                 let delete_packet := setTransactionType MTP_PACKET_TYPE_COMMAND delete_packet in
                 let delete_packet := setOperation MTP_DELETE_OBJECT delete_packet in
                 let delete_packet :=
                   setParams (default 0 (fileID fileObject)) 0 0 0 0 delete_packet in
                 let delete_packet := pack delete_packet in
                 sendPacket (container_array delete_packet));
  _ ← settle (catch_ (receivedPackets ← await result; deleteFile_then receivedPackets)
                     (resolve (VBool false)));
  await sent;;
  return_promise.

(** [uploadFileInfo(storageObject, filename, fileSize)].  The [catch] of the
    source is attached to the outer promise, which never rejects, so a throw
    in the handler leaves the promise pending. *)
Definition uploadFileInfo_then (receivedPackets : list (list Z)) : M unit :=
  let p0 := nth 0 receivedPackets [] in
  let p1 := nth 1 receivedPackets [] in
  let '(objectInfoBuffer, MTP_OKBuffer) :=
    if packet_code p0 =? SEND_OBJECT_INFO then (p0, p1) else (p1, p0) in
  if packet_code MTP_OKBuffer =? MTP_OK then
    let newObjectID :=
      JS.for_loop 20 24
        (fun i acc => JS.bor acc (JS.band (JS.sar (JS.rd objectInfoBuffer i) ((i - 20) * 8)) 0xff)) 0 in
    resolve (VStatusNum true newObjectID)
  else throw.

Definition uploadFileInfo (storageObject : storageInfoDataset) (filename : list Z) (fileSize : Z)
    : M value :=
  result ← settle (receivePackets 2);
  new_Promise;;
  let sendObjInfo := new_mtpPacket 2 in
  let sendObjInfo := setOperation SEND_OBJECT_INFO sendObjInfo in
  tx ← pre_incr_transactionID;
  let sendObjInfo := setTransactionID tx sendObjInfo in
  let sendObjInfo := setTransactionType MTP_PACKET_TYPE_COMMAND sendObjInfo in
  let sendObjInfo := setParams (storageID storageObject) PLACE_IN_ROOT 0 0 0 sendObjInfo in
  let sendObjInfo := pack sendObjInfo in
  let fileInfo := new_ObjectInfoDataset None in
  let fileInfo := initContainer UNDEFINED_OBJECT_FORMAT fileSize 0 0 filename fileInfo in
  let sendObjInfo2 := new_mtpPacket 0 in
  let sendObjInfo2 := setOperation SEND_OBJECT_INFO sendObjInfo2 in
  let sendObjInfo2 := setTransactionID tx sendObjInfo2 in
  let sendObjInfo2 := setParams 0 0 0 0 0 sendObjInfo2 in
  let sendObjInfo2 := setTransactionType CONTAINER_TYPE_DATA sendObjInfo2 in
  let sendObjInfo2 :=
    set_containerArrayLength
      (MTP_CONTAINER_ARRAY_LEN + Z.of_nat (length (oi_container_array fileInfo))
       + Z.of_nat (length (filename_array fileInfo)) + Z.of_nat (length (dateCreateLength fileInfo))
       + Z.of_nat (length (dateCreateArray fileInfo)) + Z.of_nat (length (dateModLength fileInfo))
       + Z.of_nat (length (dateModArray fileInfo)) + Z.of_nat (length (keywords fileInfo)))
      sendObjInfo2 in
  let sendObjInfo2 := pack sendObjInfo2 in
  sent ← settle (sendPacket (container_array sendObjInfo);;
                 sendPacket (map JS.ToUint8
                               (container_array sendObjInfo2 ++ oi_container_array fileInfo
                                ++ filename_array fileInfo ++ dateCreateLength fileInfo
                                ++ dateCreateArray fileInfo ++ dateModLength fileInfo
                                ++ dateModArray fileInfo ++ keywords fileInfo)));
  _ ← settle (receivedPackets ← await result; uploadFileInfo_then receivedPackets);
  await sent;;
  return_promise.

(** [uploadFile(fileBytes)]: the [while] loop that writes the Data phase. *)
Equations? uploadFile_loop (fileBytes container : list Z) (i : Z) : M unit
    by wf (Z.to_nat (Z.of_nat (length fileBytes) - i)) lt :=
  uploadFile_loop fileBytes container i with Z_lt_dec i (Z.of_nat (length fileBytes)) := {
    | right _ => mret tt
    | left _ =>
        let len := Z.of_nat (length fileBytes) in
        let end_ :=
          if len <? i + MTP_PACKET_MAX_SIZE then len
          else if i =? 0 then i + 500 else i + MTP_PACKET_MAX_SIZE in
        let sliced := JS.slice fileBytes i end_ in
        (if i =? 0 then sendPacket (map JS.ToUint8 (container ++ sliced)) else sendPacket sliced);;
        uploadFile_loop fileBytes container end_ }.
Proof.
  subst sliced end_ len. unfold MTP_PACKET_MAX_SIZE.
  destruct (Z.ltb_spec (Z.of_nat (length fileBytes)) (i + 512));
    [| destruct (Z.eqb_spec i 0)]; lia.
Qed.

Definition uploadFile_then (receivedPackets : list (list Z)) : M unit :=
  if packet_code (nth 0 receivedPackets []) =? MTP_OK
  then resolve (VBool true)
  else throw.

Definition uploadFile (fileBytes : list Z) : M value :=
  result ← settle (receivePackets 2);
  new_Promise;;
  let reqSendObject := new_mtpPacket 0 in
  let reqSendObject := setTransactionType MTP_PACKET_TYPE_COMMAND reqSendObject in
  tx ← pre_incr_transactionID;
  let reqSendObject := setTransactionID tx reqSendObject in
  let reqSendObject := setOperation SEND_OBJECT reqSendObject in
  let reqSendObject := setParams 0 0 0 0 0 reqSendObject in
  let reqSendObject := pack reqSendObject in
  let reqSendObject2 := new_mtpPacket 0 in
  let reqSendObject2 := setOperation SEND_OBJECT reqSendObject2 in
  let reqSendObject2 := setTransactionID tx reqSendObject2 in
  let reqSendObject2 := setParams 0 0 0 0 0 reqSendObject2 in
  let reqSendObject2 := setTransactionType CONTAINER_TYPE_DATA reqSendObject2 in
  let reqSendObject2 :=
    set_containerArrayLength (MTP_CONTAINER_ARRAY_LEN + Z.of_nat (length fileBytes)) reqSendObject2 in
  let reqSendObject2 := pack reqSendObject2 in
  sent ← settle (sendPacket (container_array reqSendObject);;
                 uploadFile_loop fileBytes (container_array reqSendObject2) 0);
  _ ← settle (catch_ (receivedPackets ← await result; uploadFile_then receivedPackets)
                     (resolve (VBool false)));
  await sent;;
  return_promise.

(** [downloadAudioFile(storageObject, fileObject, lenaDevice)] *)

(** [Array(n)]: a RangeError unless [n] is an array length. *)
Definition Array_of_length (n : Z) : M nat :=
  if (0 <=? n) && (n <? 4294967296) then mret (Z.to_nat n) else throw.

(** [lenaDevice.audioCopyTotalBytes = fileLength]: a TypeError when no
    object was passed. *)
Definition set_audioCopyTotalBytes (n : Z) : M unit := fun w =>
  match lenaDevice w with
  | Some s => (Ok tt, with_lenaDevice (fun _ => Some (MkSettings (audioCopyBytes s) n)) w)
  | None => (Throw, w)
  end.

(** [if (lenaDevice) lenaDevice.audioCopyBytes = lenaDevice.audioCopyBytes + n]
    (the percentage kept next to it is display text and left out). *)
Definition add_audioCopyBytes (n : Z) : M unit :=
  modify (with_lenaDevice
            (fmap (fun s => MkSettings (audioCopyBytes s + n) (audioCopyTotalBytes s)))).

(** The callback of one read of the loop; the state is
    [(objectBuffer, blobCount)]. *)
Definition download_step (i : Z) (st : list Z * Z) : M (list Z * Z) :=
  data ← transferIn InDownloadLoop;
  let objectBuffer := fst st ++ data in
  let blobCount := snd st + 1 in
  if blobCount mod 50000 =? 0 then
    log_event (EvBlobAdd blobCount objectBuffer);;
    add_audioCopyBytes (Z.of_nat (length objectBuffer));;
    mret ([], blobCount)
  else mret (objectBuffer, blobCount).

(** [for (const i of range) { await ... }] *)
Fixpoint download_loop (range : list Z) (st : list Z * Z) : M (list Z * Z) :=
  match range with
  | [] => mret st
  | i :: range' => st' ← download_step i st; download_loop range' st'
  end.

Definition downloadAudioFile_then (receivedPackets : list (list Z)) : M unit :=
  let firstObjectBuffer := nth 0 receivedPackets [] in
  if packet_code firstObjectBuffer =? GET_OBJECT then
    let fileLength := read32 firstObjectBuffer 0 - MTP_CONTAINER_ARRAY_LEN in
    let objectBuffer :=
      JS.slice firstObjectBuffer MTP_CONTAINER_ARRAY_LEN (Z.of_nat (length firstObjectBuffer)) in
    let numberOfPacketsToBeReceived :=
      JS.ceil_div (fileLength - Z.of_nat (length objectBuffer)) MTP_PACKET_MAX_SIZE in
    set_audioCopyTotalBytes fileLength;;
    n ← Array_of_length numberOfPacketsToBeReceived;
    let range := map Z.of_nat (seq 0 n) in
    st ← download_loop range (objectBuffer, 0);
    let '(objectBuffer, blobCount) := st in
    add_audioCopyBytes (Z.of_nat (length objectBuffer));;
    log_event (EvBlobAdd blobCount objectBuffer);;
    let objectBuffer := [] in
    _ ← transferIn InDownloadTrailing;
    resolve (VStatusBytes true objectBuffer);;
    log_event (EvBlobAdd (blobCount + 1) objectBuffer);;
    add_audioCopyBytes (Z.of_nat (length objectBuffer))
  else throw.

(** [fileObject] may be [undefined]: [setParams(fileObject.fileID, ...)]
    then throws, after [++transactionID] and before the write. *)
Definition downloadAudioFile (fileObject : option ObjectInfoDataset) : M value :=
  results ← settle (receivePackets 1);
  new_Promise;;
  sent ← settle (let reqObj := new_mtpPacket 1 in
                 tx ← pre_incr_transactionID;
                 let reqObj := setTransactionID tx reqObj in
                 let reqObj := setTransactionType MTP_PACKET_TYPE_COMMAND reqObj in
                 let reqObj := setOperation GET_OBJECT reqObj in
                 fileObject ← defined fileObject;
                 let reqObj := setParams (default 0 (fileID fileObject)) 0 0 0 0 reqObj in
                 let reqObj := pack reqObj in
                 sendPacket (container_array reqObj));
  _ ← settle (catch_ (receivedPackets ← await results; downloadAudioFile_then receivedPackets)
                     (resolve (VBool false)));
  await sent;;
  return_promise.

(** ** The configuration-file parser of the WebHub view *)

Definition CR : ascii := "013"%char.
Definition LF : ascii := "010"%char.

(** [string.split(/\r\n|\r|\n/g)] *)
Fixpoint split_newlines (s : string) : list string :=
  match s with
  | EmptyString => [EmptyString]
  | String c s' =>
      if Ascii.eqb c CR then
        match s' with
        | String c' s'' =>
            if Ascii.eqb c' LF then EmptyString :: split_newlines s''
            else EmptyString :: split_newlines s'
        | EmptyString => EmptyString :: split_newlines s'
        end
      else if Ascii.eqb c LF then EmptyString :: split_newlines s'
      else match split_newlines s' with
           | h :: t => String c h :: t
           | [] => [String c EmptyString]
           end
  end.

(** [line.split("=")] and the like: split at every occurrence of [sep]. *)
Fixpoint split_char (sep : ascii) (s : string) : list string :=
  match s with
  | EmptyString => [EmptyString]
  | String c s' =>
      if Ascii.eqb c sep then EmptyString :: split_char sep s'
      else match split_char sep s' with
           | h :: t => String c h :: t
           | [] => [String c EmptyString]
           end
  end.

(** [if (kvp[1])]: defined and not the empty string. *)
Definition truthy (v : option string) : bool :=
  match v with
  | Some (String _ _) => true
  | _ => false
  end.

(** [obj[k] = v] on an object created by [{}]: the key [__proto__] reaches
    the setter inherited from [Object.prototype], which ignores a string. *)
Definition obj_set (obj : gmap string string) (k v : string) : gmap string string :=
  if String.eqb k "__proto__" then obj else <[k := v]> obj.

Definition stringToObj (s : string) : gmap string string :=
  let stringArray := split_newlines s in
  JS.for_loop 0 (Z.of_nat (length stringArray))
    (fun i obj =>
       let kvp := split_char "=" (nth (Z.to_nat i) stringArray EmptyString) in
       if truthy (kvp !! 1%nat)
       then obj_set obj (nth 0 kvp EmptyString) (nth 1 kvp EmptyString)
       else obj) ∅.


(** ** Observations on a run *)

(** The packets written to the OUT endpoint, oldest first. *)
Definition writes (l : list event) : list (list Z) :=
  omap (fun e => match e with EvTransferOut p => Some p | _ => None end) l.

(** The bulk-IN reads and the calls of [resolve], in order. *)
Definition is_read_or_resolve (e : event) : bool :=
  match e with
  | EvTransferIn _ | EvResolve _ => true
  | _ => false
  end.

(** A newly constructed device on a transport that settles the [k]-th read
    with [ins k] and the [k]-th write with [outs k]. *)
Definition fresh_world (lena : option deviceSettings) (ins : nat -> transfer)
    (outs : nat -> out_status) : world :=
  MkWorld new_MTPDevice lena ins 0 outs 0 [] None.

(** The same transport around a device in state [d]. *)
Definition world_of (d : MTPDevice) (lena : option deviceSettings) (ins : nat -> transfer)
    (outs : nat -> out_status) : world :=
  MkWorld d lena ins 0 outs 0 [] None.

(** A read script: the listed transfers, then [d] for ever. *)
Definition script (l : list transfer) (d : transfer) : nat -> transfer :=
  fun k => nth k l d.

Definition all_ok : nat -> out_status := fun _ => OutOk.

(** The response code that the handler of [getStorageIDS] checks, when both
    packets of the exchange arrive. *)
Definition getStorageIDS_response_code (w : world) : option Z :=
  match bulk_in w (in_pos w), bulk_in w (S (in_pos w)) with
  | XferData p0, XferData p1 =>
      Some (packet_code (if packet_code p0 =? MTP_GET_STORAGE_IDS then p1 else p0))
  | _, _ => None
  end.

Definition example_ids_header : list Z := [0x18; 0; 0; 0; 2; 0; 0x04; 0x10; 1; 0; 0; 0].
Definition example_ids_data : list Z :=
  example_ids_header ++ [2; 0; 0; 0; 1; 0; 1; 0; 2; 0; 1; 0].
Definition response_packet (code tx : Z) : list Z :=
  le_bytes 4 12 ++ le_bytes 2 CONTAINER_TYPE_RESPONSE ++ le_bytes 2 code ++ le_bytes 4 tx.

(** A device that has enumerated one storage holding [command.txt] as
    object 2. *)
Definition example_command_file : ObjectInfoDataset :=
  MkObjectInfo 52 (JS.new_Uint8Array 52) [] (Some 2)
    [99; 111; 109; 109; 97; 110; 100; 46; 116; 120; 116]
    [0; 0; 0; 0x12] fixed_date_array [0; 0; 0; 0x12] fixed_date_array [0; 0; 0; 0] (Some 43).

Definition example_device : MTPDevice :=
  {| sessionOpen := true;
     sessionID := 1;
     storageInfoObjects :=
       [MkStorageInfo 0x00010001 0 0 0 0 [] [example_command_file] None];
     transactionID := 8 |}.

(** A GetStorageInfo Data packet of a fixed-RAM storage with a capacity of
    8 GiB (0x2_0000_0000) of which 6 GiB (0x1_8000_0000) are free: the
    12-byte container header, storage type 3, filesystem type 2, access 0,
    the two 64-bit sizes, the free object count and two empty strings. *)
Definition example_storage_info : list Z :=
  [0x28; 0; 0; 0; 2; 0; 0x05; 0x10; 2; 0; 0; 0]
  ++ [3; 0; 2; 0; 0; 0]
  ++ [0; 0; 0; 0; 2; 0; 0; 0]
  ++ [0; 0; 0; 0x80; 1; 0; 0; 0]
  ++ [0xff; 0xff; 0xff; 0xff]
  ++ [0; 0].

(** The Response to SendObjectInfo with parameters
    [0x00010001, 0xFFFFFFFF, handle], as the device sends it. *)
Definition sendObjectInfo_response (tx handle : Z) : list Z :=
  le_bytes 4 24 ++ le_bytes 2 CONTAINER_TYPE_RESPONSE ++ le_bytes 2 MTP_OK ++ le_bytes 4 tx
  ++ le_bytes 4 0x00010001 ++ le_bytes 4 0xFFFFFFFF ++ le_bytes 4 handle.

(** The buffers that the handler of [uploadFileInfo] selects from the two
    received packets: the one it reads the handle from and the one whose
    response code it checks. *)
Definition uploadFileInfo_buffers (p0 p1 : list Z) : list Z * list Z :=
  if packet_code p0 =? SEND_OBJECT_INFO then (p0, p1) else (p1, p0).

(** [emits Q m]: whatever the state, running [m] only appends to the log,
    and every event it appends satisfies [Q]. *)
Definition emits {A : Type} (Q : event -> Prop) (m : M A) : Prop :=
  forall w, exists evs, log (snd (m w)) = log w ++ evs /\ Forall Q evs.

(** An event other than a zero-length bulk OUT write. *)
Definition not_zero_length_write (e : event) : Prop := e <> EvTransferOut [].

(** ** The text format of the configuration file, stated on strings *)

Fixpoint string_forallb (p : ascii -> bool) (s : string) : bool :=
  match s with
  | EmptyString => true
  | String c s' => p c && string_forallb p s'
  end.

(** A line: no carriage return and no line feed in it. *)
Definition no_newline (s : string) : bool :=
  string_forallb (fun c => negb (Ascii.eqb c CR) && negb (Ascii.eqb c LF)) s.

Definition starts_with (c : ascii) (s : string) : bool :=
  match s with
  | String c' _ => Ascii.eqb c' c
  | EmptyString => false
  end.

Definition CRLF_sep : string := String CR (String LF EmptyString).
Definition CR_sep : string := String CR EmptyString.
Definition LF_sep : string := String LF EmptyString.

(** A text given as its first line and the following lines, each with the
    line break that precedes it. *)
Fixpoint join_lines (l0 : string) (rest : list (string * string)) : string :=
  match rest with
  | [] => l0
  | (sep, l) :: rest' => (l0 ++ sep ++ join_lines l rest')%string
  end.

(** The lines hold no line break, every break is one of the three, and a
    lone carriage return is not directly followed by a line feed (the two
    would form one break). *)
Fixpoint well_split (l0 : string) (rest : list (string * string)) : Prop :=
  no_newline l0 = true /\
  match rest with
  | [] => True
  | (sep, l) :: rest' =>
      (sep = CRLF_sep \/ sep = LF_sep
       \/ (sep = CR_sep /\ starts_with LF (join_lines l rest') = false))
      /\ well_split l rest'
  end.

(** The text before the first [c] of [s] (all of [s] when there is none),
    and the text after it. *)
Fixpoint before (c : ascii) (s : string) : string :=
  match s with
  | EmptyString => EmptyString
  | String c' s' => if Ascii.eqb c' c then EmptyString else String c' (before c s')
  end.

Fixpoint after (c : ascii) (s : string) : option string :=
  match s with
  | EmptyString => None
  | String c' s' => if Ascii.eqb c' c then Some s' else after c s'
  end.

(** The entry a line stands for: KEY is the text before the first [=],
    VALUE the text between the first [=] and the next one, or the end of the
    line.  A line without [=] or with an empty VALUE stands for none. *)
Definition line_entry (line : string) : option (string * string) :=
  match after "=" line with
  | None => None
  | Some rhs =>
      match before "=" rhs with
      | EmptyString => None
      | value => Some (before "=" line, value)
      end
  end.

Definition add_line (obj : gmap string string) (line : string) : gmap string string :=
  match line_entry line with
  | Some (k, v) => obj_set obj k v
  | None => obj
  end.

(** [w'] differs from [w] at most in the read position, the log and the
    progress record, which is still there if it was. *)
Definition same_session (w w' : world) : Prop :=
  bulk_in w' = bulk_in w /\ bulk_out w' = bulk_out w /\ out_pos w' = out_pos w
  /\ promise w' = promise w /\ device w' = device w
  /\ (lenaDevice w <> None -> lenaDevice w' <> None).

(** First packets of a GetObject Data phase: a 12-byte header followed by
    the first payload bytes. *)
Definition getObject_first_packet (header_length tx : Z) (payload : list Z) : list Z :=
  le_bytes 4 header_length ++ le_bytes 2 CONTAINER_TYPE_DATA ++ le_bytes 2 GET_OBJECT
  ++ le_bytes 4 tx ++ payload.

(** A device that delivers [first] and then full packets for ever, with a
    progress object passed to the download. *)
Definition download_world (first : list Z) : world :=
  world_of example_device (Some (MkSettings 0 0))
    (script [XferData first] (XferData (repeat 0 512))) all_ok.

(** * The rest of the driver *)

Definition GET_ROOT_OBJECTS : Z := 0xffffffff.
Definition FILE_NAME_START : Z := 65.

(** ** Records reached through the device

    The callers hand the driver a storage record and a file record that they
    took out of [device.storageInfoObjects]: an element of the list, or
    [undefined] when their search found none.  The model passes positions:
    [i] stands for [device.storageInfoObjects[i]] and [j] for the [j]-th
    element of its [objectInfoObjects]; a position past the end stands for
    [undefined], and reading a property of [undefined] throws. *)

Definition storage_at (i : nat) : M storageInfoDataset := fun w =>
  match storageInfoObjects (device w) !! i with
  | Some s => (Ok s, w)
  | None => (Throw, w)
  end.

Definition object_at (i j : nat) : M ObjectInfoDataset :=
  s ← storage_at i;
  match objectInfoObjects s !! j with
  | Some o => mret o
  | None => throw
  end.

(** An assignment to a property of [device.storageInfoObjects[i]]. *)
Definition update_storage_at (i : nat) (f : storageInfoDataset -> storageInfoDataset) : M unit :=
  fun w =>
    match storageInfoObjects (device w) !! i with
    | Some s => (Ok tt, set_storageInfoObjects (<[i := f s]> (storageInfoObjects (device w))) w)
    | None => (Throw, w)
    end.

Definition set_objectInfoObjects (l : list ObjectInfoDataset) (s : storageInfoDataset)
    : storageInfoDataset :=
  MkStorageInfo (storageID s) (storageSize s) (usedSpace s) (freeSpace s) (storageDescLength s)
                (storageDescription s) l (baseAddr s).

(** An assignment to a property of
    [device.storageInfoObjects[i].objectInfoObjects[j]]. *)
Definition update_object_at (i j : nat) (f : ObjectInfoDataset -> ObjectInfoDataset) : M unit :=
  s ← storage_at i;
  match objectInfoObjects s !! j with
  | Some o => update_storage_at i (set_objectInfoObjects (<[j := f o]> (objectInfoObjects s)))
  | None => throw
  end.

(** [for (let i = 0; i < n; i++) body] with a body that has effects. *)
Fixpoint for_each (range : list Z) (body : Z -> M unit) : M unit :=
  match range with
  | [] => mret tt
  | i :: range' => body i;; for_each range' body
  end.

Definition indices (n : Z) : list Z := map Z.of_nat (seq 0 (Z.to_nat n)).

(** The two packets of an exchange, told apart by the operation code the
    Data packet carries: [(dataBuffer, MTP_OKBuffer)]. *)
Definition demux (op : Z) (receivedPackets : list (list Z)) : list Z * list Z :=
  let p0 := nth 0 receivedPackets [] in
  let p1 := nth 1 receivedPackets [] in
  if packet_code p0 =? op then (p0, p1) else (p1, p0).

(** ** closeSession

    The read is logged under the tag of the session operations; the write is
    not awaited, so its outcome does not reach the caller. *)
Definition closeSession_then (receivedBuffer : list Z) : M unit :=
  if packet_code receivedBuffer =? MTP_OK
  then set_sessionOpen false;; resolve (VBool true)
  else throw.

Definition closeSession : M value :=
  new_Promise;;
  r ← settle (transferIn InOpenSession);
  let closeSessionRequest := new_mtpPacket 0 in
  let closeSessionRequest := setOperation CLOSE_SESSION closeSessionRequest in
  let closeSessionRequest := setTransactionType MTP_PACKET_TYPE_COMMAND closeSessionRequest in
  tx ← pre_incr_transactionID;
  let closeSessionRequest := setTransactionID tx closeSessionRequest in
  let closeSessionRequest := pack closeSessionRequest in
  _ ← settle (transferOut (container_array closeSessionRequest));
  _ ← settle (catch_ (receivedBuffer ← await r; closeSession_then receivedBuffer)
                     (resolve (VBool false)));
  return_promise.

(** ** getStorageInfo(storageObject) *)
Definition getStorageInfo_then (i : nat) (receivedPackets : list (list Z)) : M unit :=
  let '(storageInfoBuffer, MTP_OKBuffer) := demux MTP_GET_STORAGE_INFO receivedPackets in
  if packet_code MTP_OKBuffer =? MTP_OK then
    update_storage_at i (initDatasetFromMTPContainer storageInfoBuffer);;
    resolve (VBool true)
  else throw.

Definition getStorageInfo (i : nat) : M value :=
  results ← settle (receivePackets 2);
  new_Promise;;
  let reqStorageInfo := new_mtpPacket 1 in
  tx ← pre_incr_transactionID;
  let reqStorageInfo := setTransactionID tx reqStorageInfo in
  let reqStorageInfo := setTransactionType MTP_PACKET_TYPE_COMMAND reqStorageInfo in
  let reqStorageInfo := setOperation MTP_GET_STORAGE_INFO reqStorageInfo in
  sent ← settle (storageObject ← storage_at i;
                 let reqStorageInfo := setParams (storageID storageObject) 0 0 0 0 reqStorageInfo in
                 let reqStorageInfo := pack reqStorageInfo in
                 sendPacket (container_array reqStorageInfo));
  _ ← settle (catch_ (receivedPackets ← await results; getStorageInfo_then i receivedPackets)
                     (resolve (VBool false)));
  await sent;;
  return_promise.

(** ** getFileObjects(storageObject) *)
Definition push_object (o : ObjectInfoDataset) (s : storageInfoDataset) : storageInfoDataset :=
  set_objectInfoObjects (objectInfoObjects s ++ [o]) s.

Definition getFileObjects_then (i : nat) (receivedPackets : list (list Z)) : M unit :=
  let '(objectIDBuffer, MTP_OKBuffer) := demux GET_OBJECT_HANDLES receivedPackets in
  if packet_code MTP_OKBuffer =? MTP_OK then
    update_storage_at i (set_objectInfoObjects []);;
    let numberOfObjectIDS := read32 objectIDBuffer 12 in
    let readBase := 16 in
    for_each (indices numberOfObjectIDS)
      (fun k =>
         let object_id := read32 objectIDBuffer (readBase + k * 4) in
         update_storage_at i (push_object (new_ObjectInfoDataset (Some object_id))));;
    resolve (VBool true)
  else throw.

Definition getFileObjects (i : nat) : M value :=
  results ← settle (receivePackets 2);
  new_Promise;;
  let reqObjHandles := new_mtpPacket 3 in
  tx ← pre_incr_transactionID;
  let reqObjHandles := setTransactionID tx reqObjHandles in
  let reqObjHandles := setTransactionType MTP_PACKET_TYPE_COMMAND reqObjHandles in
  let reqObjHandles := setOperation GET_OBJECT_HANDLES reqObjHandles in
  sent ← settle (storageObject ← storage_at i;
                 let reqObjHandles :=
                   setParams (storageID storageObject) 0 GET_ROOT_OBJECTS 0 0 reqObjHandles in
                 let reqObjHandles := pack reqObjHandles in
                 sendPacket (container_array reqObjHandles));
  _ ← settle (catch_ (receivedPackets ← await results; getFileObjects_then i receivedPackets)
                     (resolve (VBool false)));
  await sent;;
  return_promise.

(** ** getFileObjectInfo(storageObject, fileObject) *)

(** [bin2String(array)]: a string is the list of its code units. *)
Definition bin2String (array : list Z) : list Z :=
  JS.for_loop 0 (Z.of_nat (length array))
    (fun i result => result ++ [nth (Z.to_nat i) array 0]) [].

(** [setFileName(filenameArray)] *)
Definition setFileName (filenameArray : list Z) (o : ObjectInfoDataset) : ObjectInfoDataset :=
  MkObjectInfo (containerLength o) (oi_container_array o) (filename_array o) (fileID o)
               (bin2String filenameArray) (dateCreateLength o) (dateCreateArray o)
               (dateModLength o) (dateModArray o) (keywords o) (filesize o).

Definition set_filesize (n : Z) (o : ObjectInfoDataset) : ObjectInfoDataset :=
  MkObjectInfo (containerLength o) (oi_container_array o) (filename_array o) (fileID o)
               (fileName o) (dateCreateLength o) (dateCreateArray o)
               (dateModLength o) (dateModArray o) (keywords o) (Some n).

(** [new Uint8Array(len / 2 - 1)]: the length is truncated towards zero, and
    a RangeError is thrown when that is negative. *)
Definition new_name_array (len : Z) : M (list Z) :=
  let n := Z.quot (len - 2) 2 in
  if n <? 0 then throw else mret (JS.new_Uint8Array n).

(** The file name of an ObjectInfo Data packet as the handler extracts it:
    every second byte of the name field, the last pair left out.  (When
    byte 64 is missing the slice is empty, as it is for a count of 0.) *)
Definition parse_file_name (objectInfoBuffer : list Z) : M (list Z) :=
  let fileNameLength := JS.rd objectInfoBuffer (FILE_NAME_START - 1) * 2 in
  let sliced_name_array :=
    JS.slice objectInfoBuffer FILE_NAME_START (FILE_NAME_START + fileNameLength) in
  let len := Z.of_nat (length sliced_name_array) in
  file_name_array ← new_name_array len;
  mret (JS.for_loop 0 (JS.ceil_div len 2)
          (fun i a => JS.u8_store a i (JS.rd sliced_name_array (2 * i))) file_name_array).

Definition getFileObjectInfo_then (i j : nat) (receivedPackets : list (list Z)) : M unit :=
  let '(objectInfoBuffer, MTP_OKBuffer) := demux GET_OBJECT_INFO receivedPackets in
  if packet_code MTP_OKBuffer =? MTP_OK then
    file_name_array ← parse_file_name objectInfoBuffer;
    update_object_at i j (setFileName file_name_array);;
    update_object_at i j (set_filesize (read32 objectInfoBuffer 20));;
    resolve (VBool true)
  else throw.

Definition getFileObjectInfo (i j : nat) : M value :=
  _ ← storage_at i;
  results ← settle (receivePackets 2);
  new_Promise;;
  let getObjInfo := new_mtpPacket 1 in
  let getObjInfo := setTransactionType MTP_PACKET_TYPE_COMMAND getObjInfo in
  let getObjInfo := setOperation GET_OBJECT_INFO getObjInfo in
  tx ← pre_incr_transactionID;
  let getObjInfo := setTransactionID tx getObjInfo in
  sent ← settle (fileObject ← object_at i j;
                 let getObjInfo := setParams (default 0 (fileID fileObject)) 0 0 0 0 getObjInfo in
                 let getObjInfo := pack getObjInfo in
                 sendPacket (container_array getObjInfo));
  _ ← settle (catch_ (receivedPackets ← await results; getFileObjectInfo_then i j receivedPackets)
                     (resolve (VBool false)));
  await sent;;
  return_promise.

(** ** downloadFile(storageObject, fileObject) *)
Definition downloadFile_step (i : Z) (objectBuffer : list Z) : M (list Z) :=
  data ← transferIn InDownloadLoop;
  mret (objectBuffer ++ data).

Fixpoint downloadFile_loop (range : list Z) (objectBuffer : list Z) : M (list Z) :=
  match range with
  | [] => mret objectBuffer
  | i :: range' => ob ← downloadFile_step i objectBuffer; downloadFile_loop range' ob
  end.

Definition downloadFile_then (receivedPackets : list (list Z)) : M unit :=
  let firstObjectBuffer := nth 0 receivedPackets [] in
  if packet_code firstObjectBuffer =? GET_OBJECT then
    let fileLength := read32 firstObjectBuffer 0 - MTP_CONTAINER_ARRAY_LEN in
    let objectBuffer :=
      JS.slice firstObjectBuffer MTP_CONTAINER_ARRAY_LEN (Z.of_nat (length firstObjectBuffer)) in
    let numberOfPacketsToBeReceived :=
      JS.ceil_div (fileLength - Z.of_nat (length objectBuffer)) MTP_PACKET_MAX_SIZE in
    n ← Array_of_length numberOfPacketsToBeReceived;
    let range := map Z.of_nat (seq 0 n) in
    objectBuffer ← downloadFile_loop range objectBuffer;
    _ ← transferIn InDownloadTrailing;
    resolve (VStatusBytes true objectBuffer)
  else throw.

(** [fileObject] may be [undefined]: [setParams(fileObject.fileID, ...)]
    then throws, after [++transactionID] and before the write. *)
Definition downloadFile (fileObject : option ObjectInfoDataset) : M value :=
  results ← settle (receivePackets 1);
  new_Promise;;
  sent ← settle (let reqObj := new_mtpPacket 1 in
                 tx ← pre_incr_transactionID;
                 let reqObj := setTransactionID tx reqObj in
                 let reqObj := setTransactionType MTP_PACKET_TYPE_COMMAND reqObj in
                 let reqObj := setOperation GET_OBJECT reqObj in
                 fileObject ← defined fileObject;
                 let reqObj := setParams (default 0 (fileID fileObject)) 0 0 0 0 reqObj in
                 let reqObj := pack reqObj in
                 sendPacket (container_array reqObj));
  _ ← settle (catch_ (receivedPackets ← await results; downloadFile_then receivedPackets)
                     (resolve (VBool false)));
  await sent;;
  return_promise.

(** ** Reference notions for the properties below *)

(** The own property [k] of an object made by [{}] and filled by
    assignments, or nothing when the object has no such property of its
    own: [obj.hasOwnProperty(k) ? obj[k] : undefined].  The map holds the
    own properties and nothing else; the read [obj[k]] of a key the object
    has not goes on to [Object.prototype] and finds [toString],
    [constructor] and the like there. *)
Definition own_property (obj : gmap string string) (k : string) : option string :=
  obj !! k.

(** The value the last line with key [k] gives it, if any line does. *)
Fixpoint last_entry (k : string) (lines : list string) : option string :=
  match lines with
  | [] => None
  | line :: lines' =>
      match last_entry k lines' with
      | Some v => Some v
      | None =>
          match line_entry line with
          | Some (k', v) => if String.eqb k' k then Some v else None
          | None => None
          end
      end
  end.

Definition has_char (c : ascii) (s : string) : bool :=
  negb (string_forallb (fun c' => negb (Ascii.eqb c' c)) s).

(** [preserves Rel m]: running [m] takes every state to a [Rel]-related one. *)
Definition preserves {A : Type} (Rel : world -> world -> Prop) (m : M A) : Prop :=
  forall w, Rel w (snd (m w)).

(** The transaction counter is the same. *)
Definition same_tx (w w' : world) : Prop :=
  transactionID (device w') = transactionID (device w).

(** Nothing was written to the device and the transaction counter is the
    same: the state of the OUT endpoint and the packets written so far are
    unchanged. *)
Definition quiet (w w' : world) : Prop :=
  bulk_out w' = bulk_out w /\ out_pos w' = out_pos w
  /\ writes (log w') = writes (log w)
  /\ transactionID (device w') = transactionID (device w).

(** The shape most operations share: issue the reads ([R]), make the
    promise, take the next transaction id, write ([S]), let the handler run
    on the received packets ([H]), and return the promise. *)
Definition exchange {A : Type} (R : M A) (S : Z -> M unit) (H : result A -> M unit) : M value :=
  results ← settle R;
  new_Promise;;
  tx ← pre_incr_transactionID;
  sent ← settle (S tx);
  _ ← settle (H results);
  await sent;;
  return_promise.

(** The state after [new Promise] and [++this.transactionID]. *)
Definition next_transaction (w : world) : world :=
  snd (pre_incr_transactionID (snd (new_Promise w))).

(** The handler an operation attaches to its reads:
    [results.then(h).catch(() => resolve(false))]. *)
Definition handler {A : Type} (h : A -> M unit) (results : result A) : M unit :=
  catch_ (receivedPackets ← await results; h receivedPackets) (resolve (VBool false)).

(** The transaction counter and the packets written after running [op]. *)
Definition tx_after {A : Type} (op : M A) (w : world) : Z :=
  transactionID (device (snd (op w))).

Definition written_by {A : Type} (op : M A) (w : world) : list (list Z) :=
  drop (length (writes (log w))) (writes (log (snd (op w)))).

(** The header of a Data packet as the upload paths build it: a packet
    without parameters whose [containerArrayLength] is overwritten with the
    length of the whole Data phase before [pack]. *)
Definition data_header (op tx len : Z) : list Z :=
  let p := new_mtpPacket 0 in
  let p := setOperation op p in
  let p := setTransactionID tx p in
  let p := setParams 0 0 0 0 0 p in
  let p := setTransactionType CONTAINER_TYPE_DATA p in
  let p := set_containerArrayLength len p in
  container_array (pack p).

(** The Data packet of [uploadFileInfo] for [filename] and [fileSize]: the
    header, whose length field is the sum of the lengths of the parts, and
    the parts of the ObjectInfo dataset spread into one [Uint8Array]. *)
Definition object_info_packet (tx : Z) (filename : list Z) (fileSize : Z) : list Z :=
  let fileInfo := new_ObjectInfoDataset None in
  let fileInfo := initContainer UNDEFINED_OBJECT_FORMAT fileSize 0 0 filename fileInfo in
  let len :=
    MTP_CONTAINER_ARRAY_LEN + Z.of_nat (length (oi_container_array fileInfo))
    + Z.of_nat (length (filename_array fileInfo)) + Z.of_nat (length (dateCreateLength fileInfo))
    + Z.of_nat (length (dateCreateArray fileInfo)) + Z.of_nat (length (dateModLength fileInfo))
    + Z.of_nat (length (dateModArray fileInfo)) + Z.of_nat (length (keywords fileInfo)) in
  map JS.ToUint8
    (data_header SEND_OBJECT_INFO tx len
     ++ oi_container_array fileInfo ++ filename_array fileInfo ++ dateCreateLength fileInfo
     ++ dateCreateArray fileInfo ++ dateModLength fileInfo ++ dateModArray fileInfo
     ++ keywords fileInfo).

(** The device record is the same. *)
Definition same_device (w w' : world) : Prop := device w' = device w.

(** The MTP string of the code units [s], as the protocol defines it: the
    number of characters including the terminating null, then the
    characters as 16-bit little-endian values, then the null. *)
Definition mtp_string (s : list Z) : list Z :=
  [Z.of_nat (length s) + 1] ++ concat (map (fun c => le_bytes 2 c) s) ++ [0; 0].

(** The characters of [20220315T093740.0]. *)
Definition fixed_date : list Z :=
  [0x32; 0x30; 0x32; 0x32; 0x30; 0x33; 0x31; 0x35; 0x54; 0x30; 0x39; 0x33; 0x37; 0x34; 0x30;
   0x2e; 0x30].

(** The fixed part of an ObjectInfo dataset as the protocol lays it out for
    the fields the driver sets: storage id 0, the object format, protection
    status 0, the size, thumb format [0x3000], and zeros up to the file
    name. *)
Definition object_info_fixed (objectFormat size : Z) : list Z :=
  le_bytes 4 0 ++ le_bytes 2 objectFormat ++ le_bytes 2 0 ++ le_bytes 4 size
  ++ le_bytes 2 0x3000 ++ repeat 0 38.

(** The array that [initContainer] fills for a file name, after [k] rounds
    of its loop: the count byte, then the characters, each but the first
    after a zero byte. *)
Definition name_cells (flen : Z) (filename : list Z) (k : nat) : list Z :=
  concat (map (fun j => [if (j =? 0)%nat then JS.ToUint8 (flen + 1) else 0;
                         JS.ToUint8 (nth j filename 0)]) (seq 0 k)).

(** ** The transport as an operation sees it *)

(** The outcomes of the next [n] reads. *)
Definition reads_from (w : world) (n : nat) : list transfer :=
  map (fun k => bulk_in w (in_pos w + k)%nat) (seq 0 n).

(** The data of a list of reads, when every one of them delivers. *)
Fixpoint all_delivered (ts : list transfer) : option (list (list Z)) :=
  match ts with
  | [] => Some []
  | XferData d :: ts' =>
      match all_delivered ts' with
      | Some l => Some (d :: l)
      | None => None
      end
  | _ :: ts' => None
  end.

(** The state after [n] reads issued by [getPacket]. *)
Definition after_reads (n : nat) (w : world) : world :=
  MkWorld (device w) (lenaDevice w) (bulk_in w) (in_pos w + n) (bulk_out w) (out_pos w)
          (log w ++ repeat (EvTransferIn InGetPacket) n) (promise w).

(** The promise is in the same state. *)
Definition same_promise (w w' : world) : Prop := promise w' = promise w.

(** The storage list is the same. *)
Definition same_storage (w w' : world) : Prop :=
  storageInfoObjects (device w') = storageInfoObjects (device w).

(** The state in which the handler of an operation runs when its Command
    has been written: [n] reads issued, the promise pending, the next
    transaction id taken, the Command in the log. *)
Definition handler_state (n : nat) (cmd : list Z) (w : world) : world :=
  next_out (with_log (EvTransferOut cmd) (next_transaction (after_reads n w))).

(** ** Example inputs *)

(** The header of a GetObjectHandles Data packet of transaction 9, and the
    packet for the handles 2 and 3. *)
Definition example_handles_header : list Z := [0x18; 0; 0; 0; 2; 0; 0x07; 0x10; 9; 0; 0; 0].
Definition example_handles_data : list Z :=
  example_handles_header ++ [2; 0; 0; 0; 2; 0; 0; 0; 3; 0; 0; 0].

(** The example device on a transport that delivers the listed packets and
    accepts every write. *)
Definition example_world (pkts : list (list Z)) : world :=
  world_of example_device None (script (map XferData pkts) XferPending) all_ok.

(** The header of a GetObjectInfo Data packet of transaction 9. *)
Definition example_info_header : list Z := [0x9a; 0; 0; 0; 2; 0; 0x08; 0x10; 9; 0; 0; 0].

(** The session flag, the session id and the storage list are the same:
    at most the transaction counter differs. *)
Definition same_but_tx (w w' : world) : Prop :=
  sessionOpen (device w') = sessionOpen (device w)
  /\ sessionID (device w') = sessionID (device w)
  /\ storageInfoObjects (device w') = storageInfoObjects (device w).

(** The storage list has the same records with the same ids, and they are
    the same records except at position [i]. *)
Definition frame (i : nat) (w w' : world) : Prop :=
  let l := storageInfoObjects (device w) in
  let l' := storageInfoObjects (device w') in
  length l' = length l
  /\ (forall k, k <> i -> l' !! k = l !! k)
  /\ map storageID l' = map storageID l.

(** The bytes handed to the blob of a large download so far, in order. *)
Definition blob_bytes (l : list event) : list Z :=
  concat (omap (fun e => match e with EvBlobAdd _ b => Some b | _ => None end) l).

(** The progress counter of the view, 0 when no progress object was passed. *)
Definition copied (w : world) : Z :=
  match lenaDevice w with
  | Some s => audioCopyBytes s
  | None => 0
  end.


(** ** getEndpoints

    The part of a USB configuration the method looks at, and the three
    fields of the [MTPDevice] it assigns. *)

Module USB.

Inductive Direction := In_ | Out.
Inductive EndpointType := Bulk | Interrupt | Isochronous.

Record Endpoint := MkEndpoint {
  direction : Direction;
  ep_type : EndpointType;
  endpointNumber : Z
}.

Record Alternate := MkAlternate { endpoints : list Endpoint }.

Record Interface := MkInterface {
  if_interfaceNumber : Z;
  alternates : list Alternate
}.

(** [interfaceNumber], [endpointIn] and [endpointOut] of the device. *)
Record Selection := MkSelection {
  interfaceNumber : Z;
  endpointIn : Z;
  endpointOut : Z
}.

Definition is_bulk (d : Direction) (e : Endpoint) : bool :=
  match direction e, d, ep_type e with
  | In_, In_, Bulk | Out, Out, Bulk => true
  | _, _, _ => false
  end.

(** The body of the inner [forEach]. *)
Definition visit_endpoint (sel : Selection) (elementendpoint : Endpoint) : Selection :=
  let sel :=
    if is_bulk Out elementendpoint
    then MkSelection (interfaceNumber sel) (endpointIn sel) (endpointNumber elementendpoint)
    else sel in
  if is_bulk In_ elementendpoint
  then MkSelection (interfaceNumber sel) (endpointNumber elementendpoint) (endpointOut sel)
  else sel.

(** The body of the outer [forEach]. *)
Definition visit_alternate (element : Interface) (sel : Selection) (elementalt : Alternate)
    : Selection :=
  let sel := MkSelection (if_interfaceNumber element) (endpointIn sel) (endpointOut sel) in
  fold_left visit_endpoint (endpoints elementalt) sel.

(** [getEndpoints]: only the first interface is looked at; without one,
    [element.alternates] throws. *)
Definition getEndpoints (configurationInterfaces : list Interface) (sel : Selection)
    : option Selection :=
  match configurationInterfaces with
  | [] => None
  | element :: _ => Some (fold_left (visit_alternate element) (alternates element) sel)
  end.

(** The number of the last endpoint of [eps] that is a bulk endpoint in
    direction [d], or [old]. *)
Definition last_bulk (d : Direction) (eps : list Endpoint) (old : Z) : Z :=
  List.last (map endpointNumber (List.filter (is_bulk d) eps)) old.

End USB.

(** ** The WebHub view: calls into the driver *)

Module WebHub.

(** What an async method of the view returns when it does not return a value. *)
Inductive js_void := JsUndefined | JsNull.

(** [array.find(p)] followed by [array.indexOf] of what was found: the
    position of the first element that satisfies [p]. *)
Fixpoint find_index {A : Type} (p : A -> bool) (l : list A) : option nat :=
  match l with
  | [] => None
  | x :: l' => if p x then Some 0%nat else S <$> find_index p l'
  end.

(** A storage record where the driver expects a file record: the driver
    reads [fileID] and nothing else from it, and a storage record has no such
    property. *)
Definition storage_as_file (storageObject : storageInfoDataset) : ObjectInfoDataset :=
  new_ObjectInfoDataset None.

(** [deleteObject(MTPDevice, storageID, fileID)].  The driver's [deleteFile]
    has one parameter and is called with two: the storage record lands in
    it, the file record found for [fileID] is dropped. *)
Definition deleteObject (storageID_ fileID_ : Z) : M js_void :=
  catch_
    (d ← get_device;
     match find_index (fun s => storageID s =? storageID_) (storageInfoObjects d) with
     | None => throw
     | Some storageIndex =>
         storageObject ← storage_at storageIndex;
         let fileObject :=
           List.find (fun o => match fileID o with Some f => f =? fileID_ | None => false end)
             (objectInfoObjects storageObject) in
         status ← deleteFile (Some (storage_as_file storageObject));
         mret JsUndefined
     end)
    (mret JsNull).

(** [MTPDevice.uploadFileInfo(undefined, ...)]: the reads are issued and the
    transaction id is taken before [storageObject.storageID] throws. *)
Definition uploadFileInfo_undefined : M value :=
  _ ← settle (receivePackets 2);
  new_Promise;;
  _ ← pre_incr_transactionID;
  throw.

(** [MTPDevice.uploadFile(x)] for an [x] that has no [length], as a storage
    record has none: the loop condition [i < undefined] is false from the
    start, as it is for an empty array, and the header built from the length
    is not sent in either case. *)
Definition uploadFile_without_length : M value := uploadFile [].

(** [uploadFile(MTPDevice, storageID, file, bytes, progressBar)] with
    [name] for [file.name].  The driver's [uploadFile] has one parameter and
    is called with four: the storage record lands in it. *)
Definition uploadFile (storageID_ : Z) (name bytes : list Z) : M js_void :=
  d ← get_device;
  r ← match find_index (fun s => storageID s =? storageID_) (storageInfoObjects d) with
      | None => uploadFileInfo_undefined
      | Some i =>
          storageObject ← storage_at i;
          uploadFileInfo storageObject name (Z.of_nat (length bytes))
      end;
  match r with
  | VBool _ => throw
  | _ =>
      status2 ← uploadFile_without_length;
      mret JsUndefined
  end.

End WebHub.
(** * Properties *)

(** ** Integer lemmas for the bitwise operators *)

Section JSArith.

Lemma ToInt32_range (x : Z) : -2147483648 <= JS.ToInt32 x < 2147483648.
Proof. unfold JS.ToInt32. pose proof (Z.mod_pos_bound (x + 2147483648) 4294967296). lia. Qed.

Lemma ToInt32_small (x : Z) : -2147483648 <= x < 2147483648 -> JS.ToInt32 x = x.
Proof. intros H. unfold JS.ToInt32. rewrite Z.mod_small; lia. Qed.

Lemma ToInt32_eqm (x : Z) : exists q, JS.ToInt32 x = x + q * 4294967296.
Proof.
  exists (- ((x + 2147483648) / 4294967296)). unfold JS.ToInt32.
  pose proof (Z.div_mod (x + 2147483648) 4294967296). lia.
Qed.

Lemma land_255 (a : Z) : Z.land a 255 = a mod 256.
Proof. change 255 with (Z.ones 8). rewrite Z.land_ones by lia. reflexivity. Qed.

(** [(x >> sh) & 0xff] for a shift by whole bytes inside the word. *)
Lemma band_sar_byte (x : Z) (k : Z) :
  0 <= k < 4 -> JS.band (JS.sar x (8 * k)) 255 = (x / 2 ^ (8 * k)) mod 256.
Proof.
  intros Hk. unfold JS.band, JS.sar.
  assert (Hs : Z.land (8 * k) 31 = 8 * k).
  { assert (k = 0 \/ k = 1 \/ k = 2 \/ k = 3) as [-> | [-> | [-> | ->]]] by lia; reflexivity. }
  rewrite Hs. rewrite (ToInt32_small 255) by lia.
  rewrite Z.shiftr_div_pow2 by lia.
  pose proof (ToInt32_range x) as Hr.
  assert (Hp : 0 < 2 ^ (8 * k)) by (apply Z.pow_pos_nonneg; lia).
  rewrite ToInt32_small.
  2:{ split.
      - apply Z.div_le_lower_bound; [lia|]. nia.
      - apply Z.div_lt_upper_bound; [lia|]. nia. }
  rewrite land_255.
  destruct (ToInt32_eqm x) as [q ->].
  replace 4294967296 with (2 ^ (32 - 8 * k) * 2 ^ (8 * k)).
  2:{ rewrite <- Z.pow_add_r by lia. replace (32 - 8 * k + 8 * k) with 32 by lia. reflexivity. }
  rewrite Z.mul_assoc, Z.div_add by lia.
  replace (2 ^ (32 - 8 * k)) with (2 ^ (24 - 8 * k) * 256).
  2:{ change 256 with (2 ^ 8). rewrite <- Z.pow_add_r by lia. f_equal. lia. }
  rewrite Z.mul_assoc, Z.mod_add by lia. reflexivity.
Qed.

Lemma band_byte0 (x : Z) : JS.band x 255 = x mod 256.
Proof.
  unfold JS.band. rewrite (ToInt32_small 255) by lia. rewrite land_255.
  destruct (ToInt32_eqm x) as [q ->].
  replace (q * 4294967296) with (q * 16777216 * 256) by lia.
  apply Z.mod_add. lia.
Qed.

Lemma store_byte0 (x : Z) : JS.ToUint8 (JS.band x 255) = x mod 256.
Proof. unfold JS.ToUint8. rewrite band_byte0. apply Z.mod_mod. lia. Qed.

Lemma ToUint8_mod (x : Z) : JS.ToUint8 (x mod 256) = x mod 256.
Proof. unfold JS.ToUint8. apply Z.mod_mod. lia. Qed.

Lemma store_sar0 (x : Z) : JS.ToUint8 (JS.band (JS.sar x 0) 255) = x mod 256.
Proof.
  unfold JS.ToUint8. pose proof (band_sar_byte x 0 ltac:(lia)) as H.
  change (8 * 0) with 0 in H. rewrite H.
  change (2 ^ 0) with 1. rewrite Z.div_1_r. apply Z.mod_mod. lia.
Qed.

Lemma store_sar8 (x : Z) : JS.ToUint8 (JS.band (JS.sar x 8) 255) = (x / 256) mod 256.
Proof.
  unfold JS.ToUint8. pose proof (band_sar_byte x 1 ltac:(lia)) as H.
  change (8 * 1) with 8 in H. rewrite H. apply Z.mod_mod. lia.
Qed.

Lemma store_sar16 (x : Z) : JS.ToUint8 (JS.band (JS.sar x 16) 255) = (x / 256 / 256) mod 256.
Proof.
  unfold JS.ToUint8. pose proof (band_sar_byte x 2 ltac:(lia)) as H.
  change (8 * 2) with 16 in H. rewrite H.
  rewrite Z.div_div by lia. rewrite Z.mod_mod by lia. reflexivity.
Qed.

Lemma store_sar24 (x : Z) :
  JS.ToUint8 (JS.band (JS.sar x 24) 255) = (x / 256 / 256 / 256) mod 256.
Proof.
  unfold JS.ToUint8. pose proof (band_sar_byte x 3 ltac:(lia)) as H.
  change (8 * 3) with 24 in H. rewrite H.
  rewrite !Z.div_div by lia. rewrite Z.mod_mod by lia. reflexivity.
Qed.

Lemma le_val_le_bytes (k : nat) (x : Z) :
  0 <= x < 256 ^ Z.of_nat k -> le_val (le_bytes k x) = x.
Proof.
  revert x. induction k as [|k IH]; intros x Hx.
  - simpl in *. lia.
  - cbn [le_bytes le_val]. rewrite IH.
    + pose proof (Z.div_mod x 256). lia.
    + rewrite Nat2Z.inj_succ, Z.pow_succ_r in Hx by lia.
      split; [apply Z.div_pos; lia | apply Z.div_lt_upper_bound; lia].
Qed.

Lemma length_le_bytes (k : nat) (x : Z) : length (le_bytes k x) = k.
Proof. revert x. induction k; intros; simpl; auto. Qed.

End JSArith.

(** ** The Command packet codec *)

(** The packet built by [setParams] and [pack], byte for byte. *)
Lemma command_packet_bytes (op tx : Z) (ps : list Z) :
  (length ps <= 5)%nat ->
  command_packet op tx ps
  = le_bytes 4 (12 + 4 * Z.of_nat (length ps)) ++ le_bytes 2 MTP_PACKET_TYPE_COMMAND
    ++ le_bytes 2 op ++ le_bytes 4 tx ++ concat (map (le_bytes 4) ps).
Proof.
  intros Hn.
  destruct ps as [|p1 [|p2 [|p3 [|p4 [|p5 [|p6 ps]]]]]]; [| | | | | | simpl in Hn; lia];
    cbv -[JS.band JS.sar JS.ToUint8 Z.modulo Z.div];
    rewrite ?store_sar0, ?store_sar8, ?store_sar16, ?store_sar24, ?store_byte0, ?ToUint8_mod;
    reflexivity.
Qed.

Lemma slice_app_at (l1 l2 l3 : list Z) (lo hi : Z) :
  Z.of_nat (length l1) = lo -> Z.of_nat (length l2) = hi - lo ->
  JS.slice (l1 ++ l2 ++ l3) lo hi = l2.
Proof.
  intros H1 H2. unfold JS.slice. subst lo.
  rewrite <- H2, !Nat2Z.id.
  rewrite drop_app_length. apply take_app_length.
Qed.

Lemma length_concat_le_bytes (k : nat) (ps : list Z) :
  length (concat (map (le_bytes k) ps)) = (k * length ps)%nat.
Proof.
  induction ps as [|p ps IH]; simpl; [lia|].
  rewrite length_app, length_le_bytes, IH. lia.
Qed.

Lemma bytesb_app (l1 l2 : list Z) : JS.bytesb (l1 ++ l2) = JS.bytesb l1 && JS.bytesb l2.
Proof. apply forallb_app. Qed.

Lemma bytesb_le_bytes (k : nat) (x : Z) : JS.bytesb (le_bytes k x) = true.
Proof.
  revert x. induction k as [|k IH]; intros x; [reflexivity|].
  cbn [le_bytes JS.bytesb forallb]. fold (JS.bytesb (le_bytes k (x / 256))). rewrite IH.
  pose proof (Z.mod_pos_bound x 256).
  destruct (Z.leb_spec 0 (x mod 256)), (Z.ltb_spec (x mod 256) 256); simpl; lia.
Qed.

Lemma bytesb_concat_le_bytes (k : nat) (ps : list Z) :
  JS.bytesb (concat (map (le_bytes k) ps)) = true.
Proof.
  induction ps as [|p ps IH]; [reflexivity|].
  simpl. rewrite bytesb_app, bytesb_le_bytes, IH. reflexivity.
Qed.

Lemma concat_le_bytes_split (ps : list Z) (i : nat) :
  (i < length ps)%nat ->
  concat (map (le_bytes 4) ps)
  = concat (map (le_bytes 4) (take i ps)) ++ le_bytes 4 (nth i ps 0)
    ++ concat (map (le_bytes 4) (drop (S i) ps)).
Proof.
  revert i. induction ps as [|p ps IH]; intros i Hi; simpl in Hi; [lia|].
  destruct i as [|i].
  - reflexivity.
  - cbn [take drop map concat nth]. rewrite (IH i) at 1 by lia.
    rewrite <- app_assoc. reflexivity.
Qed.

(** C1: for every operation code, transaction id and parameter list of at
    most five 32-bit parameters, the Command packet built by [setParams] and
    [pack] is [12 + 4 * n] bytes long; bytes 0..3 hold [12 + 4 * n], bytes
    4..5 hold container type 1, bytes 6..7 hold the operation code, bytes
    8..11 hold the transaction id and bytes [12 + 4 * i .. 16 + 4 * i] hold
    the [i]-th parameter, all little-endian. *)
Theorem command_packet_layout (op tx : Z) (ps : list Z) :
  (length ps <= 5)%nat ->
  0 <= op < 65536 ->
  0 <= tx < 4294967296 ->
  Forall (fun p => 0 <= p < 4294967296) ps ->
  let pkt := command_packet op tx ps in
  let n := Z.of_nat (length ps) in
  Z.of_nat (length pkt) = 12 + 4 * n
  /\ JS.bytesb pkt = true
  /\ le_val (JS.slice pkt 0 4) = 12 + 4 * n
  /\ le_val (JS.slice pkt 4 6) = 1
  /\ le_val (JS.slice pkt 6 8) = op
  /\ le_val (JS.slice pkt 8 12) = tx
  /\ (forall i, (i < length ps)%nat ->
        le_val (JS.slice pkt (12 + 4 * Z.of_nat i) (16 + 4 * Z.of_nat i)) = nth i ps 0).
Proof.
  intros Hn Hop Htx Hps pkt n. subst pkt n.
  rewrite command_packet_bytes by exact Hn.
  set (A := le_bytes 4 (12 + 4 * Z.of_nat (length ps))).
  set (B := le_bytes 2 MTP_PACKET_TYPE_COMMAND).
  set (C := le_bytes 2 op).
  set (D := le_bytes 4 tx).
  set (E := concat (map (le_bytes 4) ps)).
  assert (HA : length A = 4%nat) by apply length_le_bytes.
  assert (HB : length B = 2%nat) by apply length_le_bytes.
  assert (HC : length C = 2%nat) by apply length_le_bytes.
  assert (HD : length D = 4%nat) by apply length_le_bytes.
  assert (HE : length E = (4 * length ps)%nat) by apply length_concat_le_bytes.
  split; [|split; [|split; [|split; [|split; [|split]]]]].
  - rewrite !length_app, HA, HB, HC, HD, HE. lia.
  - rewrite !bytesb_app. subst A B C D E.
    rewrite !bytesb_le_bytes, bytesb_concat_le_bytes. reflexivity.
  - replace (A ++ B ++ C ++ D ++ E) with ([] ++ A ++ (B ++ C ++ D ++ E)) by reflexivity.
    rewrite (slice_app_at [] A) by (simpl; lia).
    subst A. apply le_val_le_bytes. simpl. lia.
  - replace (A ++ B ++ C ++ D ++ E) with (A ++ B ++ (C ++ D ++ E)) by reflexivity.
    rewrite (slice_app_at A B) by lia. reflexivity.
  - replace (A ++ B ++ C ++ D ++ E) with ((A ++ B) ++ C ++ (D ++ E))
      by (rewrite <- !app_assoc; reflexivity).
    rewrite (slice_app_at (A ++ B) C) by (rewrite ?length_app; lia).
    subst C. apply le_val_le_bytes. simpl. lia.
  - replace (A ++ B ++ C ++ D ++ E) with ((A ++ B ++ C) ++ D ++ E)
      by (rewrite <- !app_assoc; reflexivity).
    rewrite (slice_app_at (A ++ B ++ C) D) by (rewrite ?length_app; lia).
    subst D. apply le_val_le_bytes. simpl. lia.
  - intros i Hi. subst E. rewrite (concat_le_bytes_split ps i Hi).
    set (E1 := concat (map (le_bytes 4) (take i ps))).
    set (P := le_bytes 4 (nth i ps 0)).
    set (E2 := concat (map (le_bytes 4) (drop (S i) ps))).
    assert (HE1 : length E1 = (4 * i)%nat).
    { subst E1. rewrite length_concat_le_bytes, length_take. lia. }
    assert (HP : length P = 4%nat) by apply length_le_bytes.
    replace (A ++ B ++ C ++ D ++ E1 ++ P ++ E2) with ((A ++ B ++ C ++ D ++ E1) ++ P ++ E2)
      by (rewrite <- !app_assoc; reflexivity).
    rewrite (slice_app_at (A ++ B ++ C ++ D ++ E1) P) by (rewrite ?length_app; lia).
    subst P. apply le_val_le_bytes.
    rewrite Forall_forall in Hps. apply (Hps (nth i ps 0)).
    apply list_elem_of_In, nth_In. exact Hi.
Qed.

Lemma command_packet_layout_witness :
  le_val (JS.slice (command_packet MTP_DELETE_OBJECT 9 [2; 0]) 6 8) = MTP_DELETE_OBJECT.
Proof.
  apply (command_packet_layout MTP_DELETE_OBJECT 9 [2; 0]).
  - simpl. lia.
  - unfold MTP_DELETE_OBJECT. lia.
  - lia.
  - repeat constructor; lia.
Defined.

(** ** OpenSession *)

Lemma writes_app (l1 l2 : list event) : writes (l1 ++ l2) = writes l1 ++ writes l2.
Proof. apply omap_app. Qed.

Ltac run_op :=
  cbv [mbind M_bind mret M_ret settle await catch_ throw hang new_Promise modify
       get_device return_promise resolve log_event transferIn transferOut sendPacket
       getPacket receivePackets receivePackets_issue promise_all pre_incr_transactionID
       set_sessionOpen with_log with_promise with_device next_in next_out
       log promise device bulk_in bulk_out in_pos out_pos lenaDevice
       sessionOpen sessionID transactionID storageInfoObjects fst snd].

(** Whatever the device answers, [openSession] writes exactly one packet:
    the Command for operation 0x1002 with the current transaction id and
    the session id as its only parameter. *)
Lemma openSession_writes_command (w : world) :
  writes (log (snd (openSession w)))
  = writes (log w)
    ++ [command_packet MTP_OPEN_SESSION (transactionID (device w)) [sessionID (device w)]].
Proof.
  destruct w as [[so sid sl tx] ld bi ip bo op lg pr].
  unfold openSession, openSession_then. run_op.
  destruct (bi ip) as [data| |]; run_op; destruct (bo op); run_op;
    try destruct ((packet_code data =? MTP_OK) || (packet_code data =? SESSION_ALREADY_OPEN));
    run_op; rewrite !writes_app, <- ?app_assoc; reflexivity.
Qed.

(** C6 (as amended): when [openSession] issues its Command with session id 1
    and transaction id 0, the bytes written to the OUT endpoint are
    10 00 00 00 | 01 00 | 02 10 | 00 00 00 00 | 01 00 00 00: the length
    field counts the one parameter. *)
Theorem openSession_command_on_wire (w : world) :
  transactionID (device w) = 0 ->
  sessionID (device w) = 1 ->
  writes (log (snd (openSession w)))
  = writes (log w) ++ [[0x10; 0; 0; 0; 1; 0; 2; 0x10; 0; 0; 0; 0; 1; 0; 0; 0]].
Proof.
  intros Htx Hsid. rewrite openSession_writes_command, Htx, Hsid. reflexivity.
Qed.

Lemma openSession_command_on_wire_witness :
  writes (log (snd (openSession (fresh_world None (script [] XferPending) all_ok))))
  = [[0x10; 0; 0; 0; 1; 0; 2; 0x10; 0; 0; 0; 0; 1; 0; 0; 0]].
Proof.
  apply (openSession_command_on_wire (fresh_world None (script [] XferPending) all_ok));
    reflexivity.
Defined.

(** C6 as stated fails: on a newly constructed device (transaction id 0,
    session id 1) the packet written is not
    0C 00 00 00 | 01 00 | 02 10 | 00 00 00 00 | 01 00 00 00. *)
Lemma openSession_command_not_0C :
  transactionID (device (fresh_world None (script [] XferPending) all_ok)) = 0
  /\ sessionID (device (fresh_world None (script [] XferPending) all_ok)) = 1
  /\ writes (log (snd (openSession (fresh_world None (script [] XferPending) all_ok))))
     <> [[0x0C; 0; 0; 0; 1; 0; 2; 0x10; 0; 0; 0; 0; 1; 0; 0; 0]].
Proof. split; [reflexivity|]. split; [reflexivity|]. vm_compute. discriminate. Qed.

(** ** Reading multi-byte fields *)

Lemma lor_shifted (a c k : Z) :
  0 <= k -> 0 <= a < 2 ^ k -> Z.lor a (c * 2 ^ k) = a + c * 2 ^ k.
Proof.
  intros Hk Ha. symmetry. apply Z.add_nocarry_lor.
  apply Z.bits_inj'. intros n Hn.
  rewrite Z.land_spec, Z.bits_0.
  destruct (Z.lt_ge_cases n k) as [Hlt | Hge].
  - rewrite Z.mul_pow2_bits_low by lia. apply andb_false_r.
  - assert (Z.testbit a n = false) as ->; [|reflexivity].
    apply Z.testbit_false; [lia|].
    rewrite Z.div_small; [reflexivity|].
    split; [lia|]. apply Z.lt_le_trans with (2 ^ k); [lia|].
    apply Z.pow_le_mono_r; lia.
Qed.

Lemma shl_byte (b k : Z) :
  0 <= b < 256 -> 0 <= k < 32 -> JS.shl b k = JS.ToInt32 (b * 2 ^ k).
Proof.
  intros Hb Hk. unfold JS.shl.
  rewrite (ToInt32_small b) by lia.
  assert (Z.land k 31 = k) as ->.
  { change 31 with (Z.ones 5). rewrite Z.land_ones by lia. apply Z.mod_small.
    change (2 ^ 5) with 32. lia. }
  rewrite Z.shiftl_mul_pow2 by lia. reflexivity.
Qed.

(** [b0 | (b1 << 8) | (b2 << 16) | (b3 << 24)] is the signed 32-bit reading
    of four bytes. *)
Lemma read32_bytes (b0 b1 b2 b3 : Z) :
  0 <= b0 < 256 -> 0 <= b1 < 256 -> 0 <= b2 < 256 -> 0 <= b3 < 256 ->
  JS.bor (JS.bor (JS.bor b0 (JS.shl b1 8)) (JS.shl b2 16)) (JS.shl b3 24)
  = JS.ToInt32 (b0 + 256 * b1 + 65536 * b2 + 16777216 * b3).
Proof.
  intros H0 H1 H2 H3.
  rewrite !shl_byte by lia.
  change (2 ^ 8) with 256. change (2 ^ 16) with 65536. change (2 ^ 24) with 16777216.
  rewrite (ToInt32_small (b1 * 256)) by lia.
  rewrite (ToInt32_small (b2 * 65536)) by lia.
  assert (E1 : JS.bor b0 (b1 * 256) = b0 + b1 * 256).
  { unfold JS.bor. rewrite !ToInt32_small by lia.
    apply (lor_shifted b0 b1 8); lia. }
  rewrite E1.
  assert (E2 : JS.bor (b0 + b1 * 256) (b2 * 65536) = b0 + b1 * 256 + b2 * 65536).
  { unfold JS.bor. rewrite !ToInt32_small by lia.
    apply (lor_shifted (b0 + b1 * 256) b2 16); lia. }
  rewrite E2.
  set (lo := b0 + b1 * 256 + b2 * 65536).
  assert (Hlo : 0 <= lo < 16777216) by (subst lo; lia).
  unfold JS.bor. rewrite (ToInt32_small lo) by lia.
  rewrite (ToInt32_small (JS.ToInt32 _)) by apply ToInt32_range.
  destruct (Z_lt_dec b3 128) as [Hs | Hs].
  - rewrite (ToInt32_small (b3 * 16777216)) by lia.
    pose proof (lor_shifted lo b3 24 ltac:(lia) ltac:(change (2 ^ 24) with 16777216; lia)) as HL.
    change (2 ^ 24) with 16777216 in HL. rewrite HL.
    rewrite ToInt32_small by lia. subst lo. lia.
  - assert (Hneg : JS.ToInt32 (b3 * 16777216) = (b3 - 256) * 16777216).
    { unfold JS.ToInt32.
      replace (b3 * 16777216 + 2147483648)
        with ((b3 * 16777216 - 2147483648) + 1 * 4294967296) by lia.
      rewrite Z.mod_add by lia. rewrite Z.mod_small by lia. lia. }
    pose proof (lor_shifted lo (b3 - 256) 24 ltac:(lia)
                  ltac:(change (2 ^ 24) with 16777216; lia)) as HL.
    change (2 ^ 24) with 16777216 in HL. rewrite Hneg, HL.
    unfold JS.ToInt32.
    replace (b0 + 256 * b1 + 65536 * b2 + 16777216 * b3 + 2147483648)
      with ((lo + (b3 - 256) * 16777216 + 2147483648) + 1 * 4294967296) by (subst lo; lia).
    rewrite Z.mod_add by lia. rewrite Z.mod_small by lia. lia.
Qed.

Lemma rd_app_at (pre l post : list Z) (o : Z) (j : nat) :
  Z.of_nat (length pre) = o -> (j < length l)%nat ->
  JS.rd (pre ++ l ++ post) (o + Z.of_nat j) = nth j l 0.
Proof.
  intros Ho Hj. unfold JS.rd, JS.u8_load. subst o.
  destruct (Z.ltb_spec (Z.of_nat (length pre) + Z.of_nat j) 0) as [Hneg|_]; [lia|].
  rewrite <- Nat2Z.inj_add, Nat2Z.id.
  rewrite lookup_app_r by lia.
  replace (length pre + j - length pre)%nat with j by lia.
  rewrite lookup_app_l by lia.
  rewrite <- nth_lookup with (d := 0). reflexivity.
Qed.

Lemma ToInt32_mod (x : Z) : JS.ToInt32 (x mod 4294967296) = JS.ToInt32 x.
Proof.
  unfold JS.ToInt32. f_equal.
  rewrite Zplus_mod_idemp_l. reflexivity.
Qed.

Lemma le_val_le_bytes4_mod (x : Z) : le_val (le_bytes 4 x) = x mod 4294967296.
Proof.
  cbn [le_bytes le_val].
  pose proof (Z.div_mod x 256 ltac:(lia)).
  pose proof (Z.div_mod (x / 256) 256 ltac:(lia)).
  pose proof (Z.div_mod (x / 256 / 256) 256 ltac:(lia)).
  pose proof (Z.div_mod (x / 256 / 256 / 256) 256 ltac:(lia)).
  pose proof (Z.mod_pos_bound x 256 ltac:(lia)).
  pose proof (Z.mod_pos_bound (x / 256) 256 ltac:(lia)).
  pose proof (Z.mod_pos_bound (x / 256 / 256) 256 ltac:(lia)).
  pose proof (Z.mod_pos_bound (x / 256 / 256 / 256) 256 ltac:(lia)).
  apply Z.mod_unique_pos with (q := x / 256 / 256 / 256 / 256); lia.
Qed.

(** A 32-bit field written little-endian is read back as its signed image. *)
Lemma read32_le_bytes (pre post : list Z) (x o : Z) :
  Z.of_nat (length pre) = o ->
  read32 (pre ++ le_bytes 4 x ++ post) o = JS.ToInt32 x.
Proof.
  intros Ho. unfold read32.
  replace o with (o + Z.of_nat 0) at 1 by lia.
  change (o + 1) with (o + Z.of_nat 1).
  change (o + 2) with (o + Z.of_nat 2).
  change (o + 3) with (o + Z.of_nat 3).
  rewrite !(rd_app_at pre (le_bytes 4 x) post o) by (rewrite ?length_le_bytes; lia).
  cbn [le_bytes nth].
  pose proof (Z.mod_pos_bound x 256 ltac:(lia)).
  pose proof (Z.mod_pos_bound (x / 256) 256 ltac:(lia)).
  pose proof (Z.mod_pos_bound (x / 256 / 256) 256 ltac:(lia)).
  pose proof (Z.mod_pos_bound (x / 256 / 256 / 256) 256 ltac:(lia)).
  rewrite read32_bytes by lia.
  rewrite <- (ToInt32_mod x), <- le_val_le_bytes4_mod.
  cbn [le_bytes le_val]. f_equal. lia.
Qed.

(** ** GetStorageIDs *)

Lemma set_storageInfoObjects_twice (l l' : list storageInfoDataset) (w : world) :
  set_storageInfoObjects l (set_storageInfoObjects l' w) = set_storageInfoObjects l w.
Proof. reflexivity. Qed.



Lemma for_loop_negative {S : Type} (lo hi : Z) (body : Z -> S -> S) (s : S) :
  hi <= lo -> JS.for_loop lo hi body s = s.
Proof.
  intros H. unfold JS.for_loop.
  replace (Z.to_nat (hi - lo)) with 0%nat by lia. reflexivity.
Qed.

Lemma map_seq_nth {A B : Type} (h : A -> B) (d : A) (l : list A) :
  map (fun k => h (nth k l d)) (seq 0 (length l)) = map h l.
Proof.
  induction l as [|x l IH]; [reflexivity|].
  cbn [length seq map nth]. f_equal.
  rewrite <- seq_shift, map_map. exact IH.
Qed.

Lemma rd_app_l (l1 l2 : list Z) (i : Z) :
  0 <= i < Z.of_nat (length l1) -> JS.rd (l1 ++ l2) i = JS.rd l1 i.
Proof.
  intros Hi. unfold JS.rd, JS.u8_load.
  destruct (Z.ltb_spec i 0); [lia|].
  rewrite lookup_app_l by lia. reflexivity.
Qed.

Lemma packet_code_app (hdr rest : list Z) :
  (8 <= length hdr)%nat -> packet_code (hdr ++ rest) = packet_code hdr.
Proof.
  intros H. unfold packet_code, read16.
  rewrite !rd_app_l by lia. reflexivity.
Qed.






(** X29: what [getStorageIDS] does when the exchange does not end in response
    code 0x2001 -- the code differs, or a packet is not received: the storage
    list is left exactly as it was, since it is cleared and rebuilt only
    after the OK check has passed.  The call resolves false when both
    packets arrived with another code and the Command was written; it
    rejects when the write is rejected, and otherwise it never resolves. *)
Theorem getStorageIDS_failure_keeps_storage_list (w : world) :
  getStorageIDS_response_code w <> Some MTP_OK ->
  storageInfoObjects (device (snd (getStorageIDS w))) = storageInfoObjects (device w)
  /\ fst (getStorageIDS w)
     = match bulk_out w (out_pos w), getStorageIDS_response_code w with
       | OutError, _ => Throw
       | OutPending, _ => Hang
       | OutOk, Some _ => Ok (VBool false)
       | OutOk, None => Hang
       end.
Proof.
  intros H. destruct w as [[so sid sl tx] ld bi ip bo op lg pr].
  unfold getStorageIDS_response_code in *.
  cbn [bulk_in in_pos bulk_out out_pos device storageInfoObjects] in *.
  unfold getStorageIDS. run_op.
  destruct (bi ip) as [p0| |]; destruct (bi (S ip)) as [p1| |]; run_op;
    destruct (bo op); run_op; try (split; reflexivity);
    unfold getStorageIDS_then; cbn [nth];
    destruct (packet_code p0 =? MTP_GET_STORAGE_IDS);
    match goal with
    | |- context [packet_code ?p =? MTP_OK] =>
        destruct (Z.eqb_spec (packet_code p) MTP_OK) as [E | E];
          [exfalso; apply H; f_equal; exact E | run_op; split; reflexivity]
    end.
Qed.

Lemma getStorageIDS_failure_keeps_storage_list_witness :
  fst (getStorageIDS
         (world_of example_device None
            (script [XferData example_ids_data; XferData (response_packet 0x2002 9)] XferPending)
            all_ok))
  = Ok (VBool false).
Proof.
  apply (getStorageIDS_failure_keeps_storage_list
           (world_of example_device None
              (script [XferData example_ids_data; XferData (response_packet 0x2002 9)] XferPending)
              all_ok)).
  vm_compute. discriminate.
Defined.

(** C10: the code misses the claim when a bulk-IN transfer fails.
    [getStorageIDS] attaches [.catch(() => resolve(false))] to its reads,
    but [getPacket] makes its promise without a rejection path: the failed
    transfer never reaches that handler, and the call stays pending where
    the claim says it resolves false.  The storage list is left as it was,
    as the claim says.  [openSession] and [closeSession], which read the
    endpoint themselves, resolve false on the same failed read. *)
Theorem getStorageIDS_transfer_error_does_not_resolve :
  let w := fresh_world None (script [XferError] XferPending) all_ok in
  bulk_in w (in_pos w) = XferError
  /\ fst (getStorageIDS w) = Hang
  /\ fst (getStorageIDS w) <> Ok (VBool false)
  /\ storageInfoObjects (device (snd (getStorageIDS w))) = storageInfoObjects (device w)
  /\ fst (openSession w) = Ok (VBool false)
  /\ fst (closeSession w) = Ok (VBool false).
Proof. vm_compute. repeat split; discriminate. Qed.

(** ** DeleteObject *)

(** [deleteFile] never writes to the storage list, whatever happens. *)
Lemma deleteFile_storage_list_unchanged (fileObject : ObjectInfoDataset) (w : world) :
  storageInfoObjects (device (snd (deleteFile (Some fileObject) w))) = storageInfoObjects (device w).
Proof.
  destruct w as [[so sid sl tx] ld bi ip bo op lg pr].
  unfold deleteFile, defined. run_op.
  destruct (bi ip) as [p0| |]; run_op; destruct (bo op); run_op; try reflexivity;
    unfold deleteFile_then; cbn [nth]; destruct (packet_code p0 =? MTP_OK); run_op; reflexivity.
Qed.

(** C8 (as amended): for every DeleteObject call that succeeds (response
    code 0x2001), [deleteFile] resolves true and leaves the local storage
    list, object lists included, exactly as it was. *)
Theorem deleteFile_success_keeps_object_lists
    (fileObject : ObjectInfoDataset) (w : world) (resp : list Z) :
  bulk_in w (in_pos w) = XferData resp ->
  packet_code resp = MTP_OK ->
  bulk_out w (out_pos w) = OutOk ->
  fst (deleteFile (Some fileObject) w) = Ok (VBool true)
  /\ storageInfoObjects (device (snd (deleteFile (Some fileObject) w))) = storageInfoObjects (device w).
Proof.
  intros Hin Hc Hout. split; [|apply deleteFile_storage_list_unchanged].
  destruct w as [[so sid sl tx] ld bi ip bo op lg pr].
  cbn [bulk_in in_pos bulk_out out_pos] in Hin, Hout.
  unfold deleteFile, defined. run_op. rewrite Hin. run_op. rewrite Hout. run_op.
  unfold deleteFile_then. cbn [nth]. rewrite Hc. reflexivity.
Qed.

Lemma deleteFile_success_keeps_object_lists_witness :
  fst (deleteFile (Some example_command_file)
         (world_of example_device None (script [XferData (response_packet MTP_OK 9)] XferPending)
            all_ok))
  = Ok (VBool true).
Proof.
  apply (deleteFile_success_keeps_object_lists example_command_file
           (world_of example_device None
              (script [XferData (response_packet MTP_OK 9)] XferPending) all_ok)
           (response_packet MTP_OK 9)); reflexivity.
Defined.

(** C8 as stated fails: after a DeleteObject for object 2 that the device
    answers with 0x2001 the call resolves true, and the object is still in
    the object list of its storage. *)
Lemma deleteFile_object_still_listed :
  let w := world_of example_device None
             (script [XferData (response_packet MTP_OK 9)] XferPending) all_ok in
  let w' := snd (deleteFile (Some example_command_file) w) in
  writes (log w') = [[0x14; 0; 0; 0; 1; 0; 0x0b; 0x10; 9; 0; 0; 0; 2; 0; 0; 0; 0; 0; 0; 0]]
  /\ fst (deleteFile (Some example_command_file) w) = Ok (VBool true)
  /\ In example_command_file (concat (map objectInfoObjects (storageInfoObjects (device w')))).
Proof. vm_compute. split; [reflexivity|]. split; [reflexivity|]. left. reflexivity. Qed.

(** ** StorageInfo *)

(** C3, where the code departs from it: on the StorageInfo of an 8 GiB
    storage with 6 GiB free, bytes 18..26 hold 8589934592 and bytes 26..34
    hold 6442450944, but [initDatasetFromMTPContainer] records 2 and
    -2147483647: every shift count is taken modulo 32, so the upper four
    bytes of each field are or-ed onto the lower four. *)
Lemma initDataset_loses_upper_bytes :
  let s := initDatasetFromMTPContainer example_storage_info (new_storageInfoDataset 0x00010001) in
  JS.bytesb example_storage_info = true
  /\ le_val (JS.slice example_storage_info 18 26) = 8589934592
  /\ le_val (JS.slice example_storage_info 26 34) = 6442450944
  /\ storageSize s = 2
  /\ freeSpace s = -2147483647
  /\ usedSpace s = 2147483649.
Proof. vm_compute. repeat split; reflexivity. Qed.


Lemma rd_byte (buf : list Z) (i : Z) : JS.bytesb buf = true -> 0 <= JS.rd buf i < 256.
Proof.
  intros Hb. unfold JS.rd, JS.u8_load.
  destruct (i <? 0); [simpl; lia|].
  destruct (buf !! Z.to_nat i) as [b|] eqn:E; [|simpl; lia].
  simpl. unfold JS.bytesb in Hb. rewrite forallb_forall in Hb.
  specialize (Hb b (proj1 (list_elem_of_In _ _) (list_elem_of_lookup_2 _ _ _ E))). lia.
Qed.




(** ** SendObjectInfo *)

Lemma sar_byte_high (b k : Z) : 0 <= b < 256 -> 8 <= k < 32 -> JS.sar b k = 0.
Proof.
  intros Hb Hk. unfold JS.sar. rewrite ToInt32_small by lia.
  assert (Z.land k 31 = k) as ->.
  { change 31 with (Z.ones 5). rewrite Z.land_ones by lia. apply Z.mod_small.
    change (2 ^ 5) with 32. lia. }
  rewrite Z.shiftr_div_pow2 by lia. apply Z.div_small. split; [lia|].
  apply Z.lt_le_trans with (2 ^ 8); [simpl; lia|]. apply Z.pow_le_mono_r; lia.
Qed.


(** The loop of the handler keeps byte 20 only: the other three bytes are
    shifted right, out of the byte. *)
Lemma uploadFileInfo_handle_loop (buf : list Z) :
  JS.bytesb buf = true ->
  JS.for_loop 20 24
    (fun i acc => JS.bor acc (JS.band (JS.sar (JS.rd buf i) ((i - 20) * 8)) 0xff)) 0
  = JS.rd buf 20.
Proof.
  intros Hb. cbv [JS.for_loop fold_left seq Z.to_nat Z.sub Z.add Z.opp Z.pos_sub Pos.to_nat
                  Pos.iter_op Init.Nat.add Z.of_nat Pos.of_succ_nat Pos.succ Z.mul Pos.mul
                  Pos.add Pos.pred_double Z.double Z.succ_double Z.pred_double Pos.double_mask
                  Pos.sub_mask Pos.succ_double_mask Pos.double_pred_mask].
  pose proof (rd_byte buf 20 Hb). pose proof (rd_byte buf 21 Hb).
  pose proof (rd_byte buf 22 Hb). pose proof (rd_byte buf 23 Hb).
  rewrite (sar_byte_high (JS.rd buf 21) 8), (sar_byte_high (JS.rd buf 22) 16),
    (sar_byte_high (JS.rd buf 23) 24) by lia.
  pose proof (band_sar_byte (JS.rd buf 20) 0 ltac:(lia)) as H20.
  change (8 * 0) with 0 in H20. rewrite H20.
  change (2 ^ 0) with 1. rewrite Z.div_1_r, Z.mod_small by lia.
  change (JS.band 0 255) with 0.
  assert (Hl : JS.bor 0 (JS.rd buf 20) = JS.rd buf 20).
  { unfold JS.bor. rewrite (ToInt32_small (JS.rd buf 20)) by lia. apply Z.lor_0_l. }
  assert (Hr : JS.bor (JS.rd buf 20) 0 = JS.rd buf 20).
  { unfold JS.bor. rewrite (ToInt32_small (JS.rd buf 20)) by lia. apply Z.lor_0_r. }
  rewrite Hl, !Hr. reflexivity.
Qed.

(** On every exchange whose checked response code is 0x2001,
    [uploadFileInfo] returns byte 20 of the packet it did not check. *)
Lemma uploadFileInfo_then_handle (p0 p1 : list Z) (w : world) :
  JS.bytesb p0 = true -> JS.bytesb p1 = true ->
  packet_code (snd (uploadFileInfo_buffers p0 p1)) = MTP_OK ->
  uploadFileInfo_then [p0; p1] w
  = resolve (VStatusNum true (JS.rd (fst (uploadFileInfo_buffers p0 p1)) 20)) w.
Proof.
  intros H0 H1 Hc. unfold uploadFileInfo_then, uploadFileInfo_buffers in *. cbn [nth].
  destruct (packet_code p0 =? SEND_OBJECT_INFO); cbn [fst snd] in *;
    rewrite Hc; change (MTP_OK =? MTP_OK) with true; cbv iota;
    rewrite uploadFileInfo_handle_loop by assumption; reflexivity.
Qed.

(** C4, where the code departs from it: the device answers SendObjectInfo
    with response code 0x2001 and the new handle 0x00000102 in bytes 20..24
    of the Response packet, and the next packet read is a 12-byte Response.
    [uploadFileInfo] resolves with handle 0.  Even when the second packet
    repeats the first, the handle returned is 2, its low byte. *)
Lemma uploadFileInfo_loses_handle :
  let resp := sendObjectInfo_response 10 0x00000102 in
  let storage := new_storageInfoDataset 0x00010001 in
  let name := [99; 111; 109; 109; 97; 110; 100; 46; 116; 120; 116] in
  let w := world_of example_device None
             (script [XferData resp; XferData (response_packet MTP_OK 11)] XferPending) all_ok in
  let w2 := world_of example_device None
              (script [XferData resp; XferData resp] XferPending) all_ok in
  packet_code resp = MTP_OK
  /\ le_val (JS.slice resp 20 24) = 0x00000102
  /\ fst (uploadFileInfo storage name 43 w) = Ok (VStatusNum true 0)
  /\ fst (uploadFileInfo storage name 43 w2) = Ok (VStatusNum true 2).
Proof. vm_compute. repeat split; reflexivity. Qed.

(** ** SendObject: the writes of the Data phase *)

Section Emits.

Variable Q : event -> Prop.

Lemma emits_ret {A} (a : A) : emits Q (mret a).
Proof. intros w. exists []. split; [symmetry; apply app_nil_r | constructor]. Qed.

Lemma emits_bind {A B} (m : M A) (f : A -> M B) :
  emits Q m -> (forall a, emits Q (f a)) -> emits Q (m ≫= f).
Proof.
  intros Hm Hf w. unfold mbind, M_bind.
  destruct (Hm w) as [e1 [H1 Q1]].
  destruct (m w) as [[a| |] w1]; cbn [snd] in *; try (exists e1; split; assumption).
  destruct (Hf a w1) as [e2 [H2 Q2]].
  exists (e1 ++ e2). split.
  - rewrite H2, H1, app_assoc. reflexivity.
  - apply Forall_app. split; assumption.
Qed.

Lemma emits_settle {A} (m : M A) : emits Q m -> emits Q (settle m).
Proof.
  intros Hm w. unfold settle. destruct (Hm w) as [e [H HQ]].
  destruct (m w) as [r w1]. exists e. split; assumption.
Qed.

Lemma emits_catch {A} (m h : M A) : emits Q m -> emits Q h -> emits Q (catch_ m h).
Proof.
  intros Hm Hh w. unfold catch_.
  destruct (Hm w) as [e1 [H1 Q1]].
  destruct (m w) as [[a| |] w1]; cbn [snd] in *; try (exists e1; split; assumption).
  destruct (Hh w1) as [e2 [H2 Q2]].
  exists (e1 ++ e2). split.
  - rewrite H2, H1, app_assoc. reflexivity.
  - apply Forall_app. split; assumption.
Qed.

Lemma emits_silent {A} (m : M A) : (forall w, log (snd (m w)) = log w) -> emits Q m.
Proof.
  intros H w. exists []. split; [rewrite H; symmetry; apply app_nil_r | constructor].
Qed.

Lemma emits_await {A} (r : result A) : emits Q (await r).
Proof. apply emits_silent. reflexivity. Qed.

Lemma emits_throw {A} : emits Q (@throw A).
Proof. apply emits_silent. reflexivity. Qed.

Lemma emits_new_Promise : emits Q new_Promise.
Proof. apply emits_silent. reflexivity. Qed.

Lemma emits_return_promise : emits Q return_promise.
Proof. apply emits_silent. intros w. unfold return_promise. destruct (promise w); reflexivity. Qed.

Lemma emits_pre_incr : emits Q pre_incr_transactionID.
Proof. apply emits_silent. reflexivity. Qed.

Lemma emits_transferIn (site : in_site) : Q (EvTransferIn site) -> emits Q (transferIn site).
Proof.
  intros HQ w. exists [EvTransferIn site]. split; [|repeat constructor; exact HQ].
  unfold transferIn. destruct (bulk_in w (in_pos w)); reflexivity.
Qed.

Lemma emits_sendPacket (p : list Z) : Q (EvTransferOut p) -> emits Q (sendPacket p).
Proof.
  intros HQ w. exists [EvTransferOut p]. split; [|repeat constructor; exact HQ].
  unfold sendPacket, transferOut. destruct (bulk_out w (out_pos w)); reflexivity.
Qed.

Lemma emits_resolve (v : value) : Q (EvResolve v) -> emits Q (resolve v).
Proof.
  intros HQ w. exists [EvResolve v]. split; [|repeat constructor; exact HQ].
  unfold resolve. cbn. destruct (promise w); reflexivity.
Qed.

Hypothesis Q_in : forall site, Q (EvTransferIn site).

Lemma emits_getPacket : emits Q getPacket.
Proof.
  unfold getPacket. apply emits_bind.
  - apply emits_settle, emits_transferIn, Q_in.
  - intros [d| |]; [apply emits_ret | apply emits_silent; reflexivity ..].
Qed.

Lemma emits_receivePackets (n : nat) : emits Q (receivePackets n).
Proof.
  unfold receivePackets. apply emits_bind; [|intros; apply emits_await].
  induction n as [|n IH]; cbn [receivePackets_issue].
  - apply emits_ret.
  - apply emits_bind; [apply emits_settle, emits_getPacket|].
    intros r. apply emits_bind; [exact IH|]. intros rs. apply emits_ret.
Qed.

End Emits.

Lemma slice_nonempty (l : list Z) (lo hi : Z) :
  0 <= lo < hi -> hi <= Z.of_nat (length l) -> JS.slice l lo hi <> [].
Proof.
  intros H1 H2 E. apply (f_equal (@length Z)) in E.
  unfold JS.slice in E. rewrite length_take, length_drop in E. simpl in E. lia.
Qed.

(** The loop never writes an empty packet. *)
Lemma uploadFile_loop_emits (fileBytes container : list Z) (i : Z) :
  0 <= i -> emits not_zero_length_write (uploadFile_loop fileBytes container i).
Proof.
  remember (Z.to_nat (Z.of_nat (length fileBytes) - i)) as m eqn:Hm.
  revert i Hm. induction m as [m IH] using lt_wf_ind. intros i Hm Hi.
  rewrite uploadFile_loop_equation_1.
  destruct (Z_lt_dec i (Z.of_nat (length fileBytes))) as [Hlt | Hge];
    cbn [uploadFile_loop_unfold_clause_1]; [|apply emits_ret].
  cbv zeta.
  match goal with
  | |- context [JS.slice fileBytes i ?e] => set (end_ := e)
  end.
  assert (Hend : i < end_ <= Z.of_nat (length fileBytes)).
  { subst end_. unfold MTP_PACKET_MAX_SIZE.
    destruct (Z.ltb_spec (Z.of_nat (length fileBytes)) (i + 512));
      [| destruct (Z.eqb_spec i 0)]; lia. }
  pose proof (slice_nonempty fileBytes i end_ ltac:(lia) ltac:(lia)) as Hs.
  clearbody end_.
  apply emits_bind.
  - destruct (i =? 0); apply emits_sendPacket; intros E; injection E as E.
    + apply (f_equal (@length Z)) in E. rewrite length_map, length_app in E.
      destruct (JS.slice fileBytes i end_); [contradiction | simpl in E; lia].
    + contradiction.
  - intros _. apply (IH (Z.to_nat (Z.of_nat (length fileBytes) - end_))); lia.
Qed.

(** C5 (as amended): for every [fileBytes], also when [12 + |fileBytes|] is
    an exact multiple of 512, [uploadFile] issues no zero-length bulk OUT
    write: all it adds to the log are reads, calls of [resolve] and writes
    of non-empty packets. *)
Theorem uploadFile_no_zero_length_write (fileBytes : list Z) :
  emits not_zero_length_write (uploadFile fileBytes).
Proof.
  assert (Qin : forall site, not_zero_length_write (EvTransferIn site)) by (intros; discriminate).
  assert (Qres : forall v, not_zero_length_write (EvResolve v)) by (intros; discriminate).
  unfold uploadFile.
  apply emits_bind; [apply emits_settle, emits_receivePackets, Qin|]. intros result.
  apply emits_bind; [apply emits_new_Promise|]. intros _.
  apply emits_bind; [apply emits_pre_incr|]. intros tx.
  apply emits_bind.
  { apply emits_settle, emits_bind.
    - apply emits_sendPacket.
      change (container_array (pack _)) with (command_packet SEND_OBJECT tx []).
      rewrite command_packet_bytes by (simpl; lia). discriminate.
    - intros _. apply uploadFile_loop_emits. lia. }
  intros sent.
  apply emits_bind.
  { apply emits_settle, emits_catch; [|apply emits_resolve, Qres].
    apply emits_bind; [apply emits_await|]. intros receivedPackets.
    unfold uploadFile_then.
    destruct (packet_code (nth 0 receivedPackets []) =? MTP_OK);
      [apply emits_resolve, Qres | apply emits_throw]. }
  intros _.
  apply emits_bind; [apply emits_await|]. intros _. apply emits_return_promise.
Qed.

(** C5 as stated fails: for 500 file bytes the Data phase is 512 bytes long,
    an exact multiple of 512; [uploadFile] writes the Command and one
    512-byte packet, and nothing after it. *)
Lemma uploadFile_500_bytes_no_terminator :
  let fileBytes := repeat 0x41 500 in
  let w := world_of example_device None
             (script [XferData (response_packet MTP_OK 9); XferData (response_packet MTP_OK 9)]
                XferPending) all_ok in
  let ws := writes (log (snd (uploadFile fileBytes w))) in
  (12 + Z.of_nat (length fileBytes)) mod 512 = 0
  /\ fst (uploadFile fileBytes w) = Ok (VBool true)
  /\ map (fun p => Z.of_nat (length p)) ws = [12; 512]
  /\ last ws <> Some [].
Proof. vm_compute. repeat split; discriminate || reflexivity. Qed.

(** ** The configuration-file parser *)

Lemma split_newlines_cons (s : string) : exists h t, split_newlines s = h :: t.
Proof.
  induction s as [|c s IH]; [eexists _, _; reflexivity|].
  cbn [split_newlines].
  destruct (Ascii.eqb c CR).
  - destruct s as [|c' s']; [eexists _, _; reflexivity|].
    destruct (Ascii.eqb c' LF); eexists _, _; reflexivity.
  - destruct (Ascii.eqb c LF); [eexists _, _; reflexivity|].
    destruct IH as [h [t ->]]. eexists _, _; reflexivity.
Qed.

Lemma append_String (c : ascii) (l t : string) :
  (String c l ++ t)%string = String c (l ++ t).
Proof. reflexivity. Qed.

Lemma append_empty_r (s : string) : (s ++ EmptyString)%string = s.
Proof. induction s as [|c s IH]; [reflexivity|]. rewrite append_String, IH. reflexivity. Qed.

Lemma split_newlines_line (l tail : string) (ls : list string) (h : string) :
  no_newline l = true ->
  split_newlines tail = h :: ls ->
  split_newlines (l ++ tail) = (l ++ h)%string :: ls.
Proof.
  intros Hl Ht. induction l as [|c l IH]; [exact Ht|].
  cbn [no_newline string_forallb] in Hl.
  apply andb_true_iff in Hl as [Hc Hl]. apply andb_true_iff in Hc as [Hcr Hlf].
  apply negb_true_iff in Hcr, Hlf.
  rewrite !append_String. cbn [split_newlines]. rewrite Hcr, Hlf.
  unfold no_newline in IH. rewrite (IH Hl). reflexivity.
Qed.

(** [split_newlines] splits on [\r\n], [\r] and [\n]. *)
Lemma split_newlines_join (l0 : string) (rest : list (string * string)) :
  well_split l0 rest -> split_newlines (join_lines l0 rest) = l0 :: map snd rest.
Proof.
  revert l0. induction rest as [|[sep l] rest IH]; intros l0 [Hl0 Hrest].
  - cbn [join_lines map].
    rewrite <- (append_empty_r l0) at 1.
    rewrite (split_newlines_line l0 EmptyString [] EmptyString Hl0 eq_refl).
    rewrite append_empty_r. reflexivity.
  - destruct Hrest as [Hsep Hw]. cbn [join_lines map snd].
    specialize (IH l Hw).
    rewrite (split_newlines_line l0 _ (l :: map snd rest) EmptyString Hl0).
    + rewrite append_empty_r. reflexivity.
    + destruct Hsep as [-> | [-> | [-> Hno]]].
      * unfold CRLF_sep. rewrite !append_String. change (EmptyString ++ ?x)%string with x.
        cbn. rewrite IH. reflexivity.
      * unfold LF_sep. rewrite !append_String. change (EmptyString ++ ?x)%string with x.
        cbn. rewrite IH. reflexivity.
      * unfold CR_sep. rewrite !append_String. change (EmptyString ++ ?x)%string with x.
        cbn [split_newlines]. change (Ascii.eqb CR CR) with true. cbv iota.
        destruct (join_lines l rest) as [|c' s'] eqn:E.
        -- rewrite <- IH. reflexivity.
        -- cbn [starts_with] in Hno. rewrite Hno, <- IH. reflexivity.
Qed.

Lemma split_char_cons (sep : ascii) (s : string) : exists h t, split_char sep s = h :: t.
Proof.
  induction s as [|c s IH]; [eexists _, _; reflexivity|].
  cbn [split_char]. destruct (Ascii.eqb c sep); [eexists _, _; reflexivity|].
  destruct IH as [h [t ->]]. eexists _, _; reflexivity.
Qed.

(** The first two fields of [line.split(sep)]. *)
Lemma split_char_fields (sep : ascii) (s : string) :
  nth 0 (split_char sep s) EmptyString = before sep s
  /\ split_char sep s !! 1%nat = before sep <$> after sep s.
Proof.
  induction s as [|c s [IH0 IH1]]; [split; reflexivity|].
  cbn [split_char before after].
  destruct (Ascii.eqb c sep).
  - split; [reflexivity|]. cbn.
    destruct (split_char_cons sep s) as [h [t E]]. rewrite E in IH0 |- *. cbn in IH0 |- *.
    rewrite IH0. reflexivity.
  - destruct (split_char_cons sep s) as [h [t E]]. rewrite E in IH0, IH1 |- *.
    cbn in IH0, IH1 |- *. rewrite IH0. split; [reflexivity | exact IH1].
Qed.

(** One iteration of the loop of [stringToObj] adds the entry of the line. *)
Lemma stringToObj_step (obj : gmap string string) (line : string) :
  (let kvp := split_char "=" line in
   if truthy (kvp !! 1%nat)
   then obj_set obj (nth 0 kvp EmptyString) (nth 1 kvp EmptyString)
   else obj)
  = add_line obj line.
Proof.
  cbv zeta. unfold add_line, line_entry.
  destruct (split_char_fields "=" line) as [H0 H1].
  rewrite H0.
  assert (Hn : nth 1 (split_char "=" line) EmptyString
               = default EmptyString (split_char "=" line !! 1%nat)).
  { rewrite nth_lookup. reflexivity. }
  rewrite Hn, H1.
  destruct (after "=" line) as [rhs|]; cbn; [|reflexivity].
  destruct (before "=" rhs); reflexivity.
Qed.

Lemma fold_left_pointwise {A S : Type} (f1 f2 : S -> A -> S) (l : list A) (s : S) :
  (forall acc x, f1 acc x = f2 acc x) -> fold_left f1 l s = fold_left f2 l s.
Proof.
  intros H. revert s. induction l as [|x l IH]; intros s; [reflexivity|].
  cbn [fold_left]. rewrite H. apply IH.
Qed.

Lemma fold_left_seq_nth {A S : Type} (d : A) (g : S -> A -> S) (l pre : list A) (s : S) :
  fold_left (fun acc k => g acc (nth k (pre ++ l) d)) (seq (length pre) (length l)) s
  = fold_left g l s.
Proof.
  revert pre s. induction l as [|x l IH]; intros pre s; [reflexivity|].
  cbn [length seq fold_left].
  rewrite app_nth2, Nat.sub_diag by lia. cbn [nth].
  specialize (IH (pre ++ [x]) (g s x)).
  rewrite length_app, Nat.add_1_r, <- app_assoc in IH. exact IH.
Qed.

Lemma for_loop_nth {A S : Type} (d : A) (g : S -> A -> S) (l : list A) (s : S) :
  JS.for_loop 0 (Z.of_nat (length l)) (fun i acc => g acc (nth (Z.to_nat i) l d)) s
  = fold_left g l s.
Proof.
  unfold JS.for_loop. rewrite Z.sub_0_r, Nat2Z.id.
  rewrite <- (fold_left_seq_nth d g l [] s). cbn [length app].
  apply fold_left_pointwise. intros acc k. rewrite Z.add_0_l, Nat2Z.id. reflexivity.
Qed.

(** [stringToObj] folds the entries of the lines, in order, into the object. *)
Lemma stringToObj_fold (s : string) :
  stringToObj s = fold_left add_line (split_newlines s) ∅.
Proof.
  unfold stringToObj. cbv zeta.
  rewrite <- (for_loop_nth EmptyString add_line).
  unfold JS.for_loop. apply fold_left_pointwise. intros acc k.
  apply stringToObj_step.
Qed.

(** Every text is made of lines and line breaks in the sense of
    [well_split], so the theorem below covers every configuration file. *)
Lemma text_has_lines (s : string) :
  exists l0 rest, well_split l0 rest /\ join_lines l0 rest = s.
Proof.
  enough (H : (exists l0 rest, well_split l0 rest /\ join_lines l0 rest = s)
              /\ forall c, exists l0 rest, well_split l0 rest /\ join_lines l0 rest = String c s)
    by apply H.
  induction s as [|c s [IHs IHc]].
  - split; [exists EmptyString, []; split; [split; [reflexivity | exact I] | reflexivity]|].
    intros c. destruct (Ascii.eqb c CR) eqn:Ecr; [|destruct (Ascii.eqb c LF) eqn:Elf].
    + apply Ascii.eqb_eq in Ecr as ->.
      exists EmptyString, [(CR_sep, EmptyString)]. split; [|reflexivity].
      split; [reflexivity|]. split; [right; right; split; reflexivity|].
      split; [reflexivity | exact I].
    + apply Ascii.eqb_eq in Elf as ->.
      exists EmptyString, [(LF_sep, EmptyString)]. split; [|reflexivity].
      split; [reflexivity|]. split; [right; left; reflexivity|].
      split; [reflexivity | exact I].
    + exists (String c EmptyString), []. split; [|reflexivity].
      split; [|exact I]. cbn. rewrite Ecr, Elf. reflexivity.
  - split; [apply IHc|]. intros c2.
    destruct (Ascii.eqb c2 CR) eqn:Ecr; [|destruct (Ascii.eqb c2 LF) eqn:Elf].
    + apply Ascii.eqb_eq in Ecr as ->.
      destruct (Ascii.eqb c LF) eqn:Ec.
      * apply Ascii.eqb_eq in Ec as ->.
        destruct IHs as [l [rest [Hw Hj]]].
        exists EmptyString, ((CRLF_sep, l) :: rest). split.
        -- split; [reflexivity|]. split; [left; reflexivity | exact Hw].
        -- cbn [join_lines]. rewrite Hj. reflexivity.
      * destruct (IHc c) as [l [rest [Hw Hj]]].
        exists EmptyString, ((CR_sep, l) :: rest). split.
        -- split; [reflexivity|]. split; [|exact Hw].
           right; right. split; [reflexivity|]. rewrite Hj. exact Ec.
        -- cbn [join_lines]. rewrite Hj. reflexivity.
    + apply Ascii.eqb_eq in Elf as ->.
      destruct (IHc c) as [l [rest [Hw Hj]]].
      exists EmptyString, ((LF_sep, l) :: rest). split.
      -- split; [reflexivity|]. split; [right; left; reflexivity | exact Hw].
      -- cbn [join_lines]. rewrite Hj. reflexivity.
    + destruct (IHc c) as [l [rest [Hw Hj]]].
      exists (String c2 l), rest. split.
      -- destruct rest as [|[sep l1] rest]; destruct Hw as [Hl Hr];
           (split; [cbn; rewrite Ecr, Elf; exact Hl | exact Hr]).
      -- destruct rest as [|[sep l1] rest]; cbn [join_lines] in *;
           rewrite ?append_String, Hj; reflexivity.
Qed.




(** ** GetObject for large objects *)

Lemma ceil_div_spec (a n : Z) :
  512 * (n - 1) < a <= 512 * n -> JS.ceil_div a 512 = n.
Proof.
  intros H. unfold JS.ceil_div.
  assert (E : (- a) / 512 = - n); [|lia].
  symmetry. apply Z.div_unique with (r := 512 * n - a); lia.
Qed.

(** The length field of a header, as the driver reads it. *)
Lemma read32_header (buf : list Z) :
  JS.bytesb buf = true -> (4 <= length buf)%nat ->
  read32 buf 0 = JS.ToInt32 (le_val (JS.slice buf 0 4)).
Proof.
  intros Hb Hl.
  destruct buf as [|b0 [|b1 [|b2 [|b3 rest]]]]; simpl in Hl; try lia.
  cbn [JS.bytesb forallb] in Hb.
  repeat (apply andb_true_iff in Hb as [?H Hb]).
  change (read32 (b0 :: b1 :: b2 :: b3 :: rest) 0)
    with (JS.bor (JS.bor (JS.bor b0 (JS.shl b1 8)) (JS.shl b2 16)) (JS.shl b3 24)).
  change (JS.slice (b0 :: b1 :: b2 :: b3 :: rest) 0 4) with [b0; b1; b2; b3].
  rewrite read32_bytes by lia. cbn [le_val]. f_equal. lia.
Qed.

Lemma same_session_refl (w : world) : same_session w w.
Proof. repeat split; auto. Qed.

Lemma same_session_trans (w1 w2 w3 : world) :
  same_session w1 w2 -> same_session w2 w3 -> same_session w1 w3.
Proof.
  intros (A1 & A2 & A3 & A4 & A5 & A6) (B1 & B2 & B3 & B4 & B5 & B6).
  repeat split; try congruence. auto.
Qed.

(** One read of the loop, when the transfer delivers data. *)
Lemma download_step_run (i : Z) (st : list Z * Z) (w : world) (d : list Z) :
  bulk_in w (in_pos w) = XferData d ->
  exists st' w' evs,
    download_step i st w = (Ok st', w')
    /\ in_pos w' = S (in_pos w)
    /\ same_session w w'
    /\ log w' = log w ++ evs
    /\ List.filter is_read_or_resolve evs = [EvTransferIn InDownloadLoop].
Proof.
  intros Hin. destruct w as [dev ld bi ip bo op lg pr]. destruct st as [ob bc].
  cbn [bulk_in in_pos] in Hin.
  unfold download_step, add_audioCopyBytes. run_op. rewrite Hin. run_op.
  destruct (((bc + 1) mod 50000) =? 0); run_op.
  - eexists _, _, [EvTransferIn InDownloadLoop; EvBlobAdd _ _].
    split; [reflexivity|]. split; [reflexivity|]. split.
    + repeat split; cbn; auto. destruct ld; cbn; congruence.
    + split; [cbn; rewrite <- app_assoc; reflexivity | reflexivity].
  - eexists _, _, [EvTransferIn InDownloadLoop].
    split; [reflexivity|]. split; [reflexivity|]. split; [repeat split; cbn; auto|].
    split; reflexivity.
Qed.

(** The loop issues one read per element of [range]. *)
Lemma download_loop_run (range : list Z) (st : list Z * Z) (w : world) :
  (forall k, (k < length range)%nat -> exists d, bulk_in w (in_pos w + k)%nat = XferData d) ->
  exists st' w' evs,
    download_loop range st w = (Ok st', w')
    /\ in_pos w' = (in_pos w + length range)%nat
    /\ same_session w w'
    /\ log w' = log w ++ evs
    /\ List.filter is_read_or_resolve evs = repeat (EvTransferIn InDownloadLoop) (length range).
Proof.
  revert st w. induction range as [|i range IH]; intros st w Hin.
  - exists st, w, []. cbn. rewrite Nat.add_0_r, app_nil_r.
    repeat split; auto.
  - destruct (Hin 0%nat ltac:(simpl; lia)) as [d Hd]. rewrite Nat.add_0_r in Hd.
    destruct (download_step_run i st w d Hd) as (st1 & w1 & e1 & Hrun & Hpos & Hs & Hlog & Hf).
    destruct (IH st1 w1) as (st2 & w2 & e2 & Hrun2 & Hpos2 & Hs2 & Hlog2 & Hf2).
    { intros k Hk. destruct (Hin (S k) ltac:(simpl; lia)) as [d' Hd'].
      exists d'. destruct Hs as (-> & _). rewrite Hpos.
      replace (S (in_pos w) + k)%nat with (in_pos w + S k)%nat by lia. exact Hd'. }
    exists st2, w2, (e1 ++ e2).
    split.
    { cbn [download_loop]. unfold mbind, M_bind. rewrite Hrun. exact Hrun2. }
    split; [rewrite Hpos2, Hpos; simpl; lia|].
    split; [eapply same_session_trans; eassumption|].
    split; [rewrite Hlog2, Hlog, app_assoc; reflexivity|].
    rewrite List.filter_app, Hf, Hf2. reflexivity.
Qed.

Lemma slice_from_length (l : list Z) (lo : nat) :
  length (JS.slice l (Z.of_nat lo) (Z.of_nat (length l))) = (length l - lo)%nat.
Proof. unfold JS.slice. rewrite length_take, length_drop, Nat2Z.id. lia. Qed.

(** The handler of [downloadAudioFile] on a first packet whose header
    declares a length in [12, 2^31), when the reads it issues all deliver
    data: [N] reads in the loop, one more read, then [resolve]. *)
Lemma downloadAudioFile_then_run (first : list Z) (w : world) (N : nat) :
  packet_code first = GET_OBJECT ->
  JS.bytesb first = true ->
  (12 <= length first <= 512)%nat ->
  12 <= le_val (JS.slice first 0 4) < 2147483648 ->
  512 * (Z.of_nat N - 1)
    < (le_val (JS.slice first 0 4) - 12) - (Z.of_nat (length first) - 12)
    <= 512 * Z.of_nat N ->
  lenaDevice w <> None ->
  promise w = None ->
  (forall k, (k <= N)%nat -> exists d, bulk_in w (in_pos w + k)%nat = XferData d) ->
  exists w' evs,
    downloadAudioFile_then [first] w = (Ok tt, w')
    /\ promise w' = Some (VStatusBytes true [])
    /\ log w' = log w ++ evs
    /\ List.filter is_read_or_resolve evs
       = repeat (EvTransferIn InDownloadLoop) N
         ++ [EvTransferIn InDownloadTrailing; EvResolve (VStatusBytes true [])].
Proof.
  intros Hcode Hb Hlen HL HN Hlena Hpr Hin.
  destruct w as [dev ld bi ip bo op lg pr].
  cbn [bulk_in in_pos promise lenaDevice log] in *. subst pr.
  destruct ld as [s|]; [clear Hlena | congruence].
  unfold downloadAudioFile_then. cbn [nth]. rewrite Hcode.
  change (GET_OBJECT =? GET_OBJECT) with true. cbv iota.
  rewrite read32_header by (assumption || lia).
  rewrite ToInt32_small by lia.
  change MTP_CONTAINER_ARRAY_LEN with (Z.of_nat 12).
  rewrite slice_from_length.
  replace (Z.of_nat (length first - 12)) with (Z.of_nat (length first) - 12) by lia.
  unfold MTP_PACKET_MAX_SIZE. rewrite (ceil_div_spec _ (Z.of_nat N)) by (simpl; lia).
  set (fileLength := le_val (JS.slice first 0 4) - Z.of_nat 12).
  set (objectBuffer := JS.slice first (Z.of_nat 12) (Z.of_nat (length first))).
  unfold Array_of_length.
  assert (HNb : (0 <=? Z.of_nat N) && (Z.of_nat N <? 4294967296) = true).
  { apply andb_true_iff. split; [apply Z.leb_le; lia | apply Z.ltb_lt; simpl in HN; lia]. }
  rewrite HNb, Nat2Z.id.
  unfold set_audioCopyTotalBytes, add_audioCopyBytes. run_op.
  cbv [with_lenaDevice device lenaDevice bulk_in in_pos bulk_out out_pos log promise
       audioCopyBytes audioCopyTotalBytes].
  match goal with
  | |- context [download_loop ?r ?st ?w1] =>
      destruct (download_loop_run r st w1)
        as ([ob2 bc2] & w2 & e2 & Hrun & Hpos & Hs & Hlog & Hf)
  end.
  { rewrite length_map, length_seq. intros k Hk. apply Hin. lia. }
  rewrite length_map, length_seq in Hpos, Hf.
  rewrite Hrun.
  destruct (Hin N ltac:(lia)) as [dN HdN].
  destruct Hs as (Hbi & Hbo & Hop & Hp2 & Hdev & Hl2).
  destruct w2 as [dev2 ld2 bi2 ip2 bo2 op2 lg2 pr2].
  cbn [bulk_in in_pos bulk_out out_pos promise device lenaDevice log] in *.
  subst bi2 ip2 pr2 lg2.
  rewrite HdN.
  eexists _, (e2 ++ [EvBlobAdd bc2 ob2; EvTransferIn InDownloadTrailing;
                     EvResolve (VStatusBytes true []); EvBlobAdd (bc2 + 1) []]).
  split; [reflexivity|]. split; [reflexivity|]. split.
  - rewrite <- !app_assoc. reflexivity.
  - rewrite List.filter_app, Hf. reflexivity.
Qed.

(** C2 (as amended): for every download whose first Data packet declares a
    [header.length] from 12 up to 2^31 - 1 (the driver reads the field as a
    signed 32-bit integer), with a progress object passed and every read
    delivering data: with [declared_total = header.length - 12] and
    [first_payload_len] the bytes of the first packet after its header, the
    engine performs exactly [N = ceil ((declared_total - first_payload_len)
    / 512)] further bulk-IN reads in its loop, then exactly one additional
    bulk-IN read, and then resolves the returned promise (with
    [[true, []]]). *)
Theorem downloadAudioFile_read_count
    (fileObject : ObjectInfoDataset) (w : world) (first : list Z) (N : nat) :
  bulk_in w (in_pos w) = XferData first ->
  bulk_out w (out_pos w) = OutOk ->
  lenaDevice w <> None ->
  packet_code first = GET_OBJECT ->
  JS.bytesb first = true ->
  (12 <= length first <= 512)%nat ->
  12 <= le_val (JS.slice first 0 4) < 2147483648 ->
  let declared_total := le_val (JS.slice first 0 4) - 12 in
  let first_payload_len := Z.of_nat (length (JS.slice first 12 (Z.of_nat (length first)))) in
  512 * (Z.of_nat N - 1) < declared_total - first_payload_len <= 512 * Z.of_nat N ->
  (forall k, (1 <= k <= N + 1)%nat -> exists d, bulk_in w (in_pos w + k)%nat = XferData d) ->
  fst (downloadAudioFile (Some fileObject) w) = Ok (VStatusBytes true [])
  /\ exists evs,
       log (snd (downloadAudioFile (Some fileObject) w)) = log w ++ evs
       /\ List.filter is_read_or_resolve evs
          = EvTransferIn InGetPacket
            :: repeat (EvTransferIn InDownloadLoop) N
            ++ [EvTransferIn InDownloadTrailing; EvResolve (VStatusBytes true [])].
Proof.
  intros Hin Hout Hlena Hcode Hb Hlen HL declared_total first_payload_len HN Hreads.
  subst declared_total first_payload_len.
  pose proof (slice_from_length first 12) as Hsl.
  change (Z.of_nat 12) with 12 in Hsl. rewrite Hsl in HN. clear Hsl.
  destruct w as [dev ld bi ip bo op lg pr].
  cbn [bulk_in in_pos bulk_out out_pos lenaDevice log] in *.
  unfold downloadAudioFile, defined. run_op. rewrite Hin. run_op. rewrite Hout. run_op.
  match goal with
  | |- context [downloadAudioFile_then [first] ?w1] =>
      destruct (downloadAudioFile_then_run first w1 N Hcode Hb Hlen HL)
        as (w2 & evs & Hrun & Hp & Hlog & Hf)
  end.
  - lia.
  - exact Hlena.
  - reflexivity.
  - intros k Hk. cbn [bulk_in in_pos].
    destruct (Hreads (S k) ltac:(lia)) as [d Hd]. exists d.
    replace (S ip + k)%nat with (ip + S k)%nat by lia. exact Hd.
  - rewrite Hrun. destruct w2 as [dev2 ld2 bi2 ip2 bo2 op2 lg2 pr2].
    cbn [promise log] in Hp, Hlog. subst pr2 lg2.
    split; [reflexivity|].
    exists (EvTransferIn InGetPacket :: EvTransferOut
              (container_array
                 (pack (setParams (default 0 (fileID fileObject)) 0 0 0 0
                          (setOperation GET_OBJECT
                             (setTransactionType MTP_PACKET_TYPE_COMMAND
                                (setTransactionID (transactionID dev + 1) (new_mtpPacket 1)))))))
            :: evs).
    split.
    + cbn [snd log]. rewrite <- !app_assoc. reflexivity.
    + cbn [List.filter is_read_or_resolve]. rewrite Hf. reflexivity.
Qed.

Lemma downloadAudioFile_read_count_witness :
  fst (downloadAudioFile (Some example_command_file)
         (download_world (getObject_first_packet 1236 9 (repeat 7 500))))
  = Ok (VStatusBytes true []).
Proof.
  apply (downloadAudioFile_read_count example_command_file
           (download_world (getObject_first_packet 1236 9 (repeat 7 500)))
           (getObject_first_packet 1236 9 (repeat 7 500)) 2).
  - reflexivity.
  - reflexivity.
  - discriminate.
  - reflexivity.
  - reflexivity.
  - vm_compute. lia.
  - vm_compute. split; discriminate || reflexivity.
  - vm_compute. split; discriminate || reflexivity.
  - intros k Hk. exists (repeat 0 512).
    destruct k as [|[|[|[|k]]]]; try lia; reflexivity.
Defined.

(** C2 as stated fails: a first packet whose header declares
    0x8000000C bytes (a 2 GiB object) makes the driver compute a negative
    length; the claim's count is 4194304 reads in the loop and one more, the
    code issues no further read at all and resolves false. *)
Lemma downloadAudioFile_2GiB_header_no_reads :
  let first := getObject_first_packet 0x8000000C 9 [] in
  let w := download_world first in
  le_val (JS.slice first 0 4) - 12 = 2147483648
  /\ JS.ceil_div (2147483648 - 0) 512 = 4194304
  /\ fst (downloadAudioFile (Some example_command_file) w) = Ok (VBool false)
  /\ List.filter is_read_or_resolve (log (snd (downloadAudioFile (Some example_command_file) w)))
     = [EvTransferIn InGetPacket; EvResolve (VBool false)].
Proof. vm_compute. repeat split; reflexivity. Qed.

(** * Further properties of the driver and of the parser *)

(** ** The parser: the properties of the parsed object *)

Lemma obj_set_lookup (obj : gmap string string) (k' v k : string) :
  k <> "__proto__"%string ->
  obj_set obj k' v !! k = if String.eqb k' k then Some v else obj !! k.
Proof.
  intros Hk. unfold obj_set.
  destruct (String.eqb_spec k' "__proto__") as [-> | Hp].
  - destruct (String.eqb_spec "__proto__" k) as [E | _]; [congruence | reflexivity].
  - destruct (String.eqb_spec k' k) as [-> | Hne].
    + apply lookup_insert_eq.
    + apply lookup_insert_ne. exact Hne.
Qed.

Lemma obj_set_lookup_proto (obj : gmap string string) (k' v : string) :
  obj_set obj k' v !! "__proto__"%string = obj !! "__proto__"%string.
Proof.
  unfold obj_set. destruct (String.eqb_spec k' "__proto__") as [-> | Hp]; [reflexivity|].
  apply lookup_insert_ne. exact Hp.
Qed.

Lemma fold_add_line_lookup (lines : list string) (obj : gmap string string) (k : string) :
  k <> "__proto__"%string ->
  fold_left add_line lines obj !! k
  = match last_entry k lines with
    | Some v => Some v
    | None => obj !! k
    end.
Proof.
  intros Hk. revert obj. induction lines as [|line lines IH]; intros obj; [reflexivity|].
  cbn [fold_left last_entry]. rewrite IH.
  destruct (last_entry k lines) as [v|]; [reflexivity|].
  unfold add_line. destruct (line_entry line) as [[k' v']|]; [|reflexivity].
  rewrite obj_set_lookup by exact Hk.
  destruct (String.eqb k' k); reflexivity.
Qed.

(** The key [__proto__] is never present. *)
Lemma stringToObj_no_proto (s : string) : stringToObj s !! "__proto__"%string = None.
Proof.
  rewrite stringToObj_fold.
  assert (H : forall lines obj,
             fold_left add_line lines obj !! "__proto__"%string = obj !! "__proto__"%string).
  { induction lines as [|line lines IH]; intros obj; [reflexivity|].
    cbn [fold_left]. rewrite IH. unfold add_line.
    destruct (line_entry line) as [[k' v']|]; [apply obj_set_lookup_proto | reflexivity]. }
  rewrite H. apply lookup_empty.
Qed.

(** X1: the properties of its own that the parsed object has: the key
    [__proto__] is never one; any other key is one exactly when some line
    has it, and its value is the one the last such line gives it.  (Members
    inherited from [Object.prototype], which a plain read of a key the
    object has not would find, are not own properties.) *)
Theorem stringToObj_lookup (s k : string) :
  own_property (stringToObj s) k
  = if String.eqb k "__proto__" then None else last_entry k (split_newlines s).
Proof.
  unfold own_property.
  destruct (String.eqb_spec k "__proto__") as [-> | Hk]; [apply stringToObj_no_proto|].
  rewrite stringToObj_fold, fold_add_line_lookup by exact Hk.
  destruct (last_entry k (split_newlines s)); [reflexivity | apply lookup_empty].
Qed.

Lemma before_no_char (c : ascii) (s : string) : has_char c (before c s) = false.
Proof.
  unfold has_char. apply negb_false_iff.
  induction s as [|c' s IH]; [reflexivity|].
  cbn [before]. destruct (Ascii.eqb c' c) eqn:E; [reflexivity|].
  cbn [string_forallb]. rewrite E. exact IH.
Qed.

Lemma before_forallb (p : ascii -> bool) (c : ascii) (s : string) :
  string_forallb p s = true -> string_forallb p (before c s) = true.
Proof.
  induction s as [|c' s IH]; [reflexivity|].
  cbn [string_forallb before]. intros H. apply andb_true_iff in H as [H1 H2].
  destruct (Ascii.eqb c' c); [reflexivity|].
  cbn [string_forallb]. rewrite H1, IH by exact H2. reflexivity.
Qed.

Lemma after_forallb (p : ascii -> bool) (c : ascii) (s r : string) :
  string_forallb p s = true -> after c s = Some r -> string_forallb p r = true.
Proof.
  induction s as [|c' s IH]; [discriminate|].
  cbn [string_forallb after]. intros H. apply andb_true_iff in H as [H1 H2].
  destruct (Ascii.eqb c' c); [intros [= <-]; exact H2 | apply IH; exact H2].
Qed.

Lemma well_split_no_newline (l0 : string) (rest : list (string * string)) :
  well_split l0 rest -> Forall (fun line => no_newline line = true) (l0 :: map snd rest).
Proof.
  revert l0. induction rest as [|[sep l] rest IH]; intros l0 [H0 Hr].
  - repeat constructor. exact H0.
  - constructor; [exact H0|]. apply IH. apply Hr.
Qed.

Lemma split_newlines_no_newline (s : string) :
  Forall (fun line => no_newline line = true) (split_newlines s).
Proof.
  destruct (text_has_lines s) as (l0 & rest & Hw & <-).
  rewrite (split_newlines_join l0 rest Hw). apply well_split_no_newline, Hw.
Qed.

Lemma last_entry_in (k v : string) (lines : list string) :
  last_entry k lines = Some v ->
  exists line k', In line lines /\ line_entry line = Some (k', v) /\ k' = k.
Proof.
  induction lines as [|line lines IH]; [discriminate|].
  cbn [last_entry]. destruct (last_entry k lines) as [v'|].
  - intros [= ->]. destruct (IH eq_refl) as (l & k' & Hin & He & Hk).
    exists l, k'. split; [right; exact Hin | split; assumption].
  - destruct (line_entry line) as [[k' v']|] eqn:E; [|discriminate].
    destruct (String.eqb_spec k' k) as [-> | _]; [|discriminate].
    intros [= ->]. exists line, k. split; [left; reflexivity | split; [exact E | reflexivity]].
Qed.

(** X2: every entry of the parsed object has a non-empty value; neither the
    key nor the value holds an [=], a carriage return or a line feed. *)
Theorem stringToObj_entries_clean (s k v : string) :
  stringToObj s !! k = Some v ->
  v <> EmptyString
  /\ has_char "=" k = false /\ has_char "=" v = false
  /\ no_newline k = true /\ no_newline v = true.
Proof.
  intros H.
  assert (Hk : k <> "__proto__"%string).
  { intros ->. rewrite stringToObj_no_proto in H. discriminate. }
  rewrite stringToObj_fold, fold_add_line_lookup in H by exact Hk.
  destruct (last_entry k (split_newlines s)) as [v'|] eqn:E;
    [|rewrite lookup_empty in H; discriminate].
  injection H as ->.
  apply last_entry_in in E as (line & k' & Hin & He & ->).
  assert (Hl : no_newline line = true).
  { pose proof (split_newlines_no_newline s) as Hall. rewrite Forall_forall in Hall.
    apply Hall, list_elem_of_In, Hin. }
  unfold line_entry in He.
  destruct (after "=" line) as [rhs|] eqn:Ea; [|discriminate].
  destruct (before "=" rhs) as [|c r] eqn:Eb; [discriminate|].
  injection He as <- <-.
  split; [discriminate|].
  split; [apply before_no_char|].
  split; [rewrite <- Eb; apply before_no_char|].
  split; [apply before_forallb; exact Hl|].
  rewrite <- Eb. apply before_forallb. eapply after_forallb; [exact Hl | exact Ea].
Qed.

Lemma stringToObj_entries_clean_witness :
  has_char "=" "B" = false.
Proof.
  apply (stringToObj_entries_clean "A=B=C" "A" "B"). reflexivity.
Defined.

(** ** What the parts of an operation leave alone *)

Section Preserves.

Variable Rel : world -> world -> Prop.
Hypothesis Rel_refl : forall w, Rel w w.
Hypothesis Rel_trans : forall w1 w2 w3, Rel w1 w2 -> Rel w2 w3 -> Rel w1 w3.

Lemma preserves_ret {A} (a : A) : preserves Rel (mret a).
Proof. intros w. apply Rel_refl. Qed.

Lemma preserves_bind {A B} (m : M A) (f : A -> M B) :
  preserves Rel m -> (forall a, preserves Rel (f a)) -> preserves Rel (m ≫= f).
Proof.
  intros Hm Hf w. unfold mbind, M_bind. specialize (Hm w).
  destruct (m w) as [[a| |] w1]; cbn [snd] in *; try exact Hm.
  eapply Rel_trans; [exact Hm | apply Hf].
Qed.

Lemma preserves_settle {A} (m : M A) : preserves Rel m -> preserves Rel (settle m).
Proof. intros Hm w. unfold settle. specialize (Hm w). destruct (m w). exact Hm. Qed.

Lemma preserves_catch {A} (m h : M A) :
  preserves Rel m -> preserves Rel h -> preserves Rel (catch_ m h).
Proof.
  intros Hm Hh w. unfold catch_. specialize (Hm w).
  destruct (m w) as [[a| |] w1]; cbn [snd] in *; try exact Hm.
  eapply Rel_trans; [exact Hm | apply Hh].
Qed.

Lemma preserves_await {A} (r : result A) : preserves Rel (await r).
Proof. intros w. apply Rel_refl. Qed.

Lemma preserves_throw {A} : preserves Rel (@throw A).
Proof. intros w. apply Rel_refl. Qed.

Lemma preserves_hang {A} : preserves Rel (@hang A).
Proof. intros w. apply Rel_refl. Qed.

Lemma preserves_modify (f : world -> world) : (forall w, Rel w (f w)) -> preserves Rel (modify f).
Proof. intros H w. apply H. Qed.

Lemma preserves_if {A} (b : bool) (m1 m2 : M A) :
  preserves Rel m1 -> preserves Rel m2 -> preserves Rel (if b then m1 else m2).
Proof. destruct b; auto. Qed.

Lemma preserves_for_each (range : list Z) (body : Z -> M unit) :
  (forall i, preserves Rel (body i)) -> preserves Rel (for_each range body).
Proof.
  intros Hb. induction range as [|i range IH]; cbn [for_each].
  - apply preserves_ret.
  - apply preserves_bind; [apply Hb | intros _; exact IH].
Qed.

Lemma for_loop_rel (lo hi : Z) (body : Z -> world -> world) (w : world) :
  (forall i w0, Rel w0 (body i w0)) -> Rel w (JS.for_loop lo hi body w).
Proof.
  intros Hb. unfold JS.for_loop. generalize (seq 0 (Z.to_nat (hi - lo))) as l.
  intros l. revert w. induction l as [|k l IH]; intros w; cbn [fold_left].
  - apply Rel_refl.
  - eapply Rel_trans; [apply Hb | apply IH].
Qed.

End Preserves.

Lemma same_tx_refl (w : world) : same_tx w w.
Proof. reflexivity. Qed.

Lemma same_tx_trans (w1 w2 w3 : world) : same_tx w1 w2 -> same_tx w2 w3 -> same_tx w1 w3.
Proof. unfold same_tx. congruence. Qed.

Lemma quiet_refl (w : world) : quiet w w.
Proof. repeat split. Qed.

Lemma quiet_trans (w1 w2 w3 : world) : quiet w1 w2 -> quiet w2 w3 -> quiet w1 w3.
Proof.
  intros (A1 & A2 & A3 & A4) (B1 & B2 & B3 & B4). repeat split; congruence.
Qed.

Lemma quiet_same_tx {A} (m : M A) : preserves quiet m -> preserves same_tx m.
Proof. intros H w. apply H. Qed.

Ltac quiet_step :=
  first
    [ apply preserves_ret; exact quiet_refl
    | apply preserves_await; exact quiet_refl
    | apply preserves_throw; exact quiet_refl
    | apply preserves_hang; exact quiet_refl
    | apply preserves_bind; [exact quiet_trans | | intros ?]
    | apply preserves_settle
    | apply preserves_catch; [exact quiet_trans | |]
    | apply preserves_if ].

Lemma writes_snoc_other (l : list event) (e : event) :
  (forall p, e <> EvTransferOut p) -> writes (l ++ [e]) = writes l.
Proof.
  intros He. rewrite writes_app.
  destruct e; try apply app_nil_r. exfalso. eapply He. reflexivity.
Qed.

Ltac quiet_prim :=
  split; [reflexivity|]; split; [reflexivity|]; split;
  [first [reflexivity | apply writes_snoc_other; intros ?; discriminate] | reflexivity].

Lemma quiet_transferIn (site : in_site) : preserves quiet (transferIn site).
Proof.
  intros w. unfold transferIn. destruct (bulk_in w (in_pos w)); quiet_prim.
Qed.

Lemma quiet_resolve (v : value) : preserves quiet (resolve v).
Proof.
  intros w. unfold resolve. cbn [promise with_log].
  destruct (promise w); quiet_prim.
Qed.

Lemma quiet_log_event (e : event) :
  (forall p, e <> EvTransferOut p) -> preserves quiet (log_event e).
Proof.
  intros He w. split; [reflexivity|]; split; [reflexivity|]; split; [|reflexivity].
  apply writes_snoc_other, He.
Qed.

Lemma quiet_new_Promise : preserves quiet new_Promise.
Proof. intros w. repeat split. Qed.

Lemma quiet_return_promise : preserves quiet return_promise.
Proof. intros w. unfold return_promise. destruct (promise w); repeat split. Qed.

Lemma quiet_set_storageInfoObjects (l : list storageInfoDataset) (w : world) :
  quiet w (set_storageInfoObjects l w).
Proof. repeat split. Qed.

Lemma quiet_update_storage_at (i : nat) (f : storageInfoDataset -> storageInfoDataset) :
  preserves quiet (update_storage_at i f).
Proof.
  intros w. unfold update_storage_at.
  destruct (storageInfoObjects (device w) !! i); repeat split.
Qed.

Lemma quiet_storage_at (i : nat) : preserves quiet (storage_at i).
Proof.
  intros w. unfold storage_at. destruct (storageInfoObjects (device w) !! i); repeat split.
Qed.

Lemma quiet_update_object_at (i j : nat) (f : ObjectInfoDataset -> ObjectInfoDataset) :
  preserves quiet (update_object_at i j f).
Proof.
  unfold update_object_at.
  quiet_step; [apply quiet_storage_at|].
  destruct (objectInfoObjects a !! j); [apply quiet_update_storage_at | quiet_step].
Qed.

Lemma quiet_getPacket : preserves quiet getPacket.
Proof.
  unfold getPacket. quiet_step; [apply preserves_settle, quiet_transferIn|].
  destruct a; quiet_step.
Qed.

Lemma quiet_receivePackets (n : nat) : preserves quiet (receivePackets n).
Proof.
  unfold receivePackets. quiet_step; [|quiet_step].
  induction n as [|n IH]; cbn [receivePackets_issue]; [quiet_step|].
  quiet_step; [apply preserves_settle, quiet_getPacket|].
  quiet_step; [exact IH | quiet_step].
Qed.

Lemma quiet_set_sessionOpen (b : bool) : preserves quiet (set_sessionOpen b).
Proof. intros w. repeat split. Qed.

Lemma quiet_add_audioCopyBytes (n : Z) : preserves quiet (add_audioCopyBytes n).
Proof. intros w. repeat split. Qed.

Lemma quiet_set_audioCopyTotalBytes (n : Z) : preserves quiet (set_audioCopyTotalBytes n).
Proof. intros w. unfold set_audioCopyTotalBytes. destruct (lenaDevice w); repeat split. Qed.

Lemma quiet_Array_of_length (n : Z) : preserves quiet (Array_of_length n).
Proof. unfold Array_of_length. apply preserves_if; quiet_step. Qed.

Lemma quiet_modify (f : world -> world) : (forall w, quiet w (f w)) -> preserves quiet (modify f).
Proof. intros H w. apply H. Qed.

Lemma quiet_push_storage (s : storageInfoDataset) (w : world) :
  quiet w (push_storageInfoObject s w).
Proof. repeat split. Qed.

Lemma quiet_getStorageIDS_then (pkts : list (list Z)) : preserves quiet (getStorageIDS_then pkts).
Proof.
  unfold getStorageIDS_then.
  destruct (if packet_code (nth 0 pkts []) =? MTP_GET_STORAGE_IDS then _ else _) as [b1 b2].
  apply preserves_if; [|quiet_step].
  quiet_step; [apply quiet_modify, quiet_set_storageInfoObjects|].
  quiet_step; [|apply quiet_resolve].
  apply quiet_modify. intros w.
  apply for_loop_rel; [exact quiet_refl | exact quiet_trans |].
  intros i w0. apply quiet_push_storage.
Qed.

Lemma quiet_deleteFile_then (pkts : list (list Z)) : preserves quiet (deleteFile_then pkts).
Proof. unfold deleteFile_then. apply preserves_if; [apply quiet_resolve | quiet_step]. Qed.

Lemma quiet_uploadFile_then (pkts : list (list Z)) : preserves quiet (uploadFile_then pkts).
Proof. unfold uploadFile_then. apply preserves_if; [apply quiet_resolve | quiet_step]. Qed.

Lemma quiet_uploadFileInfo_then (pkts : list (list Z)) :
  preserves quiet (uploadFileInfo_then pkts).
Proof.
  unfold uploadFileInfo_then.
  destruct (if packet_code (nth 0 pkts []) =? SEND_OBJECT_INFO then _ else _) as [b1 b2].
  apply preserves_if; [apply quiet_resolve | quiet_step].
Qed.

Lemma quiet_getStorageInfo_then (i : nat) (pkts : list (list Z)) :
  preserves quiet (getStorageInfo_then i pkts).
Proof.
  unfold getStorageInfo_then. destruct (demux MTP_GET_STORAGE_INFO pkts) as [b1 b2].
  apply preserves_if; [|quiet_step].
  quiet_step; [apply quiet_update_storage_at | apply quiet_resolve].
Qed.

Lemma quiet_getFileObjects_then (i : nat) (pkts : list (list Z)) :
  preserves quiet (getFileObjects_then i pkts).
Proof.
  unfold getFileObjects_then. destruct (demux GET_OBJECT_HANDLES pkts) as [b1 b2].
  apply preserves_if; [|quiet_step].
  quiet_step; [apply quiet_update_storage_at|].
  quiet_step; [|apply quiet_resolve].
  apply preserves_for_each; [exact quiet_refl | exact quiet_trans |].
  intros k. apply quiet_update_storage_at.
Qed.

Lemma quiet_parse_file_name (buf : list Z) : preserves quiet (parse_file_name buf).
Proof.
  unfold parse_file_name, new_name_array. quiet_step; [|quiet_step].
  apply preserves_if; quiet_step.
Qed.

Lemma quiet_getFileObjectInfo_then (i j : nat) (pkts : list (list Z)) :
  preserves quiet (getFileObjectInfo_then i j pkts).
Proof.
  unfold getFileObjectInfo_then. destruct (demux GET_OBJECT_INFO pkts) as [b1 b2].
  apply preserves_if; [|quiet_step].
  quiet_step; [apply quiet_parse_file_name|].
  quiet_step; [apply quiet_update_object_at|].
  quiet_step; [apply quiet_update_object_at | apply quiet_resolve].
Qed.

Lemma quiet_download_loop (range : list Z) (st : list Z * Z) :
  preserves quiet (download_loop range st).
Proof.
  revert st. induction range as [|i range IH]; intros st; cbn [download_loop]; [quiet_step|].
  quiet_step; [|apply IH].
  unfold download_step. quiet_step; [apply quiet_transferIn|].
  apply preserves_if; [|quiet_step].
  quiet_step; [apply quiet_log_event; intros ?; discriminate|].
  quiet_step; [apply quiet_add_audioCopyBytes | quiet_step].
Qed.

Lemma quiet_downloadAudioFile_then (pkts : list (list Z)) :
  preserves quiet (downloadAudioFile_then pkts).
Proof.
  unfold downloadAudioFile_then. apply preserves_if; [|quiet_step].
  quiet_step; [apply quiet_set_audioCopyTotalBytes|].
  quiet_step; [apply quiet_Array_of_length|].
  quiet_step; [apply quiet_download_loop|].
  destruct a1 as [ob bc].
  quiet_step; [apply quiet_add_audioCopyBytes|].
  quiet_step; [apply quiet_log_event; intros ?; discriminate|].
  quiet_step; [apply quiet_transferIn|].
  quiet_step; [apply quiet_resolve|].
  quiet_step; [apply quiet_log_event; intros ?; discriminate | apply quiet_add_audioCopyBytes].
Qed.

Lemma quiet_downloadFile_loop (range : list Z) (ob : list Z) :
  preserves quiet (downloadFile_loop range ob).
Proof.
  revert ob. induction range as [|i range IH]; intros ob; cbn [downloadFile_loop]; [quiet_step|].
  quiet_step; [|apply IH].
  unfold downloadFile_step. quiet_step; [apply quiet_transferIn | quiet_step].
Qed.

Lemma quiet_downloadFile_then (pkts : list (list Z)) : preserves quiet (downloadFile_then pkts).
Proof.
  unfold downloadFile_then. apply preserves_if; [|quiet_step].
  quiet_step; [apply quiet_Array_of_length|].
  quiet_step; [apply quiet_downloadFile_loop|].
  quiet_step; [apply quiet_transferIn | apply quiet_resolve].
Qed.

(** A handler attached with [then] and [catch]. *)
Lemma quiet_handler {A} (results : result A) (h : A -> M unit) :
  (forall a, preserves quiet (h a)) ->
  preserves quiet (catch_ (a ← await results; h a) (resolve (VBool false))).
Proof.
  intros Hh. quiet_step; [|apply quiet_resolve].
  quiet_step; [quiet_step | apply Hh].
Qed.

(** Writers keep the transaction counter. *)
Lemma same_tx_sendPacket (p : list Z) : preserves same_tx (sendPacket p).
Proof. intros w. unfold sendPacket, transferOut. destruct (bulk_out w (out_pos w)); reflexivity. Qed.

Lemma same_tx_uploadFile_loop (fileBytes container : list Z) (i : Z) :
  preserves same_tx (uploadFile_loop fileBytes container i).
Proof.
  remember (Z.to_nat (Z.of_nat (length fileBytes) - i)) as m eqn:Hm.
  revert i Hm. induction m as [m IH] using lt_wf_ind. intros i Hm.
  rewrite uploadFile_loop_equation_1.
  destruct (Z_lt_dec i (Z.of_nat (length fileBytes))) as [Hlt | Hge];
    cbn [uploadFile_loop_unfold_clause_1]; [|apply preserves_ret, same_tx_refl].
  cbv zeta.
  apply preserves_bind; [exact same_tx_trans | destruct (i =? 0); apply same_tx_sendPacket |].
  intros _. eapply IH; [|reflexivity].
  unfold MTP_PACKET_MAX_SIZE.
  destruct (Z.ltb_spec (Z.of_nat (length fileBytes)) (i + 512));
    [| destruct (Z.eqb_spec i 0)]; lia.
Qed.

(** The run of an operation of the common shape. *)
Lemma exchange_unfold {A} (R : M A) (S : Z -> M unit) (H : result A -> M unit) (w : world) :
  exchange R S H w
  = let w2 := next_transaction (snd (R w)) in
    let sw := S (transactionID (device w2)) w2 in
    let w4 := snd (H (fst (R w)) (snd sw)) in
    match fst sw with
    | Ok _ => return_promise w4
    | Throw => (Throw, w4)
    | Hang => (Hang, w4)
    end.
Proof.
  unfold exchange, next_transaction.
  unfold mbind, M_bind, settle, new_Promise, modify, pre_incr_transactionID, await.
  destruct (R w) as [r w1]. cbn [fst snd].
  set (w2 := with_device _ (with_promise None w1)).
  change (transactionID (device w2)) with (transactionID (device w1) + 1).
  change (transactionID (device (with_promise None w1))) with (transactionID (device w1)).
  destruct (S (transactionID (device w1) + 1) w2) as [s w3].
  cbn [fst snd]. destruct (H r w3) as [h w4]. cbn [fst snd].
  destruct s; reflexivity.
Qed.

Lemma snd_return_promise (w : world) : snd (return_promise w) = w.
Proof. unfold return_promise. destruct (promise w); reflexivity. Qed.

Lemma exchange_state {A} (R : M A) (S : Z -> M unit) (H : result A -> M unit) (w : world) :
  snd (exchange R S H w)
  = snd (H (fst (R w))
           (snd (S (transactionID (device (next_transaction (snd (R w)))))
                   (next_transaction (snd (R w)))))).
Proof.
  rewrite exchange_unfold. cbv zeta.
  destruct (fst (S _ _)); [apply snd_return_promise | reflexivity ..].
Qed.

Lemma next_transaction_quiet_but_tx (w : world) :
  bulk_out (next_transaction w) = bulk_out w
  /\ out_pos (next_transaction w) = out_pos w
  /\ writes (log (next_transaction w)) = writes (log w)
  /\ transactionID (device (next_transaction w)) = transactionID (device w) + 1
  /\ storageInfoObjects (device (next_transaction w)) = storageInfoObjects (device w)
  /\ bulk_in (next_transaction w) = bulk_in w
  /\ in_pos (next_transaction w) = in_pos w
  /\ promise (next_transaction w) = None.
Proof. repeat split. Qed.

(** The transaction counter after an operation of the common shape. *)
Lemma exchange_tx {A} (R : M A) (S : Z -> M unit) (H : result A -> M unit) (w : world) :
  preserves quiet R ->
  (forall t, preserves same_tx (S t)) ->
  (forall r, preserves quiet (H r)) ->
  transactionID (device (snd (exchange R S H w))) = transactionID (device w) + 1.
Proof.
  intros HR HS HH. rewrite exchange_state.
  destruct (HH (fst (R w))
               (snd (S (transactionID (device (next_transaction (snd (R w)))))
                       (next_transaction (snd (R w)))))) as (_ & _ & _ & ->).
  rewrite (HS _ (next_transaction (snd (R w)))).
  destruct (next_transaction_quiet_but_tx (snd (R w))) as (_ & _ & _ & -> & _).
  destruct (HR w) as (_ & _ & _ & ->). reflexivity.
Qed.

(** The packets written by an operation whose writer sends one packet. *)
Lemma exchange_writes_one {A} (R : M A) (cmd : Z -> list Z) (H : result A -> M unit)
    (w : world) :
  preserves quiet R ->
  (forall r, preserves quiet (H r)) ->
  writes (log (snd (exchange R (fun tx => sendPacket (cmd tx)) H w)))
  = writes (log w) ++ [cmd (transactionID (device w) + 1)].
Proof.
  intros HR HH. rewrite exchange_state.
  destruct (HH (fst (R w))
               (snd (sendPacket (cmd (transactionID (device (next_transaction (snd (R w))))))
                       (next_transaction (snd (R w)))))) as (_ & _ & -> & _).
  destruct (next_transaction_quiet_but_tx (snd (R w))) as (_ & _ & Hw & Ht & _).
  rewrite Ht. destruct (HR w) as (_ & _ & Hw1 & ->).
  unfold sendPacket, transferOut.
  destruct (bulk_out _ _); cbn [snd next_out with_log log];
    rewrite writes_app, Hw, Hw1; reflexivity.
Qed.
Lemma getStorageIDS_shape :
  getStorageIDS
  = exchange (receivePackets 2)
      (fun tx => sendPacket (command_packet MTP_GET_STORAGE_IDS tx []))
      (handler getStorageIDS_then).
Proof. reflexivity. Qed.

Lemma deleteFile_shape (o : ObjectInfoDataset) :
  deleteFile (Some o)
  = exchange (receivePackets 1)
      (fun tx => sendPacket (command_packet MTP_DELETE_OBJECT tx [default 0 (fileID o); 0]))
      (handler deleteFile_then).
Proof. reflexivity. Qed.

Lemma downloadFile_shape (o : ObjectInfoDataset) :
  downloadFile (Some o)
  = exchange (receivePackets 1)
      (fun tx => sendPacket (command_packet GET_OBJECT tx [default 0 (fileID o)]))
      (handler downloadFile_then).
Proof. reflexivity. Qed.

Lemma downloadAudioFile_shape (o : ObjectInfoDataset) :
  downloadAudioFile (Some o)
  = exchange (receivePackets 1)
      (fun tx => sendPacket (command_packet GET_OBJECT tx [default 0 (fileID o)]))
      (handler downloadAudioFile_then).
Proof. reflexivity. Qed.

Lemma preserves_defined {A} (Rel : world -> world -> Prop) (x : option A) :
  (forall w, Rel w w) -> preserves Rel (defined x).
Proof. intros Hr w. destruct x; apply Hr. Qed.

Lemma downloadFile_shape_any (fileObject : option ObjectInfoDataset) :
  downloadFile fileObject
  = exchange (receivePackets 1)
      (fun tx => o ← defined fileObject;
                 sendPacket (command_packet GET_OBJECT tx [default 0 (fileID o)]))
      (handler downloadFile_then).
Proof. reflexivity. Qed.

Lemma downloadAudioFile_shape_any (fileObject : option ObjectInfoDataset) :
  downloadAudioFile fileObject
  = exchange (receivePackets 1)
      (fun tx => o ← defined fileObject;
                 sendPacket (command_packet GET_OBJECT tx [default 0 (fileID o)]))
      (handler downloadAudioFile_then).
Proof. reflexivity. Qed.

(** [deleteFile(undefined)]: the body throws at its first statement, so the
    call rejects; the reads were issued and their handler still runs. *)
Lemma deleteFile_undefined (w : world) :
  deleteFile None w
  = (Throw, snd (handler deleteFile_then (fst (receivePackets 1 w))
                   (snd (new_Promise (snd (receivePackets 1 w)))))).
Proof.
  unfold deleteFile, defined, handler, mbind, M_bind, settle, throw, await.
  destruct (receivePackets 1 w) as [r w1]. cbn [fst snd].
  destruct (new_Promise w1) as [[[]| |] w2] eqn:E; cbn in E; try discriminate.
  cbn [fst snd].
  destruct (catch_ _ _ w2) as [c w3]. reflexivity.
Qed.

Lemma preserves_deleteFile_undefined (Rel : world -> world -> Prop) :
  (forall w, Rel w w) ->
  (forall w1 w2 w3, Rel w1 w2 -> Rel w2 w3 -> Rel w1 w3) ->
  preserves Rel (receivePackets 1) ->
  preserves Rel new_Promise ->
  (forall r, preserves Rel (handler deleteFile_then r)) ->
  preserves Rel (deleteFile None).
Proof.
  intros Hr Ht HR HP HH w. rewrite deleteFile_undefined. cbn [snd].
  eapply Ht; [apply HR|]. eapply Ht; [apply HP|]. apply HH.
Qed.

Lemma getStorageInfo_shape (i : nat) :
  getStorageInfo i
  = exchange (receivePackets 2)
      (fun tx => s ← storage_at i;
                 sendPacket (command_packet MTP_GET_STORAGE_INFO tx [storageID s]))
      (handler (getStorageInfo_then i)).
Proof. reflexivity. Qed.

Lemma getFileObjects_shape (i : nat) :
  getFileObjects i
  = exchange (receivePackets 2)
      (fun tx => s ← storage_at i;
                 sendPacket (command_packet GET_OBJECT_HANDLES tx
                               [storageID s; 0; GET_ROOT_OBJECTS]))
      (handler (getFileObjects_then i)).
Proof. reflexivity. Qed.

Lemma getFileObjectInfo_shape (i j : nat) :
  getFileObjectInfo i j
  = (_ ← storage_at i;
     exchange (receivePackets 2)
       (fun tx => o ← object_at i j;
                  sendPacket (command_packet GET_OBJECT_INFO tx [default 0 (fileID o)]))
       (handler (getFileObjectInfo_then i j))).
Proof. reflexivity. Qed.

Lemma uploadFile_shape (fileBytes : list Z) :
  uploadFile fileBytes
  = exchange (receivePackets 2)
      (fun tx =>
         sendPacket (command_packet SEND_OBJECT tx []);;
         uploadFile_loop fileBytes
           (data_header SEND_OBJECT tx (MTP_CONTAINER_ARRAY_LEN + Z.of_nat (length fileBytes)))
           0)
      (handler uploadFile_then).
Proof. reflexivity. Qed.

Lemma quiet_handler' {A} (h : A -> M unit) (results : result A) :
  (forall a, preserves quiet (h a)) -> preserves quiet (handler h results).
Proof. apply quiet_handler. Qed.

Lemma same_tx_storage_at (i : nat) : preserves same_tx (storage_at i).
Proof. apply quiet_same_tx, quiet_storage_at. Qed.

Lemma same_tx_with_storage {B} (i : nat) (k : storageInfoDataset -> M B) :
  (forall s, preserves same_tx (k s)) -> preserves same_tx (s ← storage_at i; k s).
Proof.
  intros Hk. apply preserves_bind; [exact same_tx_trans | apply same_tx_storage_at | exact Hk].
Qed.

Lemma same_tx_object_at (i j : nat) : preserves same_tx (object_at i j).
Proof.
  unfold object_at. apply same_tx_with_storage. intros s.
  destruct (objectInfoObjects s !! j);
    [apply preserves_ret | apply preserves_throw]; exact same_tx_refl.
Qed.

Lemma tx_after_exchange {A} (R : M A) (S : Z -> M unit) (H : result A -> M unit) (w : world) :
  preserves quiet R ->
  (forall t, preserves same_tx (S t)) ->
  (forall r, preserves quiet (H r)) ->
  tx_after (exchange R S H) w = transactionID (device w) + 1.
Proof. apply exchange_tx. Qed.

Lemma tx_after_closeSession (w : world) :
  tx_after closeSession w = transactionID (device w) + 1.
Proof.
  destruct w as [[so sid sl tx] ld bi ip bo op lg pr].
  unfold tx_after, closeSession, closeSession_then. run_op.
  destruct (bi ip) as [data| |]; run_op; destruct (bo op); run_op;
    try destruct (packet_code data =? MTP_OK); reflexivity.
Qed.

Lemma tx_after_openSession (w : world) : tx_after openSession w = transactionID (device w).
Proof.
  destruct w as [[so sid sl tx] ld bi ip bo op lg pr].
  unfold tx_after, openSession, openSession_then. run_op.
  destruct (bi ip) as [data| |]; run_op; destruct (bo op); run_op;
    try destruct ((packet_code data =? MTP_OK) || (packet_code data =? SESSION_ALREADY_OPEN));
    reflexivity.
Qed.

Lemma uploadFileInfo_shape (storageObject : storageInfoDataset) (filename : list Z) (fileSize : Z) :
  uploadFileInfo storageObject filename fileSize
  = exchange (receivePackets 2)
      (fun tx =>
         sendPacket (command_packet SEND_OBJECT_INFO tx [storageID storageObject; PLACE_IN_ROOT]);;
         sendPacket (object_info_packet tx filename fileSize))
      (fun result => receivedPackets ← await result; uploadFileInfo_then receivedPackets).
Proof. reflexivity. Qed.

(** X3: every operation that sends a Command after [openSession] takes the next
    transaction id, whatever the device answers and whether or not the
    transfers succeed; [openSession] itself leaves the counter alone, and
    two calls stop before they get that far: [getFileObjectInfo] on a
    storage record that is not there, and [deleteFile] handed [undefined]
    where a file record is expected.  The downloads handed [undefined] have
    taken the id by the time they throw. *)
Theorem transaction_id_advances (w : world) :
  let tx := transactionID (device w) in
  tx_after openSession w = tx
  /\ tx_after closeSession w = tx + 1
  /\ tx_after getStorageIDS w = tx + 1
  /\ (forall i, tx_after (getStorageInfo i) w = tx + 1)
  /\ (forall i, tx_after (getFileObjects i) w = tx + 1)
  /\ (forall i j, tx_after (getFileObjectInfo i j) w
                  = match storageInfoObjects (device w) !! i with
                    | Some _ => tx + 1
                    | None => tx
                    end)
  /\ (forall fileObject, tx_after (deleteFile fileObject) w
                         = match fileObject with
                           | Some _ => tx + 1
                           | None => tx
                           end)
  /\ (forall fileObject, tx_after (downloadFile fileObject) w = tx + 1)
  /\ (forall fileObject, tx_after (downloadAudioFile fileObject) w = tx + 1)
  /\ (forall fileBytes, tx_after (uploadFile fileBytes) w = tx + 1)
  /\ (forall s filename fileSize, tx_after (uploadFileInfo s filename fileSize) w = tx + 1).
Proof.
  cbv zeta.
  split; [apply tx_after_openSession|].
  split; [apply tx_after_closeSession|].
  split.
  { rewrite getStorageIDS_shape. apply tx_after_exchange;
      [apply quiet_receivePackets | intros t; apply same_tx_sendPacket
      | intros r; apply quiet_handler, quiet_getStorageIDS_then]. }
  split.
  { intros i. rewrite getStorageInfo_shape. apply tx_after_exchange;
      [apply quiet_receivePackets
      | intros t; apply same_tx_with_storage; intros s; apply same_tx_sendPacket
      | intros r; apply quiet_handler, quiet_getStorageInfo_then]. }
  split.
  { intros i. rewrite getFileObjects_shape. apply tx_after_exchange;
      [apply quiet_receivePackets
      | intros t; apply same_tx_with_storage; intros s; apply same_tx_sendPacket
      | intros r; apply quiet_handler, quiet_getFileObjects_then]. }
  split.
  { intros i j. rewrite getFileObjectInfo_shape. unfold tx_after.
    unfold mbind at 1, M_bind at 1, storage_at at 1.
    destruct (storageInfoObjects (device w) !! i) as [s|]; [|reflexivity].
    apply exchange_tx;
      [apply quiet_receivePackets
      | intros t; apply preserves_bind;
          [exact same_tx_trans | apply same_tx_object_at | intros o; apply same_tx_sendPacket]
      | intros r; apply quiet_handler, quiet_getFileObjectInfo_then]. }
  split.
  { intros [o|].
    - rewrite deleteFile_shape. apply tx_after_exchange;
        [apply quiet_receivePackets | intros t; apply same_tx_sendPacket
        | intros r; apply quiet_handler, quiet_deleteFile_then].
    - apply (preserves_deleteFile_undefined quiet quiet_refl quiet_trans);
        [apply quiet_receivePackets | apply quiet_new_Promise
        | intros r; apply quiet_handler, quiet_deleteFile_then]. }
  split.
  { intros fileObject. rewrite downloadFile_shape_any. apply tx_after_exchange;
      [apply quiet_receivePackets
      | intros t; apply preserves_bind;
          [exact same_tx_trans | apply preserves_defined, same_tx_refl
          | intros o; apply same_tx_sendPacket]
      | intros r; apply quiet_handler, quiet_downloadFile_then]. }
  split.
  { intros fileObject. rewrite downloadAudioFile_shape_any. apply tx_after_exchange;
      [apply quiet_receivePackets
      | intros t; apply preserves_bind;
          [exact same_tx_trans | apply preserves_defined, same_tx_refl
          | intros o; apply same_tx_sendPacket]
      | intros r; apply quiet_handler, quiet_downloadAudioFile_then]. }
  split.
  { intros fileBytes. rewrite uploadFile_shape. apply tx_after_exchange;
      [apply quiet_receivePackets
      | intros t; apply preserves_bind;
          [exact same_tx_trans | apply same_tx_sendPacket
          | intros _; apply same_tx_uploadFile_loop]
      | intros r; apply quiet_handler, quiet_uploadFile_then]. }
  intros s filename fileSize. rewrite uploadFileInfo_shape. apply tx_after_exchange;
    [apply quiet_receivePackets
    | intros t; apply preserves_bind;
        [exact same_tx_trans | apply same_tx_sendPacket | intros _; apply same_tx_sendPacket]
    | intros r; apply preserves_bind;
        [exact quiet_trans | apply preserves_await; exact quiet_refl
        | intros a; apply quiet_uploadFileInfo_then]].
Qed.
Lemma same_device_refl (w : world) : same_device w w.
Proof. reflexivity. Qed.

Lemma same_device_trans (w1 w2 w3 : world) :
  same_device w1 w2 -> same_device w2 w3 -> same_device w1 w3.
Proof. unfold same_device. congruence. Qed.

Lemma same_device_transferIn (site : in_site) : preserves same_device (transferIn site).
Proof. intros w. unfold transferIn. destruct (bulk_in w (in_pos w)); reflexivity. Qed.

Lemma same_device_getPacket : preserves same_device getPacket.
Proof.
  unfold getPacket.
  apply preserves_bind;
    [exact same_device_trans | apply preserves_settle, same_device_transferIn |].
  intros [d| |]; [apply preserves_ret | apply preserves_hang ..]; exact same_device_refl.
Qed.

Lemma same_device_receivePackets (n : nat) : preserves same_device (receivePackets n).
Proof.
  unfold receivePackets.
  apply preserves_bind;
    [exact same_device_trans | | intros rs; apply preserves_await; exact same_device_refl].
  induction n as [|n IH]; cbn [receivePackets_issue];
    [apply preserves_ret; exact same_device_refl|].
  apply preserves_bind;
    [exact same_device_trans | apply preserves_settle, same_device_getPacket | intros r].
  apply preserves_bind; [exact same_device_trans | exact IH | intros rs].
  apply preserves_ret; exact same_device_refl.
Qed.

Lemma written_by_app {A} (op : M A) (w : world) (pkts : list (list Z)) :
  writes (log (snd (op w))) = writes (log w) ++ pkts -> written_by op w = pkts.
Proof. intros H. unfold written_by. rewrite H. apply drop_app_length. Qed.

Lemma written_by_exchange_one {A} (R : M A) (cmd : Z -> list Z) (H : result A -> M unit)
    (w : world) :
  preserves quiet R ->
  (forall r, preserves quiet (H r)) ->
  written_by (exchange R (fun tx => sendPacket (cmd tx)) H) w
  = [cmd (transactionID (device w) + 1)].
Proof. intros HR HH. apply written_by_app, exchange_writes_one; assumption. Qed.

Lemma written_by_closeSession (w : world) :
  written_by closeSession w = [command_packet CLOSE_SESSION (transactionID (device w) + 1) []].
Proof.
  apply written_by_app.
  destruct w as [[so sid sl tx] ld bi ip bo op lg pr].
  unfold closeSession, closeSession_then. run_op.
  destruct (bi ip) as [data| |]; run_op; destruct (bo op); run_op;
    try destruct (packet_code data =? MTP_OK);
    run_op; rewrite !writes_app, <- ?app_assoc; reflexivity.
Qed.

(** An exchange whose writer throws before it writes. *)
Lemma written_by_exchange_throw {A} (R : M A) (H : result A -> M unit) (w : world) :
  preserves quiet R ->
  (forall r, preserves quiet (H r)) ->
  written_by (exchange R (fun _ => throw) H) w = [].
Proof.
  intros HR HH. apply written_by_app. rewrite exchange_state.
  destruct (HH (fst (R w))
               (snd (@throw unit (next_transaction (snd (R w)))))) as (_ & _ & -> & _).
  cbn [throw snd].
  destruct (next_transaction_quiet_but_tx (snd (R w))) as (_ & _ & Hw & _).
  rewrite Hw, app_nil_r. apply (HR w).
Qed.

(** X4: whatever the device answers, each of these operations writes exactly one
    packet: the Command for its operation code with the next transaction id
    and its parameters.  [deleteFile] declares two parameters, the object
    handle and a zero; [closeSession] writes its Command although it does
    not wait for the write.  [deleteFile] and the downloads take a file
    record; handed [undefined] they throw before the write and no packet
    goes out. *)
Theorem single_command_on_wire (w : world) :
  let tx := transactionID (device w) + 1 in
  written_by closeSession w = [command_packet CLOSE_SESSION tx []]
  /\ written_by getStorageIDS w = [command_packet MTP_GET_STORAGE_IDS tx []]
  /\ (forall fileObject,
        written_by (deleteFile fileObject) w
        = match fileObject with
          | Some o => [command_packet MTP_DELETE_OBJECT tx [default 0 (fileID o); 0]]
          | None => []
          end)
  /\ (forall fileObject,
        written_by (downloadFile fileObject) w
        = match fileObject with
          | Some o => [command_packet GET_OBJECT tx [default 0 (fileID o)]]
          | None => []
          end)
  /\ (forall fileObject,
        written_by (downloadAudioFile fileObject) w
        = match fileObject with
          | Some o => [command_packet GET_OBJECT tx [default 0 (fileID o)]]
          | None => []
          end).
Proof.
  cbv zeta.
  split; [apply written_by_closeSession|].
  split.
  { rewrite getStorageIDS_shape.
    apply (written_by_exchange_one _ (fun tx => command_packet MTP_GET_STORAGE_IDS tx []));
      [apply quiet_receivePackets | intros r; apply quiet_handler, quiet_getStorageIDS_then]. }
  split.
  { intros [o|].
    - rewrite deleteFile_shape.
      apply (written_by_exchange_one _
               (fun tx => command_packet MTP_DELETE_OBJECT tx [default 0 (fileID o); 0]));
        [apply quiet_receivePackets | intros r; apply quiet_handler, quiet_deleteFile_then].
    - apply written_by_app. rewrite app_nil_r.
      apply (preserves_deleteFile_undefined quiet quiet_refl quiet_trans);
        [apply quiet_receivePackets | apply quiet_new_Promise
        | intros r; apply quiet_handler, quiet_deleteFile_then]. }
  split.
  { intros [o|].
    - rewrite downloadFile_shape.
      apply (written_by_exchange_one _
               (fun tx => command_packet GET_OBJECT tx [default 0 (fileID o)]));
        [apply quiet_receivePackets | intros r; apply quiet_handler, quiet_downloadFile_then].
    - rewrite downloadFile_shape_any. apply written_by_exchange_throw;
        [apply quiet_receivePackets | intros r; apply quiet_handler, quiet_downloadFile_then]. }
  intros [o|].
  - rewrite downloadAudioFile_shape.
    apply (written_by_exchange_one _
             (fun tx => command_packet GET_OBJECT tx [default 0 (fileID o)]));
      [apply quiet_receivePackets | intros r; apply quiet_handler, quiet_downloadAudioFile_then].
  - rewrite downloadAudioFile_shape_any. apply written_by_exchange_throw;
      [apply quiet_receivePackets | intros r; apply quiet_handler, quiet_downloadAudioFile_then].
Qed.

(** The state in which the writer of an exchange runs. *)
Lemma writer_state {A} (R : M A) (w : world) :
  preserves quiet R -> preserves same_device R ->
  let w2 := next_transaction (snd (R w)) in
  transactionID (device w2) = transactionID (device w) + 1
  /\ storageInfoObjects (device w2) = storageInfoObjects (device w)
  /\ writes (log w2) = writes (log w).
Proof.
  intros HR HD. cbv zeta.
  destruct (next_transaction_quiet_but_tx (snd (R w))) as (_ & _ & Hw & Ht & Hs & _).
  rewrite Ht, Hs, Hw. rewrite (HD w).
  destruct (HR w) as (_ & _ & -> & _). auto.
Qed.

(** The packets written by an exchange: those its writer writes. *)
Lemma exchange_writes {A} (R : M A) (S : Z -> M unit) (H : result A -> M unit) (w : world) :
  (forall r, preserves quiet (H r)) ->
  writes (log (snd (exchange R S H w)))
  = writes (log (snd (S (transactionID (device (next_transaction (snd (R w)))))
                        (next_transaction (snd (R w)))))).
Proof.
  intros HH. rewrite exchange_state.
  destruct (HH (fst (R w))
               (snd (S (transactionID (device (next_transaction (snd (R w)))))
                       (next_transaction (snd (R w)))))) as (_ & _ & -> & _).
  reflexivity.
Qed.

Lemma exchange_result {A} (R : M A) (S : Z -> M unit) (H : result A -> M unit) (w : world) :
  fst (exchange R S H w)
  = match fst (S (transactionID (device (next_transaction (snd (R w)))))
                 (next_transaction (snd (R w)))) with
    | Ok _ => fst (return_promise (snd (exchange R S H w)))
    | Throw => Throw
    | Hang => Hang
    end.
Proof.
  rewrite exchange_state. rewrite exchange_unfold. cbv zeta.
  destruct (fst (S _ _)); reflexivity.
Qed.

Lemma writes_sendPacket (p : list Z) (w : world) :
  writes (log (snd (sendPacket p w))) = writes (log w) ++ [p].
Proof.
  unfold sendPacket, transferOut.
  destruct (bulk_out w (out_pos w)); cbn [snd next_out with_log log]; apply writes_app.
Qed.

(** X5: the Commands of the operations that are handed a record of the local
    lists carry what the record holds: the storage id, or the object
    handle.  GetObjectHandles asks for the root objects of all formats. *)
Theorem record_command_on_wire (w : world) (i : nat) (s : storageInfoDataset) :
  storageInfoObjects (device w) !! i = Some s ->
  let tx := transactionID (device w) + 1 in
  written_by (getStorageInfo i) w = [command_packet MTP_GET_STORAGE_INFO tx [storageID s]]
  /\ written_by (getFileObjects i) w
     = [command_packet GET_OBJECT_HANDLES tx [storageID s; 0; 0xffffffff]]
  /\ (forall j o, objectInfoObjects s !! j = Some o ->
        written_by (getFileObjectInfo i j) w
        = [command_packet GET_OBJECT_INFO tx [default 0 (fileID o)]]).
Proof.
  intros Hs. cbv zeta.
  destruct (writer_state (receivePackets 2) w (quiet_receivePackets 2)
              (same_device_receivePackets 2)) as (Ht & Hl & Hw).
  split; [|split].
  - apply written_by_app. rewrite getStorageInfo_shape.
    rewrite exchange_writes by (intros r; apply quiet_handler, quiet_getStorageInfo_then).
    unfold mbind at 1, M_bind at 1, storage_at at 1. rewrite Hl, Hs, Ht.
    rewrite writes_sendPacket, Hw. reflexivity.
  - apply written_by_app. rewrite getFileObjects_shape.
    rewrite exchange_writes by (intros r; apply quiet_handler, quiet_getFileObjects_then).
    unfold mbind at 1, M_bind at 1, storage_at at 1. rewrite Hl, Hs, Ht.
    rewrite writes_sendPacket, Hw. reflexivity.
  - intros j o Ho. apply written_by_app. rewrite getFileObjectInfo_shape.
    unfold mbind at 1, M_bind at 1, storage_at at 1. rewrite Hs.
    rewrite exchange_writes by (intros r; apply quiet_handler, quiet_getFileObjectInfo_then).
    unfold object_at, mbind, M_bind, storage_at. rewrite Hl, Hs, Ho, Ht.
    unfold mret, M_ret. rewrite writes_sendPacket, Hw. reflexivity.
Qed.

Lemma record_command_on_wire_witness :
  written_by (getStorageInfo 0) (world_of example_device None (fun _ => XferPending) all_ok)
  = [command_packet MTP_GET_STORAGE_INFO 9 [0x00010001]].
Proof.
  exact (proj1 (record_command_on_wire
                  (world_of example_device None (fun _ => XferPending) all_ok) 0 _ eq_refl)).
Defined.

(** X6: an operation that is handed [undefined] for its storage record (or,
    for [getFileObjectInfo], for its file record) rejects without writing
    anything, whatever the device would have answered. *)
Theorem missing_record_rejects (w : world) (i : nat) :
  storageInfoObjects (device w) !! i = None ->
  (fst (getStorageInfo i w) = Throw /\ written_by (getStorageInfo i) w = [])
  /\ (fst (getFileObjects i w) = Throw /\ written_by (getFileObjects i) w = [])
  /\ (forall j, getFileObjectInfo i j w = (Throw, w)).
Proof.
  intros Hs.
  destruct (writer_state (receivePackets 2) w (quiet_receivePackets 2)
              (same_device_receivePackets 2)) as (Ht & Hl & Hw).
  split; [|split].
  - split.
    + rewrite getStorageInfo_shape, exchange_result.
      unfold mbind at 1, M_bind at 1, storage_at at 1. rewrite Hl, Hs. reflexivity.
    + apply written_by_app. rewrite getStorageInfo_shape.
      rewrite exchange_writes by (intros r; apply quiet_handler, quiet_getStorageInfo_then).
      unfold mbind at 1, M_bind at 1, storage_at at 1. rewrite Hl, Hs.
      cbn [snd]. rewrite Hw, app_nil_r. reflexivity.
  - split.
    + rewrite getFileObjects_shape, exchange_result.
      unfold mbind at 1, M_bind at 1, storage_at at 1. rewrite Hl, Hs. reflexivity.
    + apply written_by_app. rewrite getFileObjects_shape.
      rewrite exchange_writes by (intros r; apply quiet_handler, quiet_getFileObjects_then).
      unfold mbind at 1, M_bind at 1, storage_at at 1. rewrite Hl, Hs.
      cbn [snd]. rewrite Hw, app_nil_r. reflexivity.
  - intros j. rewrite getFileObjectInfo_shape.
    unfold mbind at 1, M_bind at 1, storage_at at 1. rewrite Hs. reflexivity.
Qed.

Lemma missing_record_rejects_witness :
  fst (getStorageInfo 0 (fresh_world None (fun _ => XferPending) all_ok)) = Throw.
Proof.
  exact (proj1 (proj1 (missing_record_rejects
                         (fresh_world None (fun _ => XferPending) all_ok) 0 eq_refl))).
Defined.
Lemma fold_left_map_arg {A B S : Type} (f : S -> B -> S) (g : A -> B) (l : list A) (s : S) :
  fold_left f (map g l) s = fold_left (fun acc x => f acc (g x)) l s.
Proof. revert s. induction l as [|x l IH]; intros s; [reflexivity | apply IH]. Qed.

Lemma for_loop_split {S : Type} (lo mid hi : Z) (body : Z -> S -> S) (s : S) :
  lo <= mid <= hi ->
  JS.for_loop lo hi body s = JS.for_loop mid hi body (JS.for_loop lo mid body s).
Proof.
  intros H. unfold JS.for_loop.
  replace (Z.to_nat (hi - lo)) with (Z.to_nat (mid - lo) + Z.to_nat (hi - mid))%nat by lia.
  rewrite seq_app, fold_left_app. cbn [Nat.add].
  replace (seq (Z.to_nat (mid - lo)) (Z.to_nat (hi - mid)))
    with (map (Nat.add (Z.to_nat (mid - lo))) (seq 0 (Z.to_nat (hi - mid)))).
  - rewrite fold_left_map_arg. apply fold_left_pointwise.
    intros acc k. f_equal. lia.
  - pose proof (fmap_add_seq (Z.to_nat (mid - lo)) 0 (Z.to_nat (hi - mid))) as E.
    rewrite Nat.add_0_r in E. exact E.
Qed.

Lemma for_loop_noop {S : Type} (lo hi : Z) (body : Z -> S -> S) (s : S) :
  (forall i, lo <= i < hi -> body i s = s) -> JS.for_loop lo hi body s = s.
Proof.
  intros H. unfold JS.for_loop.
  assert (forall l, Forall (fun k => lo <= lo + Z.of_nat k < hi) l ->
                    fold_left (fun acc k => body (lo + Z.of_nat k) acc) l s = s) as Hl.
  { induction l as [|k l IH]; intros Hf; [reflexivity|].
    inversion Hf; subst. cbn [fold_left]. rewrite H by assumption. apply IH. assumption. }
  apply Hl. apply Forall_forall. intros k Hk. apply elem_of_seq in Hk. lia.
Qed.

Lemma u8_store_out (arr : list Z) (i v : Z) :
  Z.of_nat (length arr) <= i -> JS.u8_store arr i v = arr.
Proof.
  intros H. unfold JS.u8_store. destruct (i <? 0); [reflexivity|].
  apply list_insert_ge. lia.
Qed.

(** The bytes of the header the upload paths put before their data. *)
Lemma data_header_bytes (op tx len : Z) :
  12 <= len ->
  data_header op tx len
  = le_bytes 4 len ++ le_bytes 2 CONTAINER_TYPE_DATA ++ le_bytes 2 op ++ le_bytes 4 tx.
Proof.
  intros Hlen. unfold data_header, pack.
  cbn [containerArrayLength parameterArrayLength container_array parameters_array type
       operation transaction_id set_containerArrayLength setTransactionType setParams
       set_parameters_array setTransactionID setOperation new_mtpPacket set_container_array].
  change (0 * 4) with 0. rewrite Z.sub_0_r.
  rewrite (for_loop_negative len len) by lia.
  rewrite (for_loop_split 8 12 len) by lia.
  rewrite (for_loop_noop 12 len).
  - cbv -[JS.band JS.sar JS.ToUint8 Z.modulo Z.div].
    rewrite ?store_sar0, ?store_sar8, ?store_sar16, ?store_sar24, ?store_byte0, ?ToUint8_mod.
    reflexivity.
  - intros i Hi. apply u8_store_out.
    cbv -[JS.band JS.sar JS.ToUint8 Z.modulo Z.div Z.le Z.lt]. cbn [length]. lia.
Qed.
Lemma sendPacket_ok (p : list Z) (w : world) :
  (forall k, bulk_out w k = OutOk) ->
  fst (sendPacket p w) = Ok tt
  /\ (forall k, bulk_out (snd (sendPacket p w)) k = OutOk)
  /\ writes (log (snd (sendPacket p w))) = writes (log w) ++ [p].
Proof.
  intros Hok. split; [|split; [|apply writes_sendPacket]].
  - unfold sendPacket, transferOut. rewrite Hok. reflexivity.
  - unfold sendPacket, transferOut. rewrite Hok. exact Hok.
Qed.

Lemma bind_ok {A B} (m : M A) (f : A -> M B) (w : world) (a : A) :
  fst (m w) = Ok a -> (m ≫= f) w = f a (snd (m w)).
Proof.
  intros H. unfold mbind, M_bind. destruct (m w) as [r w']. cbn [fst snd] in *.
  subst r. reflexivity.
Qed.

Lemma slice_as_take_drop (l : list Z) (lo hi : nat) :
  JS.slice l (Z.of_nat lo) (Z.of_nat hi) = take (hi - lo) (drop lo l).
Proof. unfold JS.slice. rewrite Nat2Z.id. f_equal. lia. Qed.

(** The packets of the Data phase after the first: they carry the rest of
    the file in order, each between 1 and 512 bytes long. *)
Lemma uploadFile_loop_rest (fileBytes container : list Z) (m : nat) :
  forall (i : nat) (w : world),
    m = (length fileBytes - i)%nat ->
    (0 < i)%nat ->
    (forall k, bulk_out w k = OutOk) ->
    exists pkts,
      writes (log (snd (uploadFile_loop fileBytes container (Z.of_nat i) w)))
      = writes (log w) ++ pkts
      /\ concat pkts = drop i fileBytes
      /\ Forall (fun p => (0 < length p <= 512)%nat) pkts.
Proof.
  induction m as [m IH] using lt_wf_ind. intros i w Hm Hi Hok.
  rewrite uploadFile_loop_equation_1.
  destruct (Z_lt_dec (Z.of_nat i) (Z.of_nat (length fileBytes))) as [Hlt | Hge];
    cbn [uploadFile_loop_unfold_clause_1].
  - cbv zeta.
    assert ((Z.of_nat i =? 0) = false) as -> by (apply Z.eqb_neq; lia).
    set (e := if Z.of_nat (length fileBytes) <? Z.of_nat i + MTP_PACKET_MAX_SIZE
              then Z.of_nat (length fileBytes) else Z.of_nat i + MTP_PACKET_MAX_SIZE).
    assert (He : exists e', e = Z.of_nat e' /\ (i < e' <= length fileBytes)%nat
                            /\ (e' - i <= 512)%nat).
    { subst e. unfold MTP_PACKET_MAX_SIZE.
      destruct (Z.ltb_spec (Z.of_nat (length fileBytes)) (Z.of_nat i + 512)).
      - exists (length fileBytes). split; [reflexivity | lia].
      - exists (i + 512)%nat. split; lia. }
    destruct He as (e' & -> & He1 & He2).
    destruct (sendPacket_ok (JS.slice fileBytes (Z.of_nat i) (Z.of_nat e')) w Hok)
      as (Hr & Hok' & Hw).
    rewrite (bind_ok _ _ _ _ Hr).
    destruct (IH (length fileBytes - e')%nat ltac:(lia) e' _ eq_refl ltac:(lia) Hok')
      as (pkts & Hp & Hc & Hf).
    exists (JS.slice fileBytes (Z.of_nat i) (Z.of_nat e') :: pkts).
    split; [|split].
    + rewrite Hp, Hw, <- app_assoc. reflexivity.
    + cbn [concat]. rewrite Hc, slice_as_take_drop.
      rewrite <- (take_drop (e' - i) (drop i fileBytes)) at 2.
      rewrite drop_drop. do 2 f_equal. lia.
    + constructor; [|exact Hf].
      rewrite slice_as_take_drop, length_take, length_drop. lia.
  - exists []. split; [rewrite app_nil_r; reflexivity|].
    split; [|constructor].
    cbn [concat]. symmetry. apply drop_ge. lia.
Qed.

Lemma map_ToUint8_bytes (l : list Z) : JS.bytesb l = true -> map JS.ToUint8 l = l.
Proof.
  induction l as [|b l IH]; [reflexivity|].
  cbn [JS.bytesb forallb]. intros H. apply andb_prop in H as [Hb Hl].
  cbn [map]. rewrite IH by exact Hl. f_equal.
  unfold JS.ToUint8. apply Z.mod_small. lia.
Qed.

Lemma bytesb_Forall (l : list Z) : JS.bytesb l = true <-> Forall (fun b => 0 <= b < 256) l.
Proof.
  unfold JS.bytesb. rewrite forallb_forall, Forall_forall. split; intros H x Hx.
  - apply list_elem_of_In in Hx. specialize (H x Hx). lia.
  - apply list_elem_of_In in Hx. specialize (H x Hx). lia.
Qed.

Lemma bytesb_take (n : nat) (l : list Z) : JS.bytesb l = true -> JS.bytesb (take n l) = true.
Proof. rewrite !bytesb_Forall. apply Forall_take. Qed.

Lemma bytesb_drop (n : nat) (l : list Z) : JS.bytesb l = true -> JS.bytesb (drop n l) = true.
Proof. rewrite !bytesb_Forall. apply Forall_drop. Qed.

Lemma bytesb_data_header (op tx len : Z) :
  12 <= len -> JS.bytesb (data_header op tx len) = true.
Proof.
  intros H. rewrite data_header_bytes by exact H.
  rewrite !bytesb_app, !bytesb_le_bytes. reflexivity.
Qed.

Lemma uploadFile_writer_run (fileBytes : list Z) (tx : Z) (w : world) :
  JS.bytesb fileBytes = true ->
  fileBytes <> [] ->
  (forall k, bulk_out w k = OutOk) ->
  let n0 := if (length fileBytes <? 512)%nat then length fileBytes else 500%nat in
  let len := MTP_CONTAINER_ARRAY_LEN + Z.of_nat (length fileBytes) in
  exists rest,
    writes (log (snd ((sendPacket (command_packet SEND_OBJECT tx []);;
                       uploadFile_loop fileBytes (data_header SEND_OBJECT tx len) 0) w)))
    = writes (log w)
      ++ command_packet SEND_OBJECT tx []
         :: (data_header SEND_OBJECT tx len ++ take n0 fileBytes) :: rest
    /\ concat rest = drop n0 fileBytes
    /\ Forall (fun p => (0 < length p <= 512)%nat) rest.
Proof.
  intros Hb Hne Hok. cbv zeta.
  set (hdr := data_header SEND_OBJECT tx (MTP_CONTAINER_ARRAY_LEN + Z.of_nat (length fileBytes))).
  destruct (sendPacket_ok (command_packet SEND_OBJECT tx []) w Hok) as (Hr & Hok1 & Hw1).
  rewrite (bind_ok _ _ _ _ Hr).
  set (w1 := snd (sendPacket (command_packet SEND_OBJECT tx []) w)) in *.
  rewrite uploadFile_loop_equation_1.
  assert (Hlen : (0 < length fileBytes)%nat) by (destruct fileBytes; [congruence | simpl; lia]).
  destruct (Z_lt_dec 0 (Z.of_nat (length fileBytes))) as [Hlt | Hge]; [|lia].
  cbn [uploadFile_loop_unfold_clause_1]. cbv zeta.
  change (0 =? 0) with true. cbv iota.
  set (n0 := if (length fileBytes <? 512)%nat then length fileBytes else 500%nat).
  assert (He : (if Z.of_nat (length fileBytes) <? 0 + MTP_PACKET_MAX_SIZE
                then Z.of_nat (length fileBytes) else 0 + 500) = Z.of_nat n0).
  { subst n0. unfold MTP_PACKET_MAX_SIZE.
    destruct (Z.ltb_spec (Z.of_nat (length fileBytes)) (0 + 512));
      destruct (Nat.ltb_spec (length fileBytes) 512); lia. }
  rewrite He.
  assert (Hn0 : (0 < n0 <= length fileBytes)%nat).
  { subst n0. destruct (Nat.ltb_spec (length fileBytes) 512); lia. }
  destruct (sendPacket_ok (map JS.ToUint8 (hdr ++ JS.slice fileBytes 0 (Z.of_nat n0))) w1 Hok1)
    as (Hr2 & Hok2 & Hw2).
  rewrite (bind_ok _ _ _ _ Hr2).
  destruct (uploadFile_loop_rest fileBytes hdr _ n0 _ eq_refl ltac:(lia) Hok2)
    as (rest & Hp & Hc & Hf).
  exists rest. split; [|split; assumption].
  rewrite Hp, Hw2, Hw1, <- !app_assoc. cbn [app]. do 3 f_equal.
  change 0 with (Z.of_nat 0) at 1. rewrite slice_as_take_drop, Nat.sub_0_r, drop_0.
  apply map_ToUint8_bytes. rewrite bytesb_app.
  subst hdr. rewrite bytesb_data_header by (unfold MTP_CONTAINER_ARRAY_LEN; lia).
  apply bytesb_take. exact Hb.
Qed.

(** X7: for a file that is not empty, on a transport that accepts every write,
    [uploadFile] writes the SendObject Command and then the Data phase: a
    first packet with the 12-byte Data header (length field 12 + file
    length, same transaction id) followed by the first 500 bytes of the file
    (all of it when it is shorter than 512 bytes), then packets of at most
    512 bytes that carry the rest of the file in order. *)
Theorem uploadFile_data_phase (fileBytes : list Z) (w : world) :
  JS.bytesb fileBytes = true ->
  fileBytes <> [] ->
  (forall k, bulk_out w k = OutOk) ->
  let tx := transactionID (device w) + 1 in
  let n0 := if (length fileBytes <? 512)%nat then length fileBytes else 500%nat in
  let header :=
    le_bytes 4 (12 + Z.of_nat (length fileBytes)) ++ le_bytes 2 CONTAINER_TYPE_DATA
    ++ le_bytes 2 SEND_OBJECT ++ le_bytes 4 tx in
  exists rest,
    written_by (uploadFile fileBytes) w
    = command_packet SEND_OBJECT tx [] :: (header ++ take n0 fileBytes) :: rest
    /\ concat rest = drop n0 fileBytes
    /\ Forall (fun p => (0 < length p <= 512)%nat) rest.
Proof.
  intros Hb Hne Hok. cbv zeta.
  destruct (writer_state (receivePackets 2) w (quiet_receivePackets 2)
              (same_device_receivePackets 2)) as (Ht & Hl & Hw).
  set (w2 := next_transaction (snd (receivePackets 2 w))) in *.
  assert (Hok2 : forall k, bulk_out w2 k = OutOk).
  { intros k. subst w2.
    destruct (next_transaction_quiet_but_tx (snd (receivePackets 2 w))) as (-> & _).
    destruct (quiet_receivePackets 2 w) as (-> & _). apply Hok. }
  destruct (uploadFile_writer_run fileBytes (transactionID (device w) + 1) w2 Hb Hne Hok2)
    as (rest & Hp & Hc & Hf).
  exists rest. split; [|split; assumption].
  apply written_by_app. rewrite uploadFile_shape.
  rewrite exchange_writes by (intros r; apply quiet_handler, quiet_uploadFile_then).
  fold w2. rewrite Ht, Hp, Hw.
  rewrite data_header_bytes by (unfold MTP_CONTAINER_ARRAY_LEN; lia).
  reflexivity.
Qed.

Lemma uploadFile_data_phase_witness :
  exists rest,
    written_by (uploadFile [7; 8; 9]) (fresh_world None (fun _ => XferPending) all_ok)
    = command_packet SEND_OBJECT 1 []
      :: [15; 0; 0; 0; 2; 0; 0x0d; 0x10; 1; 0; 0; 0; 7; 8; 9] :: rest
    /\ concat rest = []
    /\ Forall (fun p => (0 < length p <= 512)%nat) rest.
Proof.
  exact (uploadFile_data_phase [7; 8; 9] (fresh_world None (fun _ => XferPending) all_ok)
           eq_refl ltac:(discriminate) (fun _ => eq_refl)).
Defined.

(** The packets [uploadFile] writes for an empty file. *)
Lemma uploadFile_nil_writes (w : world) :
  writes (log (snd (uploadFile [] w)))
  = writes (log w) ++ [command_packet SEND_OBJECT (transactionID (device w) + 1) []].
Proof.
  destruct (writer_state (receivePackets 2) w (quiet_receivePackets 2)
              (same_device_receivePackets 2)) as (Ht & Hl & Hw).
  rewrite uploadFile_shape.
  rewrite exchange_writes by (intros r; apply quiet_handler, quiet_uploadFile_then).
  rewrite Ht.
  unfold mbind at 1, M_bind at 1.
  pose proof (writes_sendPacket (command_packet SEND_OBJECT (transactionID (device w) + 1) [])
                (next_transaction (snd (receivePackets 2 w)))) as Hs.
  destruct (sendPacket _ _) as [[[]| |] w3]; cbn [snd] in Hs |- *;
    rewrite ?uploadFile_loop_equation_1; cbn [length Z.of_nat];
    try (destruct (Z_lt_dec 0 (Z.of_nat 0)) as [Hlt | Hge]; [lia|];
         cbn [uploadFile_loop_unfold_clause_1 mret M_ret snd]);
    rewrite Hs, Hw; reflexivity.
Qed.

(** X8: for an empty file [uploadFile] writes the SendObject Command and nothing
    else: the loop that writes the Data phase, header included, does not
    run. *)
Theorem uploadFile_empty_file_no_data_phase (w : world) :
  written_by (uploadFile []) w = [command_packet SEND_OBJECT (transactionID (device w) + 1) []].
Proof. apply written_by_app, uploadFile_nil_writes. Qed.
Lemma name_cells_S (flen : Z) (filename : list Z) (k : nat) :
  name_cells flen filename (S k)
  = name_cells flen filename k
    ++ [if (k =? 0)%nat then JS.ToUint8 (flen + 1) else 0; JS.ToUint8 (nth k filename 0)].
Proof.
  unfold name_cells. rewrite seq_S, map_app, concat_app. cbn [Nat.add map concat].
  rewrite app_nil_r. reflexivity.
Qed.

Lemma length_name_cells (flen : Z) (filename : list Z) (k : nat) :
  length (name_cells flen filename k) = (2 * k)%nat.
Proof.
  induction k as [|k IH]; [reflexivity|].
  rewrite name_cells_S, length_app, IH. cbn [length]. lia.
Qed.

Lemma filename_loop_prefix (filename : list Z) (n k : nat) :
  (k <= n)%nat ->
  fold_left
    (fun fa j =>
       JS.u8_store
         (if 2 * (0 + Z.of_nat j) =? 0
          then JS.u8_store fa (2 * (0 + Z.of_nat j)) (Z.of_nat (length filename) + 1)
          else JS.u8_store fa (2 * (0 + Z.of_nat j)) 0)
         (2 * (0 + Z.of_nat j) + 1) (nth (Z.to_nat (0 + Z.of_nat j)) filename 0))
    (seq 0 k) (repeat 0 (2 * n))
  = name_cells (Z.of_nat (length filename)) filename k ++ repeat 0 (2 * (n - k)).
Proof.
  induction k as [|k IH]; intros Hk.
  - cbn [seq fold_left]. rewrite Nat.sub_0_r. reflexivity.
  - rewrite seq_S, fold_left_app, IH by lia. cbn [Nat.add fold_left].
    rewrite name_cells_S, <- app_assoc. cbn [app].
    replace (2 * (n - k))%nat with (S (S (2 * (n - S k)))) by lia. cbn [repeat].
    pose proof (length_name_cells (Z.of_nat (length filename)) filename k) as Hl.
    unfold JS.u8_store.
    assert ((2 * (0 + Z.of_nat k) + 1 <? 0) = false) as -> by (apply Z.ltb_ge; lia).
    assert ((2 * (0 + Z.of_nat k) <? 0) = false) as -> by (apply Z.ltb_ge; lia).
    replace (Z.to_nat (2 * (0 + Z.of_nat k) + 1)) with (length (name_cells (Z.of_nat (length filename)) filename k) + 1)%nat by lia.
    replace (Z.to_nat (2 * (0 + Z.of_nat k))) with (length (name_cells (Z.of_nat (length filename)) filename k) + 0)%nat by lia.
    replace (Z.to_nat (0 + Z.of_nat k)) with k by lia.
    destruct k as [|k'].
    + cbn [Z.of_nat]. change (2 * (0 + 0) =? 0) with true. cbv iota.
      rewrite !insert_app_r. cbn [Nat.eqb]. reflexivity.
    + assert ((2 * (0 + Z.of_nat (S k')) =? 0) = false) as -> by (apply Z.eqb_neq; lia).
      rewrite !insert_app_r. cbn [Nat.eqb]. reflexivity.
Qed.

Lemma filename_array_cells (fmt size at_ ad : Z) (filename : list Z) (o : ObjectInfoDataset) :
  filename_array (initContainer fmt size at_ ad filename o)
  = name_cells (Z.of_nat (length filename)) filename (length filename).
Proof.
  unfold initContainer. cbn [filename_array]. unfold JS.for_loop, JS.new_Uint8Array.
  rewrite Z.sub_0_r, Nat2Z.id.
  replace (Z.to_nat (Z.of_nat (length filename) * 2)) with (2 * length filename)%nat by lia.
  rewrite filename_loop_prefix by lia.
  rewrite Nat.sub_diag. apply app_nil_r.
Qed.
Lemma low_high_shift (t : list Z) :
  concat (map (fun c => [0; JS.ToUint8 c]) t) ++ [0]
  = 0 :: concat (map (fun c => [JS.ToUint8 c; 0]) t).
Proof.
  induction t as [|c t IH]; [reflexivity|].
  cbn [map concat app]. rewrite IH. reflexivity.
Qed.

Lemma name_cells_cons (flen c0 : Z) (t : list Z) :
  name_cells flen (c0 :: t) (S (length t))
  = JS.ToUint8 (flen + 1) :: JS.ToUint8 c0 :: concat (map (fun c => [0; JS.ToUint8 c]) t).
Proof.
  unfold name_cells. cbn [seq map concat Nat.eqb nth app]. do 2 f_equal.
  rewrite <- seq_shift, map_map. cbn [Nat.eqb nth].
  rewrite (map_seq_nth (fun c => [0; JS.ToUint8 c]) 0 t). reflexivity.
Qed.

(** The name cells followed by one zero byte are the count and the
    characters as 16-bit little-endian values. *)
Lemma name_cells_string (filename : list Z) :
  filename <> [] ->
  (length filename <= 254)%nat ->
  Forall (fun c => 0 <= c < 256) filename ->
  name_cells (Z.of_nat (length filename)) filename (length filename) ++ [0]
  = (Z.of_nat (length filename) + 1) :: concat (map (le_bytes 2) filename).
Proof.
  intros Hne Hlen Hc. destruct filename as [|c0 t]; [congruence|].
  cbn [length] in *. rewrite name_cells_cons.
  cbn [app]. rewrite low_high_shift.
  assert (Hb : forall l, Forall (fun c => 0 <= c < 256) l ->
                         map (fun c => [JS.ToUint8 c; 0]) l = map (le_bytes 2) l).
  { induction 1 as [|c l Hc1 Hl IH]; [reflexivity|].
    cbn [map]. rewrite IH. f_equal. cbn [le_bytes]. unfold JS.ToUint8.
    rewrite (Z.div_small c 256) by lia. reflexivity. }
  inversion Hc as [|? ? Hc0 Ht]; subst.
  cbn [map concat]. rewrite (Hb t Ht). cbn [le_bytes app].
  unfold JS.ToUint8. rewrite (Z.div_small c0 256) by lia.
  rewrite (Z.mod_small (_ + 1)) by lia. reflexivity.
Qed.

Lemma oi_container_array_bytes (size : Z) (filename : list Z) :
  oi_container_array
    (initContainer UNDEFINED_OBJECT_FORMAT size 0 0 filename (new_ObjectInfoDataset None))
  = object_info_fixed UNDEFINED_OBJECT_FORMAT size.
Proof.
  unfold initContainer. cbn [oi_container_array new_ObjectInfoDataset].
  unfold object_info_fixed.
  cbv [JS.for_loop fold_left seq Z.to_nat Z.sub Z.add Z.opp Z.pos_sub Pos.to_nat
       Pos.iter_op Init.Nat.add Z.of_nat Pos.of_succ_nat Pos.succ Z.mul Pos.mul
       Pos.add Pos.pred_double Z.double Z.succ_double Z.pred_double Pos.double_mask
       Pos.sub_mask Pos.succ_double_mask Pos.double_pred_mask MTP_CONTAINER_ARRAY_LEN].
  change (JS.sar size (-32)) with (JS.sar size 0).
  change (JS.sar size (-24)) with (JS.sar size 8).
  change (JS.sar size (-16)) with (JS.sar size 16).
  change (JS.sar size (-8)) with (JS.sar size 24).
  cbv -[JS.band JS.sar JS.ToUint8 Z.modulo Z.div].
  rewrite ?store_sar0, ?store_sar8, ?store_sar16, ?store_sar24.
  reflexivity.
Qed.
Lemma bytesb_concat_le_bytes2 (l : list Z) : JS.bytesb (concat (map (le_bytes 2) l)) = true.
Proof.
  induction l as [|c l IH]; [reflexivity|].
  cbn [map concat]. rewrite bytesb_app, bytesb_le_bytes. exact IH.
Qed.

Lemma length_concat_le_bytes2 (l : list Z) :
  length (concat (map (le_bytes 2) l)) = (2 * length l)%nat.
Proof.
  induction l as [|c l IH]; [reflexivity|].
  cbn [map concat length]. rewrite length_app, IH. cbn [le_bytes length]. lia.
Qed.

Lemma bytesb_object_info_fixed (fmt size : Z) : JS.bytesb (object_info_fixed fmt size) = true.
Proof. unfold object_info_fixed. rewrite !bytesb_app, !bytesb_le_bytes. reflexivity. Qed.

(** The bytes of the Data packet of [uploadFileInfo]. *)
Lemma object_info_packet_bytes (tx size : Z) (filename : list Z) :
  filename <> [] ->
  (length filename <= 254)%nat ->
  Forall (fun c => 0 <= c < 256) filename ->
  object_info_packet tx filename size
  = (le_bytes 4 (142 + 2 * Z.of_nat (length filename)) ++ le_bytes 2 CONTAINER_TYPE_DATA
     ++ le_bytes 2 SEND_OBJECT_INFO ++ le_bytes 4 tx)
    ++ object_info_fixed UNDEFINED_OBJECT_FORMAT size
    ++ mtp_string filename ++ mtp_string fixed_date ++ mtp_string fixed_date ++ [0].
Proof.
  intros Hne Hlen Hc. unfold object_info_packet. cbv zeta.
  rewrite oi_container_array_bytes, filename_array_cells.
  cbn [dateCreateLength dateCreateArray dateModLength dateModArray keywords initContainer
       new_ObjectInfoDataset].
  rewrite length_name_cells.
  replace (MTP_CONTAINER_ARRAY_LEN
           + Z.of_nat (length (object_info_fixed UNDEFINED_OBJECT_FORMAT size))
           + Z.of_nat (2 * length filename) + Z.of_nat (length [0; 0; 0; 18])
           + Z.of_nat (length fixed_date_array) + Z.of_nat (length [0; 0; 0; 18])
           + Z.of_nat (length fixed_date_array) + Z.of_nat (length [0; 0; 0; 0]))
    with (142 + 2 * Z.of_nat (length filename))
    by (unfold MTP_CONTAINER_ARRAY_LEN; cbn [length object_info_fixed le_bytes app repeat
                                              fixed_date_array]; lia).
  rewrite data_header_bytes by lia.
  change ([0; 0; 0; 18] ++ fixed_date_array ++ [0; 0; 0; 18] ++ fixed_date_array ++ [0; 0; 0; 0])
    with ([0] ++ [0; 0] ++ mtp_string fixed_date ++ mtp_string fixed_date ++ [0]).
  rewrite (app_assoc (name_cells _ _ _) [0]).
  rewrite name_cells_string by assumption.
  rewrite map_ToUint8_bytes.
  - change (mtp_string filename)
      with ((Z.of_nat (length filename) + 1 :: concat (map (le_bytes 2) filename)) ++ [0; 0]).
    rewrite <- !app_assoc. reflexivity.
  - rewrite !bytesb_app, !bytesb_le_bytes, bytesb_object_info_fixed. cbn [andb].
    change (JS.bytesb (Z.of_nat (length filename) + 1 :: concat (map (le_bytes 2) filename)))
      with ((0 <=? Z.of_nat (length filename) + 1) && (Z.of_nat (length filename) + 1 <? 256)
            && JS.bytesb (concat (map (le_bytes 2) filename))).
    rewrite bytesb_concat_le_bytes2.
    apply andb_true_intro; split; [|reflexivity].
    apply andb_true_intro; split; [|reflexivity].
    apply andb_true_intro; split; [apply Z.leb_le | apply Z.ltb_lt]; lia.
Qed.
(** X9: on the wire, [uploadFileInfo] for a name of 1 to 254 characters below
    256 is the SendObjectInfo Command, with the storage id and 0xFFFFFFFF
    as parameters, followed by one Data packet: the header, whose length
    field is the length of the packet, the fixed part of the dataset with
    the object format 0x3000 and the file size, and then well-formed MTP
    strings for the name and the two dates and an empty one for the
    keywords. *)
Theorem uploadFileInfo_packets (w : world) (s : storageInfoDataset) (filename : list Z)
    (size : Z) :
  filename <> [] ->
  (length filename <= 254)%nat ->
  Forall (fun c => 0 <= c < 256) filename ->
  bulk_out w (out_pos w) = OutOk ->
  let tx := transactionID (device w) + 1 in
  let data :=
    (le_bytes 4 (142 + 2 * Z.of_nat (length filename)) ++ le_bytes 2 CONTAINER_TYPE_DATA
     ++ le_bytes 2 SEND_OBJECT_INFO ++ le_bytes 4 tx)
    ++ object_info_fixed UNDEFINED_OBJECT_FORMAT size
    ++ mtp_string filename ++ mtp_string fixed_date ++ mtp_string fixed_date ++ [0] in
  written_by (uploadFileInfo s filename size) w
  = [command_packet SEND_OBJECT_INFO tx [storageID s; 0xffffffff]; data]
  /\ Z.of_nat (length data) = 142 + 2 * Z.of_nat (length filename).
Proof.
  intros Hne Hlen Hc Hok. cbv zeta.
  destruct (writer_state (receivePackets 2) w (quiet_receivePackets 2)
              (same_device_receivePackets 2)) as (Ht & Hl & Hw).
  split.
  - apply written_by_app. rewrite uploadFileInfo_shape.
    rewrite exchange_writes
      by (intros r; apply preserves_bind;
            [exact quiet_trans | apply preserves_await; exact quiet_refl
            | intros a; apply quiet_uploadFileInfo_then]).
    rewrite Ht.
    set (w2 := next_transaction (snd (receivePackets 2 w))) in *.
    assert (Hok2 : bulk_out w2 (out_pos w2) = OutOk).
    { subst w2.
      destruct (next_transaction_quiet_but_tx (snd (receivePackets 2 w))) as (-> & -> & _).
      destruct (quiet_receivePackets 2 w) as (-> & -> & _). exact Hok. }
    assert (Hr : fst (sendPacket (command_packet SEND_OBJECT_INFO (transactionID (device w) + 1)
                                    [storageID s; PLACE_IN_ROOT]) w2) = Ok tt).
    { unfold sendPacket, transferOut. rewrite Hok2. reflexivity. }
    rewrite (bind_ok _ _ _ _ Hr).
    rewrite !writes_sendPacket, Hw, <- app_assoc.
    rewrite object_info_packet_bytes by assumption. reflexivity.
  - rewrite !length_app, !length_le_bytes.
    unfold mtp_string. rewrite !length_app, !length_concat_le_bytes2.
    cbn [length object_info_fixed le_bytes app repeat fixed_date]. lia.
Qed.

Lemma uploadFileInfo_packets_witness :
  written_by (uploadFileInfo (new_storageInfoDataset 0x00010001) [0x61; 0x62] 5)
    (fresh_world None (fun _ => XferPending) all_ok)
  = [command_packet SEND_OBJECT_INFO 1 [0x00010001; 0xffffffff];
     (le_bytes 4 146 ++ le_bytes 2 CONTAINER_TYPE_DATA
      ++ le_bytes 2 SEND_OBJECT_INFO ++ le_bytes 4 1)
     ++ object_info_fixed UNDEFINED_OBJECT_FORMAT 5
     ++ mtp_string [0x61; 0x62] ++ mtp_string fixed_date ++ mtp_string fixed_date ++ [0]].
Proof.
  exact (proj1 (uploadFileInfo_packets (fresh_world None (fun _ => XferPending) all_ok)
                  (new_storageInfoDataset 0x00010001) [0x61; 0x62] 5
                  ltac:(discriminate) ltac:(cbn; lia) ltac:(repeat constructor; lia)
                  eq_refl)).
Defined.
Lemma store_loop_prefix (g : Z -> Z) (n k : nat) :
  (k <= n)%nat ->
  fold_left (fun a j => JS.u8_store a (0 + Z.of_nat j) (g (0 + Z.of_nat j))) (seq 0 k)
    (repeat 0 n)
  = map (fun j => JS.ToUint8 (g (Z.of_nat j))) (seq 0 k) ++ repeat 0 (n - k).
Proof.
  induction k as [|k IH]; intros Hk.
  - cbn [seq fold_left map app]. rewrite Nat.sub_0_r. reflexivity.
  - rewrite seq_S, fold_left_app, IH by lia. cbn [Nat.add fold_left].
    rewrite map_app. cbn [map]. rewrite <- app_assoc. cbn [app].
    replace (n - k)%nat with (S (n - S k)) by lia. cbn [repeat].
    unfold JS.u8_store.
    assert ((0 + Z.of_nat k <? 0) = false) as -> by (apply Z.ltb_ge; lia).
    replace (Z.to_nat (0 + Z.of_nat k))
      with (length (map (fun j => JS.ToUint8 (g (Z.of_nat j))) (seq 0 k)) + 0)%nat
      by (rewrite length_map, length_seq; lia).
    rewrite insert_app_r. cbn [insert list_insert]. rewrite Z.add_0_l. reflexivity.
Qed.

(** A loop that stores [g i] at [i] for [i] up to [hi] into a fresh array of
    [n] bytes, [n <= hi]: the stores past the end are ignored. *)
Lemma store_loop_map (g : Z -> Z) (n : nat) (hi : Z) :
  Z.of_nat n <= hi ->
  JS.for_loop 0 hi (fun i a => JS.u8_store a i (g i)) (JS.new_Uint8Array (Z.of_nat n))
  = map (fun j => JS.ToUint8 (g (Z.of_nat j))) (seq 0 n).
Proof.
  intros Hhi. rewrite (for_loop_split 0 (Z.of_nat n) hi) by lia.
  assert (Hn : JS.for_loop 0 (Z.of_nat n) (fun i a => JS.u8_store a i (g i))
                 (JS.new_Uint8Array (Z.of_nat n))
               = map (fun j => JS.ToUint8 (g (Z.of_nat j))) (seq 0 n)).
  { unfold JS.for_loop, JS.new_Uint8Array. rewrite Z.sub_0_r, !Nat2Z.id.
    rewrite store_loop_prefix by lia. rewrite Nat.sub_diag. apply app_nil_r. }
  rewrite Hn. apply for_loop_noop. intros i Hi. apply u8_store_out.
  rewrite length_map, length_seq. lia.
Qed.

Lemma rd_cons2 (a b : Z) (l : list Z) (i : Z) :
  0 <= i -> JS.rd (a :: b :: l) (i + 2) = JS.rd l i.
Proof.
  intros Hi. unfold JS.rd, JS.u8_load.
  destruct (Z.ltb_spec (i + 2) 0); [lia|]. destruct (Z.ltb_spec i 0); [lia|].
  replace (Z.to_nat (i + 2)) with (S (S (Z.to_nat i))) by lia. reflexivity.
Qed.

Lemma rd_concat_pairs (name rest : list Z) (k : nat) :
  (k < length name)%nat ->
  JS.rd (concat (map (le_bytes 2) name) ++ rest) (2 * Z.of_nat k) = nth k name 0 mod 256.
Proof.
  revert k. induction name as [|c t IH]; intros k Hk; [simpl in Hk; lia|].
  cbn [map concat le_bytes app]. destruct k as [|k].
  - reflexivity.
  - replace (2 * Z.of_nat (S k)) with (2 * Z.of_nat k + 2) by lia.
    rewrite rd_cons2 by lia. cbn [nth]. apply IH. simpl in Hk. lia.
Qed.

(** What the handler of [getFileObjectInfo] extracts from a Data packet
    whose name field is an MTP string of [n] characters, [1 <= n + 1 < 256]:
    the low byte of each character. *)
Lemma parse_file_name_run (pre name post : list Z) (t0 t1 : Z) (w : world) :
  length pre = 64%nat ->
  (length name <= 254)%nat ->
  parse_file_name
    (pre ++ [Z.of_nat (length name) + 1] ++ concat (map (le_bytes 2) name) ++ [t0; t1] ++ post) w
  = (Ok (map (fun c => c mod 256) name), w).
Proof.
  intros Hpre Hlen. unfold parse_file_name. cbv zeta.
  set (buf := pre ++ [Z.of_nat (length name) + 1] ++ concat (map (le_bytes 2) name)
              ++ [t0; t1] ++ post).
  assert (Hcount : JS.rd buf (FILE_NAME_START - 1) = Z.of_nat (length name) + 1).
  { subst buf. change (FILE_NAME_START - 1) with (64 + Z.of_nat 0).
    rewrite rd_app_at; [reflexivity | lia | simpl; lia]. }
  rewrite Hcount.
  assert (Hslice : JS.slice buf FILE_NAME_START
                     (FILE_NAME_START + (Z.of_nat (length name) + 1) * 2)
                   = concat (map (le_bytes 2) name) ++ [t0; t1]).
  { subst buf. rewrite (app_assoc pre), (app_assoc (concat _)).
    apply slice_app_at.
    - rewrite length_app, Hpre. reflexivity.
    - rewrite length_app, length_concat_le_bytes2. unfold FILE_NAME_START.
      cbn [length]. lia. }
  rewrite Hslice.
  rewrite length_app, length_concat_le_bytes2. cbn [length].
  unfold new_name_array.
  replace (Z.quot (Z.of_nat (2 * length name + 2) - 2) 2) with (Z.of_nat (length name))
    by (rewrite Z.quot_div_nonneg by lia;
        replace (Z.of_nat (2 * length name + 2) - 2) with (Z.of_nat (length name) * 2) by lia;
        rewrite Z.div_mul by lia; reflexivity).
  assert ((Z.of_nat (length name) <? 0) = false) as -> by (apply Z.ltb_ge; lia).
  unfold mbind, M_bind, mret, M_ret. f_equal.
  rewrite (store_loop_map (fun i => JS.rd (concat (map (le_bytes 2) name) ++ [t0; t1]) (2 * i))).
  - rewrite <- (map_seq_nth (fun c => c mod 256) 0 name).
    f_equal. apply map_ext_in. intros k Hk. apply in_seq in Hk.
    rewrite rd_concat_pairs by lia. apply ToUint8_mod.
  - unfold JS.ceil_div.
    replace (- Z.of_nat (2 * length name + 2)) with ((- (Z.of_nat (length name) + 1)) * 2) by lia.
    rewrite Z.div_mul by lia. lia.
Qed.
Lemma after_reads_0 (w : world) : after_reads 0 w = w.
Proof.
  destruct w as [d ld bi ip bo op lg pr]. unfold after_reads.
  cbn [device lenaDevice bulk_in in_pos bulk_out out_pos log promise repeat].
  rewrite Nat.add_0_r, app_nil_r. reflexivity.
Qed.

Lemma after_reads_S (n : nat) (w : world) :
  after_reads n (after_reads 1 w) = after_reads (S n) w.
Proof.
  destruct w as [d ld bi ip bo op lg pr]. unfold after_reads.
  cbn [device lenaDevice bulk_in in_pos bulk_out out_pos log promise repeat].
  rewrite <- app_assoc. cbn [app]. f_equal. lia.
Qed.

Lemma reads_from_S (n : nat) (w : world) :
  reads_from w (S n) = bulk_in w (in_pos w) :: reads_from (after_reads 1 w) n.
Proof.
  unfold reads_from. cbn [seq map]. rewrite Nat.add_0_r. f_equal.
  rewrite <- seq_shift, map_map. apply map_ext. intros k.
  cbn [after_reads bulk_in in_pos]. f_equal. lia.
Qed.

Lemma getPacket_run (w : world) :
  getPacket w
  = (match bulk_in w (in_pos w) with XferData d => Ok d | _ => Hang end, after_reads 1 w).
Proof.
  destruct w as [d ld bi ip bo op lg pr].
  unfold getPacket, after_reads. run_op.
  replace (ip + 1)%nat with (S ip) by lia.
  destruct (bi ip); reflexivity.
Qed.

Lemma receivePackets_issue_run (n : nat) (w : world) :
  receivePackets_issue n w
  = (Ok (map (fun t => match t with XferData d => Ok d | _ => Hang end) (reads_from w n)),
     after_reads n w).
Proof.
  revert w. induction n as [|n IH]; intros w.
  - cbn [receivePackets_issue]. rewrite after_reads_0. reflexivity.
  - cbn [receivePackets_issue]. unfold mbind, M_bind, settle.
    rewrite getPacket_run, IH, reads_from_S, after_reads_S. reflexivity.
Qed.

Lemma promise_all_delivered (ts : list transfer) :
  promise_all (map (fun t => match t with XferData d => Ok d | _ => Hang end) ts)
  = match all_delivered ts with Some l => Ok l | None => Hang end.
Proof.
  induction ts as [|t ts IH]; [reflexivity|].
  cbn [map promise_all all_delivered]. rewrite IH.
  destruct t; destruct (all_delivered ts); reflexivity.
Qed.

Lemma receivePackets_run (n : nat) (w : world) :
  receivePackets n w
  = (match all_delivered (reads_from w n) with Some l => Ok l | None => Hang end,
     after_reads n w).
Proof.
  unfold receivePackets, mbind, M_bind. rewrite receivePackets_issue_run.
  unfold await. rewrite promise_all_delivered. reflexivity.
Qed.

(** X10: [receivePackets(device, n)] issues exactly [n] reads, whatever they
    return, and touches nothing else.  It never rejects: it resolves, with
    the data of the reads in the order in which they were issued, exactly
    when all of them deliver; when one fails or stays pending it never
    settles. *)
Theorem receivePackets_outcome (n : nat) (w : world) :
  fst (receivePackets n w) <> Throw
  /\ (forall l, fst (receivePackets n w) = Ok l <-> all_delivered (reads_from w n) = Some l)
  /\ (fst (receivePackets n w) = Hang <-> all_delivered (reads_from w n) = None)
  /\ in_pos (snd (receivePackets n w)) = (in_pos w + n)%nat
  /\ device (snd (receivePackets n w)) = device w
  /\ writes (log (snd (receivePackets n w))) = writes (log w).
Proof.
  rewrite receivePackets_run. cbn [fst snd].
  split; [destruct (all_delivered _); discriminate|].
  split; [intros l; destruct (all_delivered _); split; congruence|].
  split; [destruct (all_delivered _); split; congruence|].
  split; [reflexivity|]. split; [reflexivity|].
  cbn [after_reads log]. rewrite writes_app.
  assert (H : writes (repeat (EvTransferIn InGetPacket) n) = []).
  { induction n as [|k IH]; [reflexivity | exact IH]. }
  rewrite H. apply app_nil_r.
Qed.

Lemma demux_two (op : Z) (data resp : list Z) (dataFirst : bool) :
  packet_code data = op ->
  packet_code resp <> op ->
  demux op (if dataFirst then [data; resp] else [resp; data]) = (data, resp).
Proof.
  intros Hd Hr. unfold demux. destruct dataFirst; cbn [nth].
  - rewrite Hd, Z.eqb_refl. reflexivity.
  - apply Z.eqb_neq in Hr. rewrite Hr. reflexivity.
Qed.

Lemma all_delivered_two (w : world) (p0 p1 : list Z) :
  bulk_in w (in_pos w) = XferData p0 ->
  bulk_in w (S (in_pos w)) = XferData p1 ->
  all_delivered (reads_from w 2) = Some [p0; p1].
Proof.
  intros H0 H1. unfold reads_from. cbn [seq map].
  rewrite Nat.add_0_r, Nat.add_1_r, H0, H1. reflexivity.
Qed.

Lemma all_delivered_one (w : world) (p0 : list Z) :
  bulk_in w (in_pos w) = XferData p0 ->
  all_delivered (reads_from w 1) = Some [p0].
Proof.
  intros H0. unfold reads_from. cbn [seq map]. rewrite Nat.add_0_r, H0. reflexivity.
Qed.

Lemma sendPacket_accepted (p : list Z) (w : world) :
  bulk_out w (out_pos w) = OutOk ->
  sendPacket p w = (Ok tt, next_out (with_log (EvTransferOut p) w)).
Proof. intros H. unfold sendPacket, transferOut. rewrite H. reflexivity. Qed.

(** An exchange whose reads deliver, whose writer succeeds and whose
    handler runs to its end. *)
Lemma exchange_ok (n : nat) (S : Z -> M unit) (h : list (list Z) -> M unit)
    (w w3 : world) (pkts : list (list Z)) (v : value) :
  all_delivered (reads_from w n) = Some pkts ->
  S (transactionID (device w) + 1) (next_transaction (after_reads n w)) = (Ok tt, w3) ->
  fst (h pkts w3) = Ok tt ->
  promise (snd (h pkts w3)) = Some v ->
  exchange (receivePackets n) S (handler h) w = (Ok v, snd (h pkts w3)).
Proof.
  intros Hd HS Hh Hp. rewrite exchange_unfold. cbv zeta.
  rewrite receivePackets_run, Hd. cbn [fst snd].
  change (transactionID (device (next_transaction (after_reads n w))))
    with (transactionID (device w) + 1).
  rewrite HS. cbn [fst snd].
  unfold handler, catch_, mbind, M_bind, await.
  destruct (h pkts w3) as [r w4]. cbn [fst snd] in *. subst r.
  unfold return_promise. cbn [snd]. rewrite Hp. reflexivity.
Qed.

(** The same when the handler throws before it resolves: the [catch]
    resolves false. *)
Lemma exchange_caught (n : nat) (S : Z -> M unit) (h : list (list Z) -> M unit)
    (w w3 : world) (pkts : list (list Z)) :
  all_delivered (reads_from w n) = Some pkts ->
  S (transactionID (device w) + 1) (next_transaction (after_reads n w)) = (Ok tt, w3) ->
  fst (h pkts w3) = Throw ->
  promise (snd (h pkts w3)) = None ->
  exchange (receivePackets n) S (handler h) w
  = (Ok (VBool false), snd (resolve (VBool false) (snd (h pkts w3)))).
Proof.
  intros Hd HS Hh Hp. rewrite exchange_unfold. cbv zeta.
  rewrite receivePackets_run, Hd. cbn [fst snd].
  change (transactionID (device (next_transaction (after_reads n w))))
    with (transactionID (device w) + 1).
  rewrite HS. cbn [fst snd].
  unfold handler, catch_, mbind, M_bind, await.
  destruct (h pkts w3) as [r w4]. cbn [fst snd] in *. subst r.
  unfold return_promise, resolve. cbn [snd with_log promise with_promise]. rewrite Hp.
  reflexivity.
Qed.

(** The writer of the operations that are handed a storage record. *)
Lemma storage_writer_run (i : nat) (s : storageInfoDataset) (cmd : storageInfoDataset -> list Z)
    (n : nat) (w : world) :
  storageInfoObjects (device w) !! i = Some s ->
  bulk_out w (out_pos w) = OutOk ->
  (s' ← storage_at i; sendPacket (cmd s')) (next_transaction (after_reads n w))
  = (Ok tt, handler_state n (cmd s) w).
Proof.
  intros Hs Hout. unfold mbind, M_bind, storage_at.
  change (storageInfoObjects (device (next_transaction (after_reads n w))))
    with (storageInfoObjects (device w)).
  rewrite Hs. apply sendPacket_accepted. exact Hout.
Qed.
Lemma update_storage_at_run (i : nat) (f : storageInfoDataset -> storageInfoDataset)
    (s : storageInfoDataset) (w : world) :
  storageInfoObjects (device w) !! i = Some s ->
  update_storage_at i f w
  = (Ok tt, set_storageInfoObjects (<[i := f s]> (storageInfoObjects (device w))) w).
Proof. intros H. unfold update_storage_at. rewrite H. reflexivity. Qed.

Lemma storage_after_set (l : list storageInfoDataset) (w : world) :
  storageInfoObjects (device (set_storageInfoObjects l w)) = l.
Proof. reflexivity. Qed.


Lemma resolve_pending (v : value) (w : world) :
  promise w = None ->
  resolve v w = (Ok tt, with_promise (Some v) (with_log (EvResolve v) w)).
Proof. intros H. unfold resolve. cbn [with_log promise]. rewrite H. reflexivity. Qed.


Lemma bin2String_id (array : list Z) : bin2String array = array.
Proof.
  unfold bin2String.
  rewrite (for_loop_nth 0 (fun (result : list Z) x => result ++ [x]) array []).
  assert (H : forall l acc : list Z,
             fold_left (fun result x => result ++ [x]) l acc = acc ++ l).
  { induction l as [|x l IH]; intros acc; cbn [fold_left].
    - symmetry. apply app_nil_r.
    - rewrite IH, <- app_assoc. reflexivity. }
  apply H.
Qed.

Lemma update_object_at_run (i j : nat) (f : ObjectInfoDataset -> ObjectInfoDataset)
    (s : storageInfoDataset) (o : ObjectInfoDataset) (w : world) :
  storageInfoObjects (device w) !! i = Some s ->
  objectInfoObjects s !! j = Some o ->
  update_object_at i j f w
  = (Ok tt,
     set_storageInfoObjects
       (<[i := set_objectInfoObjects (<[j := f o]> (objectInfoObjects s)) s]>
          (storageInfoObjects (device w))) w).
Proof.
  intros Hs Ho. unfold update_object_at, mbind, M_bind, storage_at.
  rewrite Hs, Ho. apply update_storage_at_run. exact Hs.
Qed.

Lemma map_mod_bytes (l : list Z) :
  Forall (fun c => 0 <= c < 256) l -> map (fun c => c mod 256) l = l.
Proof.
  induction 1 as [|c l Hc Hl IH]; [reflexivity|].
  cbn [map]. rewrite IH, Z.mod_small by lia. reflexivity.
Qed.

(** The handler of [getFileObjectInfo] on a successful exchange whose Data
    packet holds the size at offset 8 of the dataset and the name as an MTP
    string at offset 52. *)
Lemma getFileObjectInfo_then_ok (w : world) (i j : nat) (s : storageInfoDataset)
    (o : ObjectInfoDataset) (hdr ids fields resp rest name : list Z) (size t0 t1 : Z)
    (dataFirst : bool) :
  let data := hdr ++ ids ++ le_bytes 4 size ++ fields
              ++ [Z.of_nat (length name) + 1] ++ concat (map (le_bytes 2) name) ++ [t0; t1]
              ++ rest in
  storageInfoObjects (device w) !! i = Some s ->
  objectInfoObjects s !! j = Some o ->
  length hdr = 12%nat ->
  length ids = 8%nat ->
  length fields = 40%nat ->
  Z.of_nat (length data) <= MTP_PACKET_MAX_SIZE ->
  packet_code hdr = GET_OBJECT_INFO ->
  packet_code resp = MTP_OK ->
  getFileObjectInfo_then i j (if dataFirst then [data; resp] else [resp; data]) w
  = resolve (VBool true)
      (set_storageInfoObjects
         (<[i := set_objectInfoObjects
                   (<[j := set_filesize (JS.ToInt32 size)
                             (setFileName (map (fun c => c mod 256) name) o)]>
                      (objectInfoObjects s)) s]>
            (storageInfoObjects (device w))) w).
Proof.
  intros data Hs Ho Hh Hi Hf Hmax Hc Hr.
  assert (Hlen : (length name <= 254)%nat).
  { subst data. unfold MTP_PACKET_MAX_SIZE in Hmax.
    rewrite !length_app, length_concat_le_bytes2 in Hmax. lia. }
  assert (Hcd : packet_code data = GET_OBJECT_INFO).
  { subst data. rewrite packet_code_app by lia. exact Hc. }
  unfold getFileObjectInfo_then.
  rewrite (demux_two GET_OBJECT_INFO data resp dataFirst Hcd) by (rewrite Hr; discriminate).
  rewrite Hr. change (MTP_OK =? MTP_OK) with true. cbv iota.
  assert (Hparse : forall w', parse_file_name data w' = (Ok (map (fun c => c mod 256) name), w')).
  { intros w'. subst data.
    rewrite (app_assoc hdr), (app_assoc (hdr ++ ids)), (app_assoc ((hdr ++ ids) ++ _)).
    apply parse_file_name_run; [|exact Hlen].
    rewrite !length_app, length_le_bytes, Hh, Hi, Hf. reflexivity. }
  assert (Hsize : read32 data 20 = JS.ToInt32 size).
  { subst data. rewrite (app_assoc hdr).
    apply read32_le_bytes. rewrite length_app, Hh, Hi. reflexivity. }
  unfold mbind at 1, M_bind at 1. rewrite Hparse.
  unfold mbind at 1, M_bind at 1.
  rewrite (update_object_at_run i j _ s o w Hs Ho).
  unfold mbind at 1, M_bind at 1.
  rewrite (update_object_at_run i j _
             (set_objectInfoObjects
                (<[j := setFileName (map (fun c => c mod 256) name) o]> (objectInfoObjects s)) s)
             (setFileName (map (fun c => c mod 256) name) o)).
  - rewrite Hsize, storage_after_set, set_storageInfoObjects_twice.
    rewrite list_insert_insert_eq.
    cbn [set_objectInfoObjects objectInfoObjects].
    rewrite list_insert_insert_eq. reflexivity.
  - rewrite storage_after_set. apply list_lookup_insert_eq. eapply lookup_lt_Some. exact Hs.
  - cbn [set_objectInfoObjects objectInfoObjects].
    apply list_lookup_insert_eq. eapply lookup_lt_Some. exact Ho.
Qed.

(** X12: for every successful GetObjectInfo exchange (response code 0x2001), in
    whichever order the two packets arrive, [getFileObjectInfo] resolves
    true and records in the file record it was handed the size found at
    offset 8 of the dataset (as a signed 32-bit value) and the name found
    at offset 52: a count byte, that many 16-bit characters less one, and a
    last pair of bytes that is dropped unread.  Each character is reduced to
    its low byte: a name of characters below 256 is recorded as it is.  The
    other bytes of the dataset are not looked at; the Data packet is one
    read, of at most 512 bytes.  Nothing else changes in the local lists. *)
Theorem getFileObjectInfo_records_name_and_size
    (w : world) (i j : nat) (s : storageInfoDataset) (o : ObjectInfoDataset)
    (hdr ids fields resp rest name : list Z) (size t0 t1 : Z) (dataFirst : bool) :
  let data := hdr ++ ids ++ le_bytes 4 size ++ fields
              ++ [Z.of_nat (length name) + 1] ++ concat (map (le_bytes 2) name) ++ [t0; t1]
              ++ rest in
  storageInfoObjects (device w) !! i = Some s ->
  objectInfoObjects s !! j = Some o ->
  length hdr = 12%nat ->
  length ids = 8%nat ->
  length fields = 40%nat ->
  Z.of_nat (length data) <= MTP_PACKET_MAX_SIZE ->
  packet_code hdr = GET_OBJECT_INFO ->
  packet_code resp = MTP_OK ->
  bulk_in w (in_pos w) = XferData (if dataFirst then data else resp) ->
  bulk_in w (S (in_pos w)) = XferData (if dataFirst then resp else data) ->
  bulk_out w (out_pos w) = OutOk ->
  let l' := storageInfoObjects (device (snd (getFileObjectInfo i j w))) in
  let o' := set_filesize (JS.ToInt32 size) (setFileName (map (fun c => c mod 256) name) o) in
  fst (getFileObjectInfo i j w) = Ok (VBool true)
  /\ l' = <[i := set_objectInfoObjects (<[j := o']> (objectInfoObjects s)) s]>
            (storageInfoObjects (device w))
  /\ fileName o' = map (fun c => c mod 256) name
  /\ filesize o' = Some (JS.ToInt32 size)
  /\ fileID o' = fileID o
  /\ (Forall (fun c => 0 <= c < 256) name -> fileName o' = name).
Proof.
  intros data Hs Ho Hh Hi Hf Hmax Hc Hr Hin0 Hin1 Hout l' o'.
  set (cmd := command_packet GET_OBJECT_INFO (transactionID (device w) + 1)
                [default 0 (fileID o)]).
  assert (Hs3 : storageInfoObjects (device (handler_state 2 cmd w)) !! i = Some s) by exact Hs.
  pose proof (getFileObjectInfo_then_ok (handler_state 2 cmd w) i j s o hdr ids fields resp rest
                name size t0 t1 dataFirst Hs3 Ho Hh Hi Hf Hmax Hc Hr) as Hthen.
  fold data in Hthen.
  assert (Hrun : getFileObjectInfo i j w
                 = (Ok (VBool true),
                    snd (getFileObjectInfo_then i j
                           (if dataFirst then [data; resp] else [resp; data])
                           (handler_state 2 cmd w)))).
  { rewrite getFileObjectInfo_shape.
    unfold mbind at 1, M_bind at 1, storage_at at 1. rewrite Hs.
    apply (exchange_ok 2 _ _ w (handler_state 2 cmd w)).
    - rewrite (all_delivered_two w _ _ Hin0 Hin1). destruct dataFirst; reflexivity.
    - unfold object_at, mbind, M_bind, storage_at, mret, M_ret.
      change (storageInfoObjects (device (next_transaction (after_reads 2 w))))
        with (storageInfoObjects (device w)).
      rewrite Hs, Ho. apply sendPacket_accepted. exact Hout.
    - rewrite Hthen. reflexivity.
    - rewrite Hthen. reflexivity. }
  split; [rewrite Hrun; reflexivity|].
  split; [subst l'; rewrite Hrun; cbn [snd]; rewrite Hthen; reflexivity|].
  subst o'. cbn [set_filesize setFileName fileName filesize fileID].
  rewrite bin2String_id.
  split; [reflexivity|]. split; [reflexivity|]. split; [reflexivity|].
  apply map_mod_bytes.
Qed.

Lemma getFileObjectInfo_records_name_and_size_witness :
  map (fun s => map (fun o => (fileName o, filesize o)) (objectInfoObjects s))
    (storageInfoObjects
       (device (snd (getFileObjectInfo 0 0
                       (example_world
                          [example_info_header ++ object_info_fixed 0x3000 7
                           ++ mtp_string [0x61; 0x2e; 0x62] ++ [];
                           response_packet MTP_OK 9])))))
  = [[([0x61; 0x2e; 0x62], Some 7)]].
Proof.
  pose proof (getFileObjectInfo_records_name_and_size
                (example_world
                   [example_info_header ++ object_info_fixed 0x3000 7
                    ++ mtp_string [0x61; 0x2e; 0x62] ++ [];
                    response_packet MTP_OK 9]) 0 0 _ _
                example_info_header (le_bytes 4 0 ++ le_bytes 2 0x3000 ++ le_bytes 2 0)
                (le_bytes 2 0x3000 ++ repeat 0 38) (response_packet MTP_OK 9) []
                [0x61; 0x2e; 0x62] 7 0 0
                true eq_refl eq_refl eq_refl eq_refl eq_refl ltac:(vm_compute; discriminate)
                eq_refl eq_refl eq_refl eq_refl eq_refl) as [_ [H _]].
  rewrite H. reflexivity.
Defined.
(** A handler that finds another response code than OK throws at once. *)
Lemma handlers_throw_on_bad_code (i j : nat) (pkts : list (list Z)) (w : world) :
  (packet_code (snd (demux MTP_GET_STORAGE_INFO pkts)) <> MTP_OK ->
   getStorageInfo_then i pkts w = (Throw, w))
  /\ (packet_code (snd (demux GET_OBJECT_HANDLES pkts)) <> MTP_OK ->
      getFileObjects_then i pkts w = (Throw, w))
  /\ (packet_code (snd (demux GET_OBJECT_INFO pkts)) <> MTP_OK ->
      getFileObjectInfo_then i j pkts w = (Throw, w)).
Proof.
  unfold getStorageInfo_then, getFileObjects_then, getFileObjectInfo_then.
  split; [|split].
  - destruct (demux MTP_GET_STORAGE_INFO pkts) as [b1 b2]. cbn [snd].
    intros H. apply Z.eqb_neq in H. rewrite H. reflexivity.
  - destruct (demux GET_OBJECT_HANDLES pkts) as [b1 b2]. cbn [snd].
    intros H. apply Z.eqb_neq in H. rewrite H. reflexivity.
  - destruct (demux GET_OBJECT_INFO pkts) as [b1 b2]. cbn [snd].
    intros H. apply Z.eqb_neq in H. rewrite H. reflexivity.
Qed.

Lemma object_writer_run (i j : nat) (s : storageInfoDataset) (o : ObjectInfoDataset)
    (cmd : ObjectInfoDataset -> list Z) (n : nat) (w : world) :
  storageInfoObjects (device w) !! i = Some s ->
  objectInfoObjects s !! j = Some o ->
  bulk_out w (out_pos w) = OutOk ->
  (o' ← object_at i j; sendPacket (cmd o')) (next_transaction (after_reads n w))
  = (Ok tt, handler_state n (cmd o) w).
Proof.
  intros Hs Ho Hout. unfold object_at, mbind, M_bind, storage_at, mret, M_ret.
  change (storageInfoObjects (device (next_transaction (after_reads n w))))
    with (storageInfoObjects (device w)).
  rewrite Hs, Ho. apply sendPacket_accepted. exact Hout.
Qed.

Lemma getFileObjectInfo_present (i j : nat) (s : storageInfoDataset) (w : world) :
  storageInfoObjects (device w) !! i = Some s ->
  getFileObjectInfo i j w
  = exchange (receivePackets 2)
      (fun tx => o ← object_at i j;
                 sendPacket (command_packet GET_OBJECT_INFO tx [default 0 (fileID o)]))
      (handler (getFileObjectInfo_then i j)) w.
Proof.
  intros Hs. rewrite getFileObjectInfo_shape.
  unfold mbind at 1, M_bind at 1, storage_at at 1. rewrite Hs. reflexivity.
Qed.

(** X13: when both packets of the exchange arrive and the Command was written,
    but the packet taken for the response carries another code than 0x2001,
    [getStorageInfo], [getFileObjects] and [getFileObjectInfo] resolve false
    and leave the local storage and object lists exactly as they were. *)
Theorem failed_response_keeps_lists (w : world) (i : nat) (s : storageInfoDataset)
    (p0 p1 : list Z) :
  storageInfoObjects (device w) !! i = Some s ->
  bulk_in w (in_pos w) = XferData p0 ->
  bulk_in w (S (in_pos w)) = XferData p1 ->
  bulk_out w (out_pos w) = OutOk ->
  let unchanged (r : result value * world) :=
    fst r = Ok (VBool false)
    /\ storageInfoObjects (device (snd r)) = storageInfoObjects (device w) in
  (packet_code (snd (demux MTP_GET_STORAGE_INFO [p0; p1])) <> MTP_OK ->
   unchanged (getStorageInfo i w))
  /\ (packet_code (snd (demux GET_OBJECT_HANDLES [p0; p1])) <> MTP_OK ->
      unchanged (getFileObjects i w))
  /\ (forall j o, objectInfoObjects s !! j = Some o ->
        packet_code (snd (demux GET_OBJECT_INFO [p0; p1])) <> MTP_OK ->
        unchanged (getFileObjectInfo i j w)).
Proof.
  intros Hs Hin0 Hin1 Hout unchanged. subst unchanged. cbv beta.
  pose proof (all_delivered_two w p0 p1 Hin0 Hin1) as Hd.
  split; [|split].
  - intros Hcode. rewrite getStorageInfo_shape.
    rewrite (exchange_caught 2 _ _ w _ [p0; p1] Hd (storage_writer_run i s _ 2 w Hs Hout));
      rewrite (proj1 (handlers_throw_on_bad_code i 0 [p0; p1] _) Hcode);
      try reflexivity.
    split; reflexivity.
  - intros Hcode. rewrite getFileObjects_shape.
    rewrite (exchange_caught 2 _ _ w _ [p0; p1] Hd (storage_writer_run i s _ 2 w Hs Hout));
      rewrite (proj1 (proj2 (handlers_throw_on_bad_code i 0 [p0; p1] _)) Hcode);
      try reflexivity.
    split; reflexivity.
  - intros j o Ho Hcode.
    rewrite (getFileObjectInfo_present i j s w Hs).
    rewrite (exchange_caught 2 _ _ w _ [p0; p1] Hd (object_writer_run i j s o _ 2 w Hs Ho Hout));
      rewrite (proj2 (proj2 (handlers_throw_on_bad_code i j [p0; p1] _)) Hcode);
      try reflexivity.
    split; reflexivity.
Qed.

Lemma failed_response_keeps_lists_witness :
  fst (getFileObjects 0 (example_world [example_handles_data; response_packet 0x2002 9]))
  = Ok (VBool false).
Proof.
  exact (proj1 (proj1 (proj2 (failed_response_keeps_lists
           (example_world [example_handles_data; response_packet 0x2002 9]) 0 _
           example_handles_data (response_packet 0x2002 9) eq_refl eq_refl eq_refl eq_refl))
           ltac:(vm_compute; discriminate))).
Defined.
Lemma parse_file_name_nameless (buf : list Z) (w : world) :
  JS.rd buf (FILE_NAME_START - 1) = 0 -> parse_file_name buf w = (Throw, w).
Proof.
  intros H. unfold parse_file_name. cbv zeta. rewrite H.
  change (0 * 2) with 0. rewrite Z.add_0_r.
  unfold JS.slice. rewrite Z.sub_diag. cbn [Z.to_nat take length Z.of_nat].
  reflexivity.
Qed.

(** X14: a GetObjectInfo dataset whose name is the empty MTP string (count byte
    0 at offset 52 of the dataset), or that ends before the name, makes
    [getFileObjectInfo] resolve false although the device answered OK: the
    array for the name gets a negative length.  Neither name nor size is
    recorded. *)
Theorem getFileObjectInfo_nameless_resolves_false
    (w : world) (i j : nat) (s : storageInfoDataset) (o : ObjectInfoDataset)
    (data resp : list Z) (dataFirst : bool) :
  storageInfoObjects (device w) !! i = Some s ->
  objectInfoObjects s !! j = Some o ->
  packet_code data = GET_OBJECT_INFO ->
  packet_code resp = MTP_OK ->
  JS.rd data 64 = 0 ->
  bulk_in w (in_pos w) = XferData (if dataFirst then data else resp) ->
  bulk_in w (S (in_pos w)) = XferData (if dataFirst then resp else data) ->
  bulk_out w (out_pos w) = OutOk ->
  fst (getFileObjectInfo i j w) = Ok (VBool false)
  /\ storageInfoObjects (device (snd (getFileObjectInfo i j w)))
     = storageInfoObjects (device w).
Proof.
  intros Hs Ho Hc Hr Hname Hin0 Hin1 Hout.
  assert (Hd : all_delivered (reads_from w 2)
               = Some (if dataFirst then [data; resp] else [resp; data])).
  { rewrite (all_delivered_two w _ _ Hin0 Hin1). destruct dataFirst; reflexivity. }
  assert (Hthen : forall w3,
             getFileObjectInfo_then i j (if dataFirst then [data; resp] else [resp; data]) w3
             = (Throw, w3)).
  { intros w3. unfold getFileObjectInfo_then.
    rewrite (demux_two GET_OBJECT_INFO data resp dataFirst Hc) by (rewrite Hr; discriminate).
    rewrite Hr. change (MTP_OK =? MTP_OK) with true. cbv iota.
    unfold mbind at 1, M_bind at 1. rewrite parse_file_name_nameless by exact Hname.
    reflexivity. }
  rewrite (getFileObjectInfo_present i j s w Hs).
  rewrite (exchange_caught 2 _ _ w _ _ Hd (object_writer_run i j s o _ 2 w Hs Ho Hout));
    rewrite Hthen; try reflexivity.
  split; reflexivity.
Qed.

Lemma getFileObjectInfo_nameless_resolves_false_witness :
  fst (getFileObjectInfo 0 0
         (example_world [example_info_header ++ object_info_fixed 0x3000 7 ++ [0];
                         response_packet MTP_OK 9]))
  = Ok (VBool false).
Proof.
  exact (proj1 (getFileObjectInfo_nameless_resolves_false
                  (example_world [example_info_header ++ object_info_fixed 0x3000 7 ++ [0];
                                  response_packet MTP_OK 9]) 0 0 _ _
                  (example_info_header ++ object_info_fixed 0x3000 7 ++ [0])
                  (response_packet MTP_OK 9) true
                  eq_refl eq_refl eq_refl eq_refl eq_refl eq_refl eq_refl eq_refl)).
Defined.
Lemma downloadFile_loop_run (range : list Z) :
  forall (chunks : list (list Z)) (ob : list Z) (w : world),
    length range = length chunks ->
    (forall k, (k < length chunks)%nat ->
       bulk_in w (in_pos w + k)%nat = XferData (nth k chunks [])) ->
    exists w',
      downloadFile_loop range ob w = (Ok (ob ++ concat chunks), w')
      /\ in_pos w' = (in_pos w + length chunks)%nat
      /\ bulk_in w' = bulk_in w
      /\ promise w' = promise w
      /\ device w' = device w.
Proof.
  induction range as [|i range IH]; intros chunks ob w Hlen Hin.
  - destruct chunks; [|discriminate]. exists w.
    cbn [downloadFile_loop concat length]. rewrite app_nil_r, Nat.add_0_r.
    repeat split; reflexivity.
  - destruct chunks as [|c chunks]; [discriminate|].
    cbn [length] in Hlen. injection Hlen as Hlen.
    pose proof (Hin 0%nat ltac:(simpl; lia)) as H0. rewrite Nat.add_0_r in H0. cbn [nth] in H0.
    set (w1 := next_in (with_log (EvTransferIn InDownloadLoop) w)).
    assert (Hstep : downloadFile_step i ob w = (Ok (ob ++ c), w1)).
    { unfold downloadFile_step, mbind, M_bind, transferIn. rewrite H0. reflexivity. }
    destruct (IH chunks (ob ++ c) w1 Hlen) as (w' & Hrun & Hpos & Hbi & Hpr & Hdev).
    { intros k Hk. specialize (Hin (S k) ltac:(simpl; lia)). cbn [nth] in Hin.
      subst w1. cbn [next_in with_log bulk_in in_pos].
      replace (S (in_pos w) + k)%nat with (in_pos w + S k)%nat by lia. exact Hin. }
    exists w'. split; [|split; [|split; [|split]]].
    + cbn [downloadFile_loop]. unfold mbind at 1, M_bind at 1. rewrite Hstep.
      rewrite Hrun. cbn [concat]. rewrite <- app_assoc. reflexivity.
    + rewrite Hpos. subst w1. cbn [next_in with_log in_pos length]. lia.
    + rewrite Hbi. reflexivity.
    + rewrite Hpr. reflexivity.
    + rewrite Hdev. reflexivity.
Qed.

Lemma int32_quotient (x : Z) :
  -2147483648 <= x < 2147483648 <-> (x / 2147483648 = 0 \/ x / 2147483648 = -1).
Proof.
  pose proof (Z.div_mod x 2147483648 ltac:(lia)).
  pose proof (Z.mod_pos_bound x 2147483648 ltac:(lia)). lia.
Qed.

Lemma bor_range (a b : Z) : -2147483648 <= JS.bor a b < 2147483648.
Proof.
  unfold JS.bor. apply int32_quotient.
  change 2147483648 with (2 ^ 31). rewrite <- Z.shiftr_div_pow2 by lia.
  rewrite Z.shiftr_lor, !Z.shiftr_div_pow2 by lia. change (2 ^ 31) with 2147483648.
  destruct (proj1 (int32_quotient _) (ToInt32_range a)) as [-> | ->];
    destruct (proj1 (int32_quotient _) (ToInt32_range b)) as [-> | ->]; auto.
Qed.

Lemma downloadFile_then_run (first : list Z) (chunks : list (list Z)) (w : world) :
  packet_code first = GET_OBJECT ->
  512 * (Z.of_nat (length chunks) - 1)
    < read32 first 0 - 12 - Z.of_nat (length (drop 12 first))
    <= 512 * Z.of_nat (length chunks) ->
  promise w = None ->
  (forall k, (k < length chunks)%nat ->
     bulk_in w (in_pos w + k)%nat = XferData (nth k chunks [])) ->
  (exists d, bulk_in w (in_pos w + length chunks)%nat = XferData d) ->
  exists w',
    downloadFile_then [first] w = (Ok tt, w')
    /\ promise w' = Some (VStatusBytes true (drop 12 first ++ concat chunks))
    /\ device w' = device w
    /\ in_pos w' = (in_pos w + length chunks + 1)%nat.
Proof.
  intros Hcode HN Hpr Hin [d Hd].
  unfold downloadFile_then. cbn [nth]. rewrite Hcode.
  change (GET_OBJECT =? GET_OBJECT) with true. cbv iota zeta.
  change MTP_CONTAINER_ARRAY_LEN with (Z.of_nat 12).
  assert (Hsl : JS.slice first (Z.of_nat 12) (Z.of_nat (length first)) = drop 12 first).
  { rewrite slice_as_take_drop. apply take_ge. rewrite length_drop. lia. }
  rewrite Hsl.
  assert (Hceil : JS.ceil_div (read32 first 0 - Z.of_nat 12 - Z.of_nat (length (drop 12 first)))
                    MTP_PACKET_MAX_SIZE = Z.of_nat (length chunks)).
  { apply ceil_div_spec. change (Z.of_nat 12) with 12. lia. }
  rewrite Hceil. unfold Array_of_length.
  assert (((0 <=? Z.of_nat (length chunks)) && (Z.of_nat (length chunks) <? 4294967296)) = true)
    as ->.
  { apply andb_true_intro. split; [apply Z.leb_le; lia|]. apply Z.ltb_lt.
    pose proof (bor_range (JS.bor (JS.bor (JS.rd first 0) (JS.shl (JS.rd first (0 + 1)) 8))
                             (JS.shl (JS.rd first (0 + 2)) 16))
                  (JS.shl (JS.rd first (0 + 3)) 24)) as Hr.
    fold (read32 first 0) in Hr. lia. }
  unfold mbind at 1, M_bind at 1, mret at 1, M_ret at 1. rewrite Nat2Z.id.
  destruct (downloadFile_loop_run (map Z.of_nat (seq 0 (length chunks))) chunks
              (drop 12 first) w) as (w1 & Hrun & Hpos & Hbi & Hpr1 & Hdev);
    [rewrite length_map, length_seq; reflexivity | exact Hin |].
  unfold mbind at 1, M_bind at 1. rewrite Hrun.
  unfold mbind at 1, M_bind at 1, transferIn. rewrite Hbi, Hpos, Hd.
  unfold resolve. cbn [with_log next_in promise]. rewrite Hpr1, Hpr.
  eexists. split; [reflexivity|].
  cbn [with_promise with_log next_in promise device in_pos].
  split; [reflexivity|]. split; [exact Hdev | lia].
Qed.

(** X15: when the first Data packet of a GetObject exchange is delivered, the
    reads it calls for deliver too and the Command was written,
    [downloadFile] resolves with the bytes of the first packet after its
    12-byte header followed by everything the further reads delivered, in
    order.  The number of further reads is taken from the length field of
    the header, as the driver reads it; one more read is issued after them
    and what it delivers is dropped. *)
Theorem downloadFile_payload (fileObject : ObjectInfoDataset) (w : world) (first : list Z)
    (chunks : list (list Z)) :
  bulk_in w (in_pos w) = XferData first ->
  bulk_out w (out_pos w) = OutOk ->
  packet_code first = GET_OBJECT ->
  512 * (Z.of_nat (length chunks) - 1)
    < read32 first 0 - 12 - Z.of_nat (length (drop 12 first))
    <= 512 * Z.of_nat (length chunks) ->
  (forall k, (k < length chunks)%nat ->
     bulk_in w (in_pos w + 1 + k)%nat = XferData (nth k chunks [])) ->
  (exists d, bulk_in w (in_pos w + 1 + length chunks)%nat = XferData d) ->
  fst (downloadFile (Some fileObject) w) = Ok (VStatusBytes true (drop 12 first ++ concat chunks))
  /\ in_pos (snd (downloadFile (Some fileObject) w)) = (in_pos w + length chunks + 2)%nat
  /\ storageInfoObjects (device (snd (downloadFile (Some fileObject) w)))
     = storageInfoObjects (device w).
Proof.
  intros Hin Hout Hcode HN Hchunks Hlast.
  set (cmd := command_packet GET_OBJECT (transactionID (device w) + 1)
                [default 0 (fileID fileObject)]).
  destruct (downloadFile_then_run first chunks (handler_state 1 cmd w) Hcode HN eq_refl)
    as (w' & Hrun & Hpr & Hdev & Hpos); [exact Hchunks | exact Hlast |].
  assert (Hop : downloadFile (Some fileObject) w
                = (Ok (VStatusBytes true (drop 12 first ++ concat chunks)), w')).
  { rewrite downloadFile_shape.
    rewrite (exchange_ok 1
               (fun tx => sendPacket (command_packet GET_OBJECT tx [default 0 (fileID fileObject)]))
               _ w (handler_state 1 cmd w) [first]
               (VStatusBytes true (drop 12 first ++ concat chunks))
               (all_delivered_one w first Hin)
               (sendPacket_accepted cmd (next_transaction (after_reads 1 w)) Hout));
      rewrite Hrun; cbn [fst snd]; [reflexivity | reflexivity | exact Hpr]. }
  rewrite Hop. cbn [fst snd].
  split; [reflexivity|]. split.
  - rewrite Hpos. cbn [handler_state next_out with_log in_pos next_transaction
                         pre_incr_transactionID new_Promise modify snd with_device with_promise
                         after_reads]. lia.
  - rewrite Hdev. reflexivity.
Qed.

Lemma downloadFile_payload_witness :
  fst (downloadFile (Some example_command_file)
         (example_world [getObject_first_packet 15 9 [1; 2]; [3]; response_packet MTP_OK 9]))
  = Ok (VStatusBytes true [1; 2; 3]).
Proof.
  exact (proj1 (downloadFile_payload example_command_file
                  (example_world [getObject_first_packet 15 9 [1; 2]; [3];
                                  response_packet MTP_OK 9])
                  (getObject_first_packet 15 9 [1; 2]) [[3]]
                  eq_refl eq_refl eq_refl ltac:(vm_compute; split; [reflexivity | discriminate])
                  ltac:(intros [|k] Hk; [reflexivity | simpl in Hk; lia])
                  ltac:(eexists; reflexivity))).
Defined.
(** X16: [openSession] by cases on what the transport does.  It rejects when the
    write of the Command is rejected and stays pending while the write is
    pending, whatever was read.  Otherwise it resolves true when the packet
    read carries code 0x2001 or 0x201E, false when it carries another code
    or the read fails, and stays pending while the read does.  The flag
    [sessionOpen] follows the packet read, whatever happens to the write:
    set on the two codes, cleared on any other, left alone when nothing was
    read. *)
Theorem openSession_outcome (w : world) :
  let accepted d := (packet_code d =? MTP_OK) || (packet_code d =? SESSION_ALREADY_OPEN) in
  fst (openSession w)
  = match bulk_out w (out_pos w), bulk_in w (in_pos w) with
    | OutError, _ => Throw
    | OutPending, _ => Hang
    | OutOk, XferData d => Ok (VBool (accepted d))
    | OutOk, XferError => Ok (VBool false)
    | OutOk, XferPending => Hang
    end
  /\ sessionOpen (device (snd (openSession w)))
     = match bulk_in w (in_pos w) with
       | XferData d => accepted d
       | _ => sessionOpen (device w)
       end.
Proof.
  cbv zeta. destruct w as [[so sid sl tx] ld bi ip bo op lg pr].
  unfold openSession, openSession_then. run_op.
  destruct (bi ip) as [data| |]; run_op; destruct (bo op); run_op;
    try destruct ((packet_code data =? MTP_OK) || (packet_code data =? SESSION_ALREADY_OPEN));
    run_op; split; reflexivity.
Qed.

(** X17: [closeSession] never rejects, and what happens to the write of its
    Command does not matter to it: it resolves true when the packet read
    carries code 0x2001, false when it carries another code or the read
    fails, and stays pending while the read does.  [sessionOpen] is cleared
    only on code 0x2001. *)
Theorem closeSession_outcome (w : world) :
  fst (closeSession w)
  = match bulk_in w (in_pos w) with
    | XferData d => Ok (VBool (packet_code d =? MTP_OK))
    | XferError => Ok (VBool false)
    | XferPending => Hang
    end
  /\ sessionOpen (device (snd (closeSession w)))
     = match bulk_in w (in_pos w) with
       | XferData d => if packet_code d =? MTP_OK then false else sessionOpen (device w)
       | _ => sessionOpen (device w)
       end.
Proof.
  destruct w as [[so sid sl tx] ld bi ip bo op lg pr].
  unfold closeSession, closeSession_then. run_op.
  destruct (bi ip) as [data| |]; run_op; destruct (bo op); run_op;
    try destruct (packet_code data =? MTP_OK);
    run_op; split; reflexivity.
Qed.

(** X18: a first packet that does not carry the GetObject code makes both
    downloads resolve false after that one read: no further read is
    issued. *)
Theorem download_wrong_code (fileObject : ObjectInfoDataset) (w : world) (first : list Z) :
  bulk_in w (in_pos w) = XferData first ->
  bulk_out w (out_pos w) = OutOk ->
  packet_code first <> GET_OBJECT ->
  (fst (downloadFile (Some fileObject) w) = Ok (VBool false)
   /\ in_pos (snd (downloadFile (Some fileObject) w)) = S (in_pos w))
  /\ (fst (downloadAudioFile (Some fileObject) w) = Ok (VBool false)
      /\ in_pos (snd (downloadAudioFile (Some fileObject) w)) = S (in_pos w)).
Proof.
  intros Hin Hout Hcode. apply Z.eqb_neq in Hcode.
  set (cmd := command_packet GET_OBJECT (transactionID (device w) + 1)
                [default 0 (fileID fileObject)]).
  pose proof (all_delivered_one w first Hin) as Hd.
  pose proof (sendPacket_accepted cmd (next_transaction (after_reads 1 w)) Hout) as HS.
  split.
  - rewrite downloadFile_shape.
    rewrite (exchange_caught 1
               (fun tx => sendPacket (command_packet GET_OBJECT tx [default 0 (fileID fileObject)]))
               _ w _ [first] Hd HS);
      unfold downloadFile_then; cbn [nth]; rewrite Hcode; try reflexivity.
    split; [reflexivity|].
    cbn [snd throw resolve with_log with_promise promise in_pos handler_state next_out
         next_transaction pre_incr_transactionID new_Promise modify with_device after_reads].
    lia.
  - rewrite downloadAudioFile_shape.
    rewrite (exchange_caught 1
               (fun tx => sendPacket (command_packet GET_OBJECT tx [default 0 (fileID fileObject)]))
               _ w _ [first] Hd HS);
      unfold downloadAudioFile_then; cbn [nth]; rewrite Hcode; try reflexivity.
    split; [reflexivity|].
    cbn [snd throw resolve with_log with_promise promise in_pos handler_state next_out
         next_transaction pre_incr_transactionID new_Promise modify with_device after_reads].
    lia.
Qed.

Lemma download_wrong_code_witness :
  fst (downloadFile (Some example_command_file) (example_world [response_packet 0x2009 9]))
  = Ok (VBool false).
Proof.
  exact (proj1 (proj1 (download_wrong_code example_command_file
                         (example_world [response_packet 0x2009 9])
                         (response_packet 0x2009 9) eq_refl eq_refl
                         ltac:(vm_compute; discriminate)))).
Defined.
Lemma preserves_weaken {A} (Rel1 Rel2 : world -> world -> Prop) (m : M A) :
  (forall w w', Rel1 w w' -> Rel2 w w') -> preserves Rel1 m -> preserves Rel2 m.
Proof. intros H Hm w. apply H, Hm. Qed.

Lemma same_device_but_tx (w w' : world) : same_device w w' -> same_but_tx w w'.
Proof. unfold same_device, same_but_tx. intros ->. auto. Qed.

Lemma same_but_tx_refl (w : world) : same_but_tx w w.
Proof. unfold same_but_tx. auto. Qed.

Lemma same_but_tx_trans (w1 w2 w3 : world) :
  same_but_tx w1 w2 -> same_but_tx w2 w3 -> same_but_tx w1 w3.
Proof. unfold same_but_tx. intros (? & ? & ?) (? & ? & ?). repeat split; congruence. Qed.

Ltac device_step :=
  first
    [ apply preserves_ret; exact same_device_refl
    | apply preserves_await; exact same_device_refl
    | apply preserves_throw; exact same_device_refl
    | apply preserves_hang; exact same_device_refl
    | apply preserves_bind; [exact same_device_trans | | intros ?]
    | apply preserves_settle
    | apply preserves_catch; [exact same_device_trans | |]
    | apply preserves_if ].

Lemma same_device_sendPacket (p : list Z) : preserves same_device (sendPacket p).
Proof. intros w. unfold sendPacket, transferOut. destruct (bulk_out w (out_pos w)); reflexivity. Qed.

Lemma same_device_resolve (v : value) : preserves same_device (resolve v).
Proof. intros w. unfold resolve. cbn [with_log promise]. destruct (promise w); reflexivity. Qed.

Lemma same_device_log_event (e : event) : preserves same_device (log_event e).
Proof. intros w. reflexivity. Qed.

Lemma same_device_add_audioCopyBytes (n : Z) : preserves same_device (add_audioCopyBytes n).
Proof. intros w. reflexivity. Qed.

Lemma same_device_set_audioCopyTotalBytes (n : Z) :
  preserves same_device (set_audioCopyTotalBytes n).
Proof. intros w. unfold set_audioCopyTotalBytes. destruct (lenaDevice w); reflexivity. Qed.

Lemma same_device_Array_of_length (n : Z) : preserves same_device (Array_of_length n).
Proof.
  unfold Array_of_length. destruct ((0 <=? n) && (n <? 4294967296)); device_step.
Qed.

Lemma same_device_handler {A} (h : A -> M unit) (results : result A) :
  (forall a, preserves same_device (h a)) -> preserves same_device (handler h results).
Proof.
  intros Hh. unfold handler. device_step; [|apply same_device_resolve].
  device_step; [device_step | apply Hh].
Qed.

Lemma same_device_deleteFile_then (pkts : list (list Z)) :
  preserves same_device (deleteFile_then pkts).
Proof. unfold deleteFile_then. apply preserves_if; [apply same_device_resolve | device_step]. Qed.

Lemma same_device_uploadFile_then (pkts : list (list Z)) :
  preserves same_device (uploadFile_then pkts).
Proof. unfold uploadFile_then. apply preserves_if; [apply same_device_resolve | device_step]. Qed.

Lemma same_device_uploadFileInfo_then (pkts : list (list Z)) :
  preserves same_device (uploadFileInfo_then pkts).
Proof.
  unfold uploadFileInfo_then.
  destruct (if packet_code (nth 0 pkts []) =? SEND_OBJECT_INFO
            then (nth 0 pkts [], nth 1 pkts []) else (nth 1 pkts [], nth 0 pkts [])) as [b1 b2].
  apply preserves_if; [apply same_device_resolve | device_step].
Qed.

Lemma same_device_downloadFile_loop (range : list Z) (ob : list Z) :
  preserves same_device (downloadFile_loop range ob).
Proof.
  revert ob. induction range as [|i range IH]; intros ob; cbn [downloadFile_loop];
    [device_step|].
  device_step; [|apply IH].
  unfold downloadFile_step. device_step; [apply same_device_transferIn | device_step].
Qed.

Lemma same_device_downloadFile_then (pkts : list (list Z)) :
  preserves same_device (downloadFile_then pkts).
Proof.
  unfold downloadFile_then. apply preserves_if; [|device_step].
  device_step; [apply same_device_Array_of_length|].
  device_step; [apply same_device_downloadFile_loop|].
  device_step; [apply same_device_transferIn | apply same_device_resolve].
Qed.

Lemma same_device_download_loop (range : list Z) (st : list Z * Z) :
  preserves same_device (download_loop range st).
Proof.
  revert st. induction range as [|i range IH]; intros st; cbn [download_loop];
    [device_step|].
  device_step; [|apply IH].
  unfold download_step. device_step; [apply same_device_transferIn|].
  apply preserves_if; [|device_step].
  device_step; [apply same_device_log_event|].
  device_step; [apply same_device_add_audioCopyBytes | device_step].
Qed.

Lemma same_device_downloadAudioFile_then (pkts : list (list Z)) :
  preserves same_device (downloadAudioFile_then pkts).
Proof.
  unfold downloadAudioFile_then. apply preserves_if; [|device_step].
  device_step; [apply same_device_set_audioCopyTotalBytes|].
  device_step; [apply same_device_Array_of_length|].
  device_step; [apply same_device_download_loop|].
  match goal with a : (list Z * Z)%type |- _ => destruct a as [ob bc] end.
  device_step; [apply same_device_add_audioCopyBytes|].
  device_step; [apply same_device_log_event|].
  device_step; [apply same_device_transferIn|].
  device_step; [apply same_device_resolve|].
  device_step; [apply same_device_log_event | apply same_device_add_audioCopyBytes].
Qed.

Lemma same_device_uploadFile_loop (fileBytes container : list Z) (i : Z) :
  preserves same_device (uploadFile_loop fileBytes container i).
Proof.
  remember (Z.to_nat (Z.of_nat (length fileBytes) - i)) as m eqn:Hm.
  revert i Hm. induction m as [m IH] using lt_wf_ind. intros i Hm.
  rewrite uploadFile_loop_equation_1.
  destruct (Z_lt_dec i (Z.of_nat (length fileBytes))) as [Hlt | Hge];
    cbn [uploadFile_loop_unfold_clause_1]; [|apply preserves_ret, same_device_refl].
  cbv zeta.
  apply preserves_bind;
    [exact same_device_trans | destruct (i =? 0); apply same_device_sendPacket |].
  intros _. eapply IH; [|reflexivity].
  unfold MTP_PACKET_MAX_SIZE.
  destruct (Z.ltb_spec (Z.of_nat (length fileBytes)) (i + 512));
    [| destruct (Z.eqb_spec i 0)]; lia.
Qed.

(** An exchange whose parts keep the device, but for the transaction
    counter. *)
Lemma exchange_same_but_tx {A} (R : M A) (S : Z -> M unit) (H : result A -> M unit) :
  preserves same_device R ->
  (forall t, preserves same_device (S t)) ->
  (forall r, preserves same_device (H r)) ->
  preserves same_but_tx (exchange R S H).
Proof.
  intros HR HS HH w. rewrite exchange_state.
  unfold same_but_tx.
  rewrite (HH (fst (R w)) _), (HS _ (next_transaction (snd (R w)))).
  cbn [next_transaction pre_incr_transactionID new_Promise modify snd with_device with_promise
       device sessionOpen sessionID storageInfoObjects].
  rewrite (HR w). auto.
Qed.

(** X19: the session calls, the downloads, the uploads and [deleteFile] never
    change the local storage and object lists, whatever the device does and
    whatever they are handed, a file record or [undefined]; all but the
    session calls leave the session flag alone too. *)
Theorem transfers_keep_lists (w : world) :
  storageInfoObjects (device (snd (openSession w))) = storageInfoObjects (device w)
  /\ storageInfoObjects (device (snd (closeSession w))) = storageInfoObjects (device w)
  /\ (forall fileObject, same_but_tx w (snd (deleteFile fileObject w)))
  /\ (forall fileObject, same_but_tx w (snd (downloadFile fileObject w)))
  /\ (forall fileObject, same_but_tx w (snd (downloadAudioFile fileObject w)))
  /\ (forall fileBytes, same_but_tx w (snd (uploadFile fileBytes w)))
  /\ (forall s filename fileSize, same_but_tx w (snd (uploadFileInfo s filename fileSize w))).
Proof.
  split.
  { destruct w as [[so sid sl tx] ld bi ip bo op lg pr].
    unfold openSession, openSession_then. run_op.
    destruct (bi ip) as [data| |]; run_op; destruct (bo op); run_op;
      try destruct ((packet_code data =? MTP_OK) || (packet_code data =? SESSION_ALREADY_OPEN));
      reflexivity. }
  split.
  { destruct w as [[so sid sl tx] ld bi ip bo op lg pr].
    unfold closeSession, closeSession_then. run_op.
    destruct (bi ip) as [data| |]; run_op; destruct (bo op); run_op;
      try destruct (packet_code data =? MTP_OK); reflexivity. }
  split.
  { intros [o|].
    - rewrite deleteFile_shape. apply exchange_same_but_tx;
        [apply same_device_receivePackets | intros t; apply same_device_sendPacket
        | intros r; apply same_device_handler, same_device_deleteFile_then].
    - apply same_device_but_tx.
      apply (preserves_deleteFile_undefined same_device same_device_refl same_device_trans);
        [apply same_device_receivePackets | intros w0; reflexivity
        | intros r; apply same_device_handler, same_device_deleteFile_then]. }
  split.
  { intros fileObject. rewrite downloadFile_shape_any. apply exchange_same_but_tx;
      [apply same_device_receivePackets
      | intros t; apply preserves_bind;
          [exact same_device_trans | apply preserves_defined, same_device_refl
          | intros o; apply same_device_sendPacket]
      | intros r; apply same_device_handler, same_device_downloadFile_then]. }
  split.
  { intros fileObject. rewrite downloadAudioFile_shape_any. apply exchange_same_but_tx;
      [apply same_device_receivePackets
      | intros t; apply preserves_bind;
          [exact same_device_trans | apply preserves_defined, same_device_refl
          | intros o; apply same_device_sendPacket]
      | intros r; apply same_device_handler, same_device_downloadAudioFile_then]. }
  split.
  { intros fileBytes. rewrite uploadFile_shape. apply exchange_same_but_tx;
      [apply same_device_receivePackets
      | intros t; apply preserves_bind;
          [exact same_device_trans | apply same_device_sendPacket
          | intros _; apply same_device_uploadFile_loop]
      | intros r; apply same_device_handler, same_device_uploadFile_then]. }
  intros s filename fileSize. rewrite uploadFileInfo_shape. apply exchange_same_but_tx;
    [apply same_device_receivePackets
    | intros t; apply preserves_bind;
        [exact same_device_trans | apply same_device_sendPacket
        | intros _; apply same_device_sendPacket]
    | intros r; apply preserves_bind;
        [exact same_device_trans | apply preserves_await; exact same_device_refl
        | intros a; apply same_device_uploadFileInfo_then]].
Qed.
Section Frame.

Variable i : nat.

Lemma frame_refl (w : world) : frame i w w.
Proof. unfold frame. auto. Qed.

Lemma frame_trans (w1 w2 w3 : world) : frame i w1 w2 -> frame i w2 w3 -> frame i w1 w3.
Proof.
  unfold frame. intros (H1 & H2 & H3) (H4 & H5 & H6).
  split; [congruence|]. split; [|congruence].
  intros k Hk. rewrite H5, H2 by exact Hk. reflexivity.
Qed.

Lemma same_device_frame (w w' : world) : same_device w w' -> frame i w w'.
Proof. unfold same_device, frame. intros ->. auto. Qed.

Lemma frame_update_storage_at (f : storageInfoDataset -> storageInfoDataset) :
  (forall s, storageID (f s) = storageID s) -> preserves (frame i) (update_storage_at i f).
Proof.
  intros Hf w. unfold update_storage_at.
  destruct (storageInfoObjects (device w) !! i) as [s|] eqn:Hs; [|apply frame_refl].
  unfold frame. cbn [snd set_storageInfoObjects with_device device storageInfoObjects].
  split; [apply length_insert|].
  split; [intros k Hk; apply list_lookup_insert_ne; congruence|].
  apply list_eq. intros k. rewrite !list_lookup_fmap.
  destruct (Nat.eq_dec k i) as [-> | Hne].
  - rewrite list_lookup_insert_eq by (eapply lookup_lt_Some; exact Hs).
    rewrite Hs. cbn. rewrite Hf. reflexivity.
  - rewrite list_lookup_insert_ne by congruence. reflexivity.
Qed.

Lemma frame_storage_at : preserves (frame i) (storage_at i).
Proof.
  intros w. unfold storage_at. destruct (storageInfoObjects (device w) !! i); apply frame_refl.
Qed.

Lemma frame_update_object_at (j : nat) (f : ObjectInfoDataset -> ObjectInfoDataset) :
  preserves (frame i) (update_object_at i j f).
Proof.
  unfold update_object_at.
  apply preserves_bind; [exact frame_trans | apply frame_storage_at | intros s].
  destruct (objectInfoObjects s !! j);
    [apply frame_update_storage_at; reflexivity | apply preserves_throw, frame_refl].
Qed.

Lemma frame_resolve (v : value) : preserves (frame i) (resolve v).
Proof.
  apply (preserves_weaken same_device); [apply same_device_frame | apply same_device_resolve].
Qed.

Lemma frame_getStorageInfo_then (pkts : list (list Z)) :
  preserves (frame i) (getStorageInfo_then i pkts).
Proof.
  unfold getStorageInfo_then. destruct (demux MTP_GET_STORAGE_INFO pkts) as [b1 b2].
  apply preserves_if; [|apply preserves_throw, frame_refl].
  apply preserves_bind; [exact frame_trans | | intros _; apply frame_resolve].
  apply frame_update_storage_at. reflexivity.
Qed.

Lemma frame_getFileObjects_then (pkts : list (list Z)) :
  preserves (frame i) (getFileObjects_then i pkts).
Proof.
  unfold getFileObjects_then. destruct (demux GET_OBJECT_HANDLES pkts) as [b1 b2].
  apply preserves_if; [|apply preserves_throw, frame_refl].
  apply preserves_bind;
    [exact frame_trans | apply frame_update_storage_at; reflexivity | intros _].
  apply preserves_bind; [exact frame_trans | | intros _; apply frame_resolve].
  apply preserves_for_each; [exact frame_refl | exact frame_trans |].
  intros k. apply frame_update_storage_at. reflexivity.
Qed.

Lemma frame_getFileObjectInfo_then (j : nat) (pkts : list (list Z)) :
  preserves (frame i) (getFileObjectInfo_then i j pkts).
Proof.
  unfold getFileObjectInfo_then. destruct (demux GET_OBJECT_INFO pkts) as [b1 b2].
  apply preserves_if; [|apply preserves_throw, frame_refl].
  apply preserves_bind; [exact frame_trans | | intros name].
  { unfold parse_file_name, new_name_array. cbv zeta.
    apply preserves_bind; [exact frame_trans | | intros a; apply preserves_ret, frame_refl].
    apply preserves_if; [apply preserves_throw | apply preserves_ret]; exact frame_refl. }
  apply preserves_bind; [exact frame_trans | apply frame_update_object_at | intros _].
  apply preserves_bind;
    [exact frame_trans | apply frame_update_object_at | intros _; apply frame_resolve].
Qed.

Lemma frame_handler {A} (h : A -> M unit) (results : result A) :
  (forall a, preserves (frame i) (h a)) -> preserves (frame i) (handler h results).
Proof.
  intros Hh. unfold handler.
  apply preserves_catch; [exact frame_trans | | apply frame_resolve].
  apply preserves_bind;
    [exact frame_trans | apply preserves_await; exact frame_refl | exact Hh].
Qed.

Lemma frame_exchange {A} (R : M A) (S : Z -> M unit) (H : result A -> M unit) :
  preserves same_device R ->
  (forall t, preserves same_device (S t)) ->
  (forall r, preserves (frame i) (H r)) ->
  preserves (frame i) (exchange R S H).
Proof.
  intros HR HS HH w. rewrite exchange_state.
  eapply frame_trans; [|apply HH].
  assert (E : storageInfoObjects
                (device (snd (S (transactionID (device (next_transaction (snd (R w)))))
                                (next_transaction (snd (R w))))))
              = storageInfoObjects (device w)).
  { rewrite (HS _ (next_transaction (snd (R w)))).
    cbn [next_transaction pre_incr_transactionID new_Promise modify snd with_device with_promise
         device storageInfoObjects].
    rewrite (HR w). reflexivity. }
  unfold frame. cbv zeta. rewrite E. auto.
Qed.

End Frame.

Lemma same_device_storage_at (i : nat) : preserves same_device (storage_at i).
Proof.
  intros w. unfold storage_at. destruct (storageInfoObjects (device w) !! i); reflexivity.
Qed.

Lemma same_device_object_at (i j : nat) : preserves same_device (object_at i j).
Proof.
  unfold object_at. device_step; [apply same_device_storage_at|].
  destruct (objectInfoObjects _ !! j); device_step.
Qed.

(** X20: [getStorageInfo], [getFileObjects] and [getFileObjectInfo] work on the
    storage record they were handed and on nothing else: whatever the
    device sends, the storage list keeps its length and its storage ids,
    and every other record stays as it was. *)
Theorem get_operations_frame (w : world) (i : nat) :
  frame i w (snd (getStorageInfo i w))
  /\ frame i w (snd (getFileObjects i w))
  /\ (forall j, frame i w (snd (getFileObjectInfo i j w))).
Proof.
  split; [|split].
  - rewrite getStorageInfo_shape. apply frame_exchange;
      [apply same_device_receivePackets
      | intros t; device_step; [apply same_device_storage_at | apply same_device_sendPacket]
      | intros r; apply frame_handler, frame_getStorageInfo_then].
  - rewrite getFileObjects_shape. apply frame_exchange;
      [apply same_device_receivePackets
      | intros t; device_step; [apply same_device_storage_at | apply same_device_sendPacket]
      | intros r; apply frame_handler, frame_getFileObjects_then].
  - intros j. rewrite getFileObjectInfo_shape.
    unfold mbind at 1, M_bind at 1, storage_at at 1.
    destruct (storageInfoObjects (device w) !! i) as [s|]; [|apply frame_refl].
    apply frame_exchange;
      [apply same_device_receivePackets
      | intros t; device_step; [apply same_device_object_at | apply same_device_sendPacket]
      | intros r; apply frame_handler, frame_getFileObjectInfo_then].
Qed.
Lemma blob_bytes_app (l1 l2 : list event) : blob_bytes (l1 ++ l2) = blob_bytes l1 ++ blob_bytes l2.
Proof. unfold blob_bytes. rewrite omap_app, concat_app. reflexivity. Qed.

Lemma download_step_blobs (i : Z) (st : list Z * Z) (w : world) (d : list Z) (c t : Z) :
  bulk_in w (in_pos w) = XferData d ->
  lenaDevice w = Some (MkSettings c t) ->
  exists st' w' c',
    download_step i st w = (Ok st', w')
    /\ blob_bytes (log w') ++ fst st' = blob_bytes (log w) ++ fst st ++ d
    /\ lenaDevice w' = Some (MkSettings c' t)
    /\ c' + Z.of_nat (length (fst st')) = c + Z.of_nat (length (fst st)) + Z.of_nat (length d)
    /\ in_pos w' = S (in_pos w)
    /\ bulk_in w' = bulk_in w
    /\ promise w' = promise w
    /\ device w' = device w.
Proof.
  intros Hin Hl. destruct w as [dev ld bi ip bo op lg pr]. destruct st as [ob bc].
  cbn [bulk_in in_pos lenaDevice] in Hin, Hl. subst ld.
  unfold download_step, add_audioCopyBytes. run_op. rewrite Hin. run_op.
  destruct (((bc + 1) mod 50000) =? 0); run_op.
  - eexists _, _, _. split; [reflexivity|].
    cbn [fst log lenaDevice with_lenaDevice fmap option_fmap option_map audioCopyBytes
         audioCopyTotalBytes in_pos bulk_in promise device length].
    split; [rewrite !blob_bytes_app, app_nil_r; cbn; rewrite !app_nil_r; reflexivity|].
    split; [reflexivity|].
    split; [rewrite length_app; cbn [length]; lia|]. auto.
  - eexists _, _, _. split; [reflexivity|].
    cbn [fst log lenaDevice in_pos bulk_in promise device].
    split; [rewrite blob_bytes_app; cbn; rewrite app_nil_r; reflexivity|].
    split; [reflexivity|].
    split; [rewrite length_app; lia|]. auto.
Qed.

Lemma download_loop_blobs (range : list Z) :
  forall (chunks : list (list Z)) (st : list Z * Z) (w : world) (c t : Z),
    length range = length chunks ->
    lenaDevice w = Some (MkSettings c t) ->
    (forall k, (k < length chunks)%nat ->
       bulk_in w (in_pos w + k)%nat = XferData (nth k chunks [])) ->
    exists st' w' c',
      download_loop range st w = (Ok st', w')
      /\ blob_bytes (log w') ++ fst st' = blob_bytes (log w) ++ fst st ++ concat chunks
      /\ lenaDevice w' = Some (MkSettings c' t)
      /\ c' + Z.of_nat (length (fst st'))
         = c + Z.of_nat (length (fst st)) + Z.of_nat (length (concat chunks))
      /\ in_pos w' = (in_pos w + length chunks)%nat
      /\ bulk_in w' = bulk_in w
      /\ promise w' = promise w
      /\ device w' = device w.
Proof.
  induction range as [|i range IH]; intros chunks st w c t Hlen Hl Hin.
  - destruct chunks; [|discriminate]. exists st, w, c.
    cbn [download_loop concat length]. rewrite !app_nil_r, Nat.add_0_r.
    repeat split; try reflexivity; [exact Hl | cbn [Z.of_nat]; lia].
  - destruct chunks as [|d chunks]; [discriminate|].
    cbn [length] in Hlen. injection Hlen as Hlen.
    pose proof (Hin 0%nat ltac:(simpl; lia)) as H0. rewrite Nat.add_0_r in H0. cbn [nth] in H0.
    destruct (download_step_blobs i st w d c t H0 Hl)
      as (st1 & w1 & c1 & Hrun1 & Hb1 & Hl1 & Hc1 & Hp1 & Hbi1 & Hpr1 & Hd1).
    destruct (IH chunks st1 w1 c1 t Hlen Hl1)
      as (st2 & w2 & c2 & Hrun2 & Hb2 & Hl2 & Hc2 & Hp2 & Hbi2 & Hpr2 & Hd2).
    { intros k Hk. specialize (Hin (S k) ltac:(simpl; lia)). cbn [nth] in Hin.
      rewrite Hbi1, Hp1.
      replace (S (in_pos w) + k)%nat with (in_pos w + S k)%nat by lia. exact Hin. }
    exists st2, w2, c2.
    split; [cbn [download_loop]; unfold mbind, M_bind; rewrite Hrun1; exact Hrun2|].
    split; [rewrite Hb2, app_assoc, Hb1; cbn [concat]; rewrite <- !app_assoc; reflexivity|].
    split; [exact Hl2|].
    split; [cbn [concat]; rewrite length_app; lia|].
    split; [rewrite Hp2, Hp1; cbn [length]; lia|].
    split; [congruence|]. split; congruence.
Qed.
Lemma downloadAudioFile_then_blobs (first : list Z) (chunks : list (list Z)) (w : world)
    (c t : Z) :
  packet_code first = GET_OBJECT ->
  512 * (Z.of_nat (length chunks) - 1)
    < read32 first 0 - 12 - Z.of_nat (length (drop 12 first))
    <= 512 * Z.of_nat (length chunks) ->
  promise w = None ->
  lenaDevice w = Some (MkSettings c t) ->
  (forall k, (k < length chunks)%nat ->
     bulk_in w (in_pos w + k)%nat = XferData (nth k chunks [])) ->
  (exists d, bulk_in w (in_pos w + length chunks)%nat = XferData d) ->
  exists w',
    downloadAudioFile_then [first] w = (Ok tt, w')
    /\ promise w' = Some (VStatusBytes true [])
    /\ blob_bytes (log w') = blob_bytes (log w) ++ drop 12 first ++ concat chunks
    /\ lenaDevice w'
       = Some (MkSettings (c + Z.of_nat (length (drop 12 first ++ concat chunks)))
                 (read32 first 0 - 12))
    /\ device w' = device w.
Proof.
  intros Hcode HN Hpr Hl Hin [d Hd].
  destruct w as [dev ld bi ip bo op lg pr].
  cbn [promise lenaDevice bulk_in in_pos log device] in *. subst pr ld.
  unfold downloadAudioFile_then. cbn [nth]. rewrite Hcode.
  change (GET_OBJECT =? GET_OBJECT) with true. cbv iota zeta.
  change MTP_CONTAINER_ARRAY_LEN with (Z.of_nat 12).
  assert (Hsl : JS.slice first (Z.of_nat 12) (Z.of_nat (length first)) = drop 12 first).
  { rewrite slice_as_take_drop. apply take_ge. rewrite length_drop. lia. }
  rewrite Hsl.
  assert (Hceil : JS.ceil_div (read32 first 0 - Z.of_nat 12 - Z.of_nat (length (drop 12 first)))
                    MTP_PACKET_MAX_SIZE = Z.of_nat (length chunks)).
  { apply ceil_div_spec. change (Z.of_nat 12) with 12. lia. }
  rewrite Hceil. unfold Array_of_length.
  assert (((0 <=? Z.of_nat (length chunks)) && (Z.of_nat (length chunks) <? 4294967296)) = true)
    as ->.
  { apply andb_true_intro. split; [apply Z.leb_le; lia|]. apply Z.ltb_lt.
    pose proof (bor_range (JS.bor (JS.bor (JS.rd first 0) (JS.shl (JS.rd first (0 + 1)) 8))
                             (JS.shl (JS.rd first (0 + 2)) 16))
                  (JS.shl (JS.rd first (0 + 3)) 24)) as Hr.
    fold (read32 first 0) in Hr. lia. }
  unfold mbind at 1, M_bind at 1, set_audioCopyTotalBytes at 1.
  cbn [lenaDevice audioCopyBytes].
  set (w0 := with_lenaDevice _ _).
  unfold mbind at 1, M_bind at 1, mret at 1, M_ret at 1. rewrite Nat2Z.id.
  destruct (download_loop_blobs (map Z.of_nat (seq 0 (length chunks))) chunks
              (drop 12 first, 0) w0 c (read32 first 0 - Z.of_nat 12))
    as (st & w1 & c1 & Hrun & Hb & Hl1 & Hc1 & Hpos & Hbi & Hpr1 & Hdev);
    [rewrite length_map, length_seq; reflexivity | reflexivity | exact Hin |].
  unfold mbind at 1, M_bind at 1. rewrite Hrun.
  destruct st as [ob bc]. cbn [fst] in Hb, Hc1.
  destruct w1 as [dev1 ld1 bi1 ip1 bo1 op1 lg1 pr1].
  cbn [lenaDevice in_pos bulk_in promise device log] in Hb, Hl1, Hpos, Hbi, Hpr1, Hdev.
  subst ld1 bi1 ip1 pr1 dev1.
  unfold add_audioCopyBytes. run_op.
  cbn [w0 with_lenaDevice bulk_in in_pos promise device lenaDevice bulk_out out_pos log].
  rewrite Hd. run_op.
  eexists. split; [reflexivity|].
  cbn [promise log lenaDevice with_lenaDevice fmap option_fmap option_map audioCopyBytes
       audioCopyTotalBytes device].
  split; [reflexivity|].
  split.
  - rewrite !blob_bytes_app.
    change (blob_bytes [EvBlobAdd bc ob]) with (ob ++ []).
    change (blob_bytes [EvTransferIn InDownloadTrailing]) with (@nil Z).
    change (blob_bytes [EvResolve (VStatusBytes true [])]) with (@nil Z).
    change (blob_bytes [EvBlobAdd (bc + 1) []]) with (@nil Z).
    rewrite !app_nil_r. exact Hb.
  - split; [|reflexivity]. cbn [length Z.of_nat]. rewrite length_app.
    do 2 f_equal. lia.
Qed.
(** X21: a large download that runs to its end hands every byte it was sent to
    the blob store exactly once and in order -- the bytes of the first
    packet after its 12-byte header, then what the further reads delivered --
    whether or not a blob was flushed every 50000 packets on the way; the
    progress counter goes up by the number of bytes stored and the total is
    set to the declared length.  The promise itself resolves with an empty
    payload. *)
Theorem downloadAudioFile_blobs (fileObject : ObjectInfoDataset) (w : world) (first : list Z)
    (chunks : list (list Z)) (c t : Z) :
  bulk_in w (in_pos w) = XferData first ->
  bulk_out w (out_pos w) = OutOk ->
  lenaDevice w = Some (MkSettings c t) ->
  packet_code first = GET_OBJECT ->
  512 * (Z.of_nat (length chunks) - 1)
    < read32 first 0 - 12 - Z.of_nat (length (drop 12 first))
    <= 512 * Z.of_nat (length chunks) ->
  (forall k, (k < length chunks)%nat ->
     bulk_in w (in_pos w + 1 + k)%nat = XferData (nth k chunks [])) ->
  (exists d, bulk_in w (in_pos w + 1 + length chunks)%nat = XferData d) ->
  let w' := snd (downloadAudioFile (Some fileObject) w) in
  let payload := drop 12 first ++ concat chunks in
  fst (downloadAudioFile (Some fileObject) w) = Ok (VStatusBytes true [])
  /\ blob_bytes (log w') = blob_bytes (log w) ++ payload
  /\ lenaDevice w' = Some (MkSettings (c + Z.of_nat (length payload)) (read32 first 0 - 12)).
Proof.
  intros Hin Hout Hl Hcode HN Hchunks Hlast. cbv zeta.
  set (cmd := command_packet GET_OBJECT (transactionID (device w) + 1)
                [default 0 (fileID fileObject)]).
  destruct (downloadAudioFile_then_blobs first chunks (handler_state 1 cmd w) c t Hcode HN
              eq_refl Hl)
    as (w' & Hrun & Hpr & Hb & Hl' & Hdev); [exact Hchunks | exact Hlast |].
  assert (Hop : downloadAudioFile (Some fileObject) w = (Ok (VStatusBytes true []), w')).
  { rewrite downloadAudioFile_shape.
    rewrite (exchange_ok 1
               (fun tx => sendPacket (command_packet GET_OBJECT tx [default 0 (fileID fileObject)]))
               _ w (handler_state 1 cmd w) [first] (VStatusBytes true [])
               (all_delivered_one w first Hin)
               (sendPacket_accepted cmd (next_transaction (after_reads 1 w)) Hout));
      rewrite Hrun; cbn [fst snd]; [reflexivity | reflexivity | exact Hpr]. }
  rewrite Hop. cbn [fst snd].
  split; [reflexivity|]. split; [|exact Hl'].
  rewrite Hb. f_equal.
  cbn [handler_state next_out with_log log next_transaction pre_incr_transactionID new_Promise
       modify snd with_device with_promise after_reads].
  rewrite !blob_bytes_app.
  change (blob_bytes [EvTransferOut cmd]) with (@nil Z).
  change (blob_bytes (repeat (EvTransferIn InGetPacket) 1)) with (@nil Z).
  rewrite !app_nil_r. reflexivity.
Qed.

Lemma downloadAudioFile_blobs_witness :
  blob_bytes (log (snd (downloadAudioFile (Some example_command_file)
                          (download_world (getObject_first_packet 15 9 [1; 2])))))
  = [1; 2] ++ repeat 0 512.
Proof.
  pose proof (downloadAudioFile_blobs example_command_file
                (download_world (getObject_first_packet 15 9 [1; 2]))
                (getObject_first_packet 15 9 [1; 2]) [repeat 0 512] 0 0
                eq_refl eq_refl eq_refl eq_refl
                ltac:(vm_compute; split; [reflexivity | discriminate])
                ltac:(intros [|k] Hk; [reflexivity | simpl in Hk; lia])
                ltac:(eexists; reflexivity)) as [_ [H _]].
  rewrite H. reflexivity.
Defined.




Lemma read16_le_bytes (pre post : list Z) (x o : Z) :
  Z.of_nat (length pre) = o ->
  0 <= x < 65536 ->
  read16 (pre ++ le_bytes 2 x ++ post) o = x.
Proof.
  intros Ho Hx. unfold read16.
  replace o with (o + Z.of_nat 0) at 2 by lia.
  change (o + 1) with (o + Z.of_nat 1).
  rewrite !(rd_app_at pre (le_bytes 2 x) post o) by (rewrite ?length_le_bytes; lia).
  cbn [le_bytes nth].
  pose proof (Z.mod_pos_bound x 256 ltac:(lia)) as H0.
  pose proof (Z.mod_pos_bound (x / 256) 256 ltac:(lia)) as H1.
  rewrite shl_byte by lia. change (2 ^ 8) with 256.
  rewrite (ToInt32_small (x / 256 mod 256 * 256)) by lia.
  unfold JS.bor. rewrite !ToInt32_small by lia.
  rewrite Z.lor_comm.
  pose proof (lor_shifted (x mod 256) (x / 256 mod 256) 8 ltac:(lia)
                ltac:(change (2 ^ 8) with 256; lia)) as HL.
  change (2 ^ 8) with 256 in HL. rewrite HL.
  assert (Hq : x / 256 mod 256 = x / 256).
  { apply Z.mod_small. split; [apply Z.div_pos; lia | apply Z.div_lt_upper_bound; lia]. }
  rewrite Hq. pose proof (Z.div_mod x 256 ltac:(lia)). lia.
Qed.

(** X23: the readers of the handlers take out of a Command packet what [pack]
    put into it: [(buf[7] << 8) | buf[6]] is the operation code, and the
    four-byte reads at offsets 0, 8 and [12 + 4 * i] are the length, the
    transaction id and the [i]-th parameter, as signed 32-bit values. *)
Theorem header_round_trip (op tx : Z) (ps : list Z) :
  (length ps <= 5)%nat ->
  0 <= op < 65536 ->
  let pkt := command_packet op tx ps in
  packet_code pkt = op
  /\ read16 pkt 4 = MTP_PACKET_TYPE_COMMAND
  /\ read32 pkt 0 = 12 + 4 * Z.of_nat (length ps)
  /\ read32 pkt 8 = JS.ToInt32 tx
  /\ (forall i, (i < length ps)%nat ->
        read32 pkt (12 + 4 * Z.of_nat i) = JS.ToInt32 (nth i ps 0)).
Proof.
  intros Hn Hop pkt. subst pkt. rewrite command_packet_bytes by exact Hn.
  set (A := le_bytes 4 (12 + 4 * Z.of_nat (length ps))).
  set (B := le_bytes 2 MTP_PACKET_TYPE_COMMAND).
  set (C := le_bytes 2 op).
  set (D := le_bytes 4 tx).
  assert (HA : length A = 4%nat) by apply length_le_bytes.
  assert (HB : length B = 2%nat) by apply length_le_bytes.
  assert (HC : length C = 2%nat) by apply length_le_bytes.
  assert (HD : length D = 4%nat) by apply length_le_bytes.
  split; [|split; [|split; [|split]]].
  - unfold packet_code. rewrite (app_assoc A B). subst C.
    apply read16_le_bytes; [rewrite length_app, HA, HB; reflexivity | exact Hop].
  - subst B. apply read16_le_bytes; [rewrite HA; reflexivity | unfold MTP_PACKET_TYPE_COMMAND; lia].
  - subst A.
    pose proof (read32_le_bytes [] (B ++ C ++ D ++ concat (map (le_bytes 4) ps))
                  (12 + 4 * Z.of_nat (length ps)) 0 eq_refl) as E.
    cbn [app] in E. rewrite E. apply ToInt32_small. lia.
  - rewrite (app_assoc A B), (app_assoc (A ++ B) C). subst D.
    apply read32_le_bytes. rewrite !length_app, HA, HB, HC. reflexivity.
  - intros i Hi.
    rewrite (concat_le_bytes_split ps i Hi).
    set (E1 := concat (map (le_bytes 4) (take i ps))).
    set (E2 := concat (map (le_bytes 4) (drop (S i) ps))).
    assert (HE1 : length E1 = (4 * i)%nat).
    { subst E1. rewrite length_concat_le_bytes, length_take. lia. }
    replace (A ++ B ++ C ++ D ++ E1 ++ le_bytes 4 (nth i ps 0) ++ E2)
      with ((A ++ B ++ C ++ D ++ E1) ++ le_bytes 4 (nth i ps 0) ++ E2)
      by (rewrite <- !app_assoc; reflexivity).
    apply read32_le_bytes. rewrite !length_app, HA, HB, HC, HD, HE1. lia.
Qed.

Lemma header_round_trip_witness :
  packet_code (command_packet GET_OBJECT_HANDLES 9 [0x00010001; 0; 0xffffffff])
  = GET_OBJECT_HANDLES
  /\ read32 (command_packet GET_OBJECT_HANDLES 9 [0x00010001; 0; 0xffffffff]) 20 = -1.
Proof.
  destruct (header_round_trip GET_OBJECT_HANDLES 9 [0x00010001; 0; 0xffffffff]
              ltac:(simpl; lia) ltac:(unfold GET_OBJECT_HANDLES; lia))
    as (H1 & _ & _ & _ & H5).
  split; [exact H1|]. exact (H5 2%nat ltac:(simpl; lia)).
Defined.
Lemma last_cons_any {A} (x : A) (l : list A) (d d' : A) :
  List.last (x :: l) d = List.last (x :: l) d'.
Proof.
  revert x. induction l as [|y l IH]; intros x; [reflexivity|].
  change (List.last (y :: l) d = List.last (y :: l) d'). apply IH.
Qed.

Lemma last_cons_default {A} (x : A) (l : list A) (d : A) :
  List.last (x :: l) d = List.last l x.
Proof.
  destruct l as [|y l]; [reflexivity|].
  change (List.last (y :: l) d = List.last (y :: l) x). apply last_cons_any.
Qed.

Lemma visit_endpoints_fold (eps : list USB.Endpoint) (sel : USB.Selection) :
  fold_left USB.visit_endpoint eps sel
  = USB.MkSelection (USB.interfaceNumber sel)
      (USB.last_bulk USB.In_ eps (USB.endpointIn sel))
      (USB.last_bulk USB.Out eps (USB.endpointOut sel)).
Proof.
  revert sel. induction eps as [|e eps IH]; intros sel; [destruct sel; reflexivity|].
  cbn [fold_left]. rewrite IH. unfold USB.last_bulk, USB.visit_endpoint.
  cbn [List.filter].
  destruct e as [[|] [| |] n]; cbn [USB.is_bulk USB.direction USB.ep_type USB.endpointNumber
                                     USB.interfaceNumber USB.endpointIn USB.endpointOut map];
    try reflexivity; rewrite last_cons_default; reflexivity.
Qed.

Lemma last_bulk_app (d : USB.Direction) (eps1 eps2 : list USB.Endpoint) (old : Z) :
  USB.last_bulk d (eps1 ++ eps2) old = USB.last_bulk d eps2 (USB.last_bulk d eps1 old).
Proof.
  unfold USB.last_bulk. rewrite List.filter_app, map_app.
  generalize (map USB.endpointNumber (List.filter (USB.is_bulk d) eps2)) as l2.
  generalize (map USB.endpointNumber (List.filter (USB.is_bulk d) eps1)) as l1.
  intros l1 l2. destruct l2 as [|x l2]; [rewrite app_nil_r; reflexivity|].
  rewrite (last_cons_any x l2 _ old).
  revert old. induction l1 as [|y l1 IH]; intros old; [reflexivity|].
  cbn [app]. rewrite last_cons_default. rewrite (IH y). apply last_cons_any.
Qed.

Lemma visit_alternates_fold (element : USB.Interface) (alts : list USB.Alternate)
    (sel : USB.Selection) :
  fold_left (USB.visit_alternate element) alts sel
  = USB.MkSelection
      (match alts with [] => USB.interfaceNumber sel | _ => USB.if_interfaceNumber element end)
      (USB.last_bulk USB.In_ (concat (map USB.endpoints alts)) (USB.endpointIn sel))
      (USB.last_bulk USB.Out (concat (map USB.endpoints alts)) (USB.endpointOut sel)).
Proof.
  revert sel. induction alts as [|a alts IH]; intros sel; [destruct sel; reflexivity|].
  cbn [fold_left map concat]. rewrite IH. unfold USB.visit_alternate.
  rewrite visit_endpoints_fold. rewrite !last_bulk_app.
  cbn [USB.interfaceNumber USB.endpointIn USB.endpointOut].
  destruct alts; reflexivity.
Qed.

(** X24: [getEndpoints] looks at the first interface only.  Over all alternate
    settings of that interface, in order, the last bulk IN endpoint and the
    last bulk OUT endpoint win; endpoints of another type never do, and a
    direction without a bulk endpoint keeps the number it had.  The
    interface number is taken over when the interface has an alternate
    setting at all. *)
Theorem getEndpoints_selection (element : USB.Interface) (others : list USB.Interface)
    (sel : USB.Selection) :
  let eps := concat (map USB.endpoints (USB.alternates element)) in
  USB.getEndpoints (element :: others) sel
  = Some (USB.MkSelection
            (match USB.alternates element with
             | [] => USB.interfaceNumber sel
             | _ => USB.if_interfaceNumber element
             end)
            (USB.last_bulk USB.In_ eps (USB.endpointIn sel))
            (USB.last_bulk USB.Out eps (USB.endpointOut sel))).
Proof. cbv zeta. unfold USB.getEndpoints. rewrite visit_alternates_fold. reflexivity. Qed.
(** X25: what [uploadFileInfo] sends for a file is what the handler of
    [getFileObjectInfo] reads back: from the Data packet built for a name
    of 1 to 254 characters below 256 and a size, the name parser extracts
    that name and the size field reads as the signed 32-bit image of that
    size. *)
Theorem object_info_round_trip (tx size : Z) (filename : list Z) (w : world) :
  filename <> [] ->
  (length filename <= 254)%nat ->
  Forall (fun c => 0 <= c < 256) filename ->
  parse_file_name (object_info_packet tx filename size) w = (Ok filename, w)
  /\ read32 (object_info_packet tx filename size) 20 = JS.ToInt32 size.
Proof.
  intros Hne Hlen Hc. rewrite object_info_packet_bytes by assumption.
  set (hdr := le_bytes 4 (142 + 2 * Z.of_nat (length filename)) ++ le_bytes 2 CONTAINER_TYPE_DATA
              ++ le_bytes 2 SEND_OBJECT_INFO ++ le_bytes 4 tx).
  assert (Hh : length hdr = 12%nat).
  { subst hdr. rewrite !length_app, !length_le_bytes. reflexivity. }
  split.
  - unfold mtp_string at 1.
    rewrite (app_assoc hdr), <- (app_assoc [_]), <- (app_assoc (concat _)).
    rewrite parse_file_name_run; [|rewrite length_app, Hh; reflexivity | exact Hlen].
    rewrite map_mod_bytes by exact Hc. reflexivity.
  - unfold object_info_fixed. rewrite <- !app_assoc.
    rewrite (app_assoc hdr), (app_assoc (hdr ++ _)), (app_assoc ((hdr ++ _) ++ _)).
    apply read32_le_bytes. rewrite !length_app, !length_le_bytes, Hh. reflexivity.
Qed.

Lemma object_info_round_trip_witness :
  parse_file_name (object_info_packet 3 [0x61; 0x2e; 0x62] 7)
    (fresh_world None (fun _ => XferPending) all_ok)
  = (Ok [0x61; 0x2e; 0x62], fresh_world None (fun _ => XferPending) all_ok).
Proof.
  exact (proj1 (object_info_round_trip 3 7 [0x61; 0x2e; 0x62]
                  (fresh_world None (fun _ => XferPending) all_ok)
                  ltac:(discriminate) ltac:(cbn; lia) ltac:(repeat constructor; lia))).
Defined.

Lemma same_promise_refl (w : world) : same_promise w w.
Proof. reflexivity. Qed.

Lemma same_promise_trans (w1 w2 w3 : world) :
  same_promise w1 w2 -> same_promise w2 w3 -> same_promise w1 w3.
Proof. unfold same_promise. congruence. Qed.

Lemma same_promise_sendPacket (p : list Z) : preserves same_promise (sendPacket p).
Proof. intros w. unfold sendPacket, transferOut. destruct (bulk_out w (out_pos w)); reflexivity. Qed.

Lemma same_promise_storage_at (i : nat) : preserves same_promise (storage_at i).
Proof.
  intros w. unfold storage_at. destruct (storageInfoObjects (device w) !! i); reflexivity.
Qed.

Lemma same_promise_object_at (i j : nat) : preserves same_promise (object_at i j).
Proof.
  unfold object_at.
  apply preserves_bind; [exact same_promise_trans | apply same_promise_storage_at | intros s].
  destruct (objectInfoObjects s !! j);
    [apply preserves_ret | apply preserves_throw]; exact same_promise_refl.
Qed.

Lemma same_promise_uploadFile_loop (fileBytes container : list Z) (i : Z) :
  preserves same_promise (uploadFile_loop fileBytes container i).
Proof.
  remember (Z.to_nat (Z.of_nat (length fileBytes) - i)) as m eqn:Hm.
  revert i Hm. induction m as [m IH] using lt_wf_ind. intros i Hm.
  rewrite uploadFile_loop_equation_1.
  destruct (Z_lt_dec i (Z.of_nat (length fileBytes))) as [Hlt | Hge];
    cbn [uploadFile_loop_unfold_clause_1]; [|apply preserves_ret, same_promise_refl].
  cbv zeta.
  apply preserves_bind;
    [exact same_promise_trans | destruct (i =? 0); apply same_promise_sendPacket |].
  intros _. eapply IH; [|reflexivity].
  unfold MTP_PACKET_MAX_SIZE.
  destruct (Z.ltb_spec (Z.of_nat (length fileBytes)) (i + 512));
    [| destruct (Z.eqb_spec i 0)]; lia.
Qed.

(** An exchange one of whose reads does not deliver never resolves: the
    handler is not run and the promise stays pending. *)
Lemma exchange_undelivered (n : nat) (S : Z -> M unit)
    (H : result (list (list Z)) -> M unit) (w : world) (v : value) :
  all_delivered (reads_from w n) = None ->
  (forall t, preserves same_promise (S t)) ->
  (forall w3, H Hang w3 = (Hang, w3)) ->
  fst (exchange (receivePackets n) S H w) <> Ok v.
Proof.
  intros Hd HS HH. rewrite exchange_unfold. cbv zeta.
  rewrite receivePackets_run, Hd. cbn [fst snd]. rewrite HH. cbn [snd].
  pose proof (HS (transactionID (device (next_transaction (after_reads n w))))
                (next_transaction (after_reads n w))) as Hp.
  unfold same_promise in Hp. change (promise (next_transaction (after_reads n w))) with
    (@None value) in Hp.
  destruct (fst (S _ _)); try discriminate.
  unfold return_promise. rewrite Hp. discriminate.
Qed.

Lemma handler_hang {A} (h : A -> M unit) (w : world) : handler h Hang w = (Hang, w).
Proof. reflexivity. Qed.

(** X26: an operation never resolves when one of the packets it waits for does
    not arrive (a read that fails counts as one that does not arrive):
    two packets for the operations with a Data phase and for [uploadFile],
    one for [deleteFile] and the downloads, whatever these are handed. *)
Theorem no_answer_never_resolves (w : world) (v : value) :
  (all_delivered (reads_from w 2) = None ->
   fst (getStorageIDS w) <> Ok v
   /\ (forall i, fst (getStorageInfo i w) <> Ok v)
   /\ (forall i, fst (getFileObjects i w) <> Ok v)
   /\ (forall i j, fst (getFileObjectInfo i j w) <> Ok v)
   /\ (forall fileBytes, fst (uploadFile fileBytes w) <> Ok v)
   /\ (forall s filename fileSize, fst (uploadFileInfo s filename fileSize w) <> Ok v))
  /\ (all_delivered (reads_from w 1) = None ->
      (forall fileObject, fst (deleteFile fileObject w) <> Ok v)
      /\ (forall fileObject, fst (downloadFile fileObject w) <> Ok v)
      /\ (forall fileObject, fst (downloadAudioFile fileObject w) <> Ok v)).
Proof.
  split; intros Hd.
  - split; [|split; [|split; [|split; [|split]]]].
    + rewrite getStorageIDS_shape. apply exchange_undelivered;
        [exact Hd | intros t; apply same_promise_sendPacket | intros w3; apply handler_hang].
    + intros i. rewrite getStorageInfo_shape. apply exchange_undelivered;
        [exact Hd
        | intros t; apply preserves_bind;
            [exact same_promise_trans | apply same_promise_storage_at
            | intros s; apply same_promise_sendPacket]
        | intros w3; apply handler_hang].
    + intros i. rewrite getFileObjects_shape. apply exchange_undelivered;
        [exact Hd
        | intros t; apply preserves_bind;
            [exact same_promise_trans | apply same_promise_storage_at
            | intros s; apply same_promise_sendPacket]
        | intros w3; apply handler_hang].
    + intros i j. rewrite getFileObjectInfo_shape.
      unfold mbind at 1, M_bind at 1, storage_at at 1.
      destruct (storageInfoObjects (device w) !! i) as [s|]; [|discriminate].
      apply exchange_undelivered;
        [exact Hd
        | intros t; apply preserves_bind;
            [exact same_promise_trans | apply same_promise_object_at
            | intros o; apply same_promise_sendPacket]
        | intros w3; apply handler_hang].
    + intros fileBytes. rewrite uploadFile_shape. apply exchange_undelivered;
        [exact Hd
        | intros t; apply preserves_bind;
            [exact same_promise_trans | apply same_promise_sendPacket
            | intros _; apply same_promise_uploadFile_loop]
        | intros w3; apply handler_hang].
    + intros s filename fileSize. rewrite uploadFileInfo_shape. apply exchange_undelivered;
        [exact Hd
        | intros t; apply preserves_bind;
            [exact same_promise_trans | apply same_promise_sendPacket
            | intros _; apply same_promise_sendPacket]
        | intros w3; reflexivity].
  - split; [|split].
    + intros [o|].
      * rewrite deleteFile_shape. apply exchange_undelivered;
          [exact Hd | intros t; apply same_promise_sendPacket | intros w3; apply handler_hang].
      * rewrite deleteFile_undefined. discriminate.
    + intros fileObject. rewrite downloadFile_shape_any. apply exchange_undelivered;
        [exact Hd
        | intros t; apply preserves_bind;
            [exact same_promise_trans | apply preserves_defined, same_promise_refl
            | intros o; apply same_promise_sendPacket]
        | intros w3; apply handler_hang].
    + intros fileObject. rewrite downloadAudioFile_shape_any. apply exchange_undelivered;
        [exact Hd
        | intros t; apply preserves_bind;
            [exact same_promise_trans | apply preserves_defined, same_promise_refl
            | intros o; apply same_promise_sendPacket]
        | intros w3; apply handler_hang].
Qed.

Lemma no_answer_never_resolves_witness :
  fst (uploadFile [1; 2; 3] (example_world [response_packet MTP_OK 9])) <> Ok (VBool true).
Proof.
  exact (proj1 (proj2 (proj2 (proj2 (proj2
           (proj1 (no_answer_never_resolves (example_world [response_packet MTP_OK 9])
                     (VBool true)) eq_refl))))) [1; 2; 3]).
Defined.
Lemma find_index_lookup {A} (p : A -> bool) (l : list A) (i : nat) :
  WebHub.find_index p l = Some i -> exists x, l !! i = Some x /\ p x = true.
Proof.
  revert i. induction l as [|x l IH]; intros i H; [discriminate|].
  cbn [WebHub.find_index] in H. destruct (p x) eqn:Hp.
  - injection H as <-. exists x. auto.
  - destruct (WebHub.find_index p l) as [k|]; [|discriminate].
    injection H as <-. apply (IH k eq_refl).
Qed.

Lemma deleteObject_state (sid fid : Z) (i : nat) (w : world) :
  WebHub.find_index (fun s => storageID s =? sid) (storageInfoObjects (device w)) = Some i ->
  exists s, storageInfoObjects (device w) !! i = Some s
            /\ snd (WebHub.deleteObject sid fid w)
               = snd (deleteFile (Some (WebHub.storage_as_file s)) w).
Proof.
  intros Hf. destruct (find_index_lookup _ _ _ Hf) as (s & Hs & _).
  exists s. split; [exact Hs|].
  unfold WebHub.deleteObject, catch_, mbind, M_bind, get_device, storage_at.
  rewrite Hf, Hs.
  destruct (deleteFile (Some (WebHub.storage_as_file s)) w) as [[v| |] w1]; reflexivity.
Qed.

(** X27: the view's [deleteObject] never asks the device to delete the file it
    was called for: when the storage is found, the one packet it writes is
    the DeleteObject Command with object handle 0, whatever [fileID] is. *)
Theorem deleteObject_sends_handle_zero (sid fid : Z) (i : nat) (w : world) :
  WebHub.find_index (fun s => storageID s =? sid) (storageInfoObjects (device w)) = Some i ->
  written_by (WebHub.deleteObject sid fid) w
  = [command_packet MTP_DELETE_OBJECT (transactionID (device w) + 1) [0; 0]].
Proof.
  intros Hf. destruct (deleteObject_state sid fid i w Hf) as (s & Hs & E).
  unfold written_by. rewrite E.
  change (written_by (deleteFile (Some (WebHub.storage_as_file s))) w
          = [command_packet MTP_DELETE_OBJECT (transactionID (device w) + 1) [0; 0]]).
  rewrite deleteFile_shape.
  apply (written_by_exchange_one _
           (fun tx => command_packet MTP_DELETE_OBJECT tx
                        [default 0 (fileID (WebHub.storage_as_file s)); 0]));
    [apply quiet_receivePackets | intros r; apply quiet_handler, quiet_deleteFile_then].
Qed.

Lemma deleteObject_sends_handle_zero_witness :
  written_by (WebHub.deleteObject 0x00010001 2) (example_world [response_packet MTP_OK 9])
  = [[20; 0; 0; 0; 1; 0; 0x0b; 0x10; 9; 0; 0; 0; 0; 0; 0; 0; 0; 0; 0; 0]].
Proof.
  exact (deleteObject_sends_handle_zero 0x00010001 2 0
           (example_world [response_packet MTP_OK 9]) eq_refl).
Defined.
(** An exchange whose reads deliver, whose writer succeeds and whose handler
    runs to its end, for any way of attaching the handler. *)
Lemma exchange_ok_gen (n : nat) (S : Z -> M unit) (H : result (list (list Z)) -> M unit)
    (w w3 w4 : world) (pkts : list (list Z)) (v : value) :
  all_delivered (reads_from w n) = Some pkts ->
  S (transactionID (device w) + 1) (next_transaction (after_reads n w)) = (Ok tt, w3) ->
  H (Ok pkts) w3 = (Ok tt, w4) ->
  promise w4 = Some v ->
  exchange (receivePackets n) S H w = (Ok v, w4).
Proof.
  intros Hd HS HH Hp. rewrite exchange_unfold. cbv zeta.
  rewrite receivePackets_run, Hd. cbn [fst snd].
  change (transactionID (device (next_transaction (after_reads n w))))
    with (transactionID (device w) + 1).
  rewrite HS. cbn [fst snd]. rewrite HH. cbn [snd].
  unfold return_promise. rewrite Hp. reflexivity.
Qed.

Lemma uploadFileInfo_run (s : storageInfoDataset) (name : list Z) (size : Z) (w : world)
    (p0 p1 : list Z) :
  bulk_in w (in_pos w) = XferData p0 ->
  bulk_in w (S (in_pos w)) = XferData p1 ->
  (forall k, bulk_out w k = OutOk) ->
  packet_code (snd (demux SEND_OBJECT_INFO [p0; p1])) = MTP_OK ->
  exists n w1,
    uploadFileInfo s name size w = (Ok (VStatusNum true n), w1)
    /\ writes (log w1)
       = writes (log w)
         ++ [command_packet SEND_OBJECT_INFO (transactionID (device w) + 1)
               [storageID s; PLACE_IN_ROOT];
             object_info_packet (transactionID (device w) + 1) name size]
    /\ transactionID (device w1) = transactionID (device w) + 1
    /\ bulk_out w1 = bulk_out w.
Proof.
  intros Hin0 Hin1 Hout Hcode.
  set (tx := transactionID (device w) + 1).
  set (cmd := command_packet SEND_OBJECT_INFO tx [storageID s; PLACE_IN_ROOT]).
  set (w2 := next_transaction (after_reads 2 w)).
  set (w3 := next_out (with_log (EvTransferOut (object_info_packet tx name size))
                         (next_out (with_log (EvTransferOut cmd) w2)))).
  assert (HS : (sendPacket cmd;; sendPacket (object_info_packet tx name size)) w2 = (Ok tt, w3)).
  { unfold mbind, M_bind. rewrite sendPacket_accepted by apply Hout.
    rewrite sendPacket_accepted by apply Hout. reflexivity. }
  assert (Hthen : exists n, uploadFileInfo_then [p0; p1] w3
                            = resolve (VStatusNum true n) w3).
  { unfold uploadFileInfo_then. unfold demux in Hcode. cbn [nth] in Hcode |- *.
    destruct (packet_code p0 =? SEND_OBJECT_INFO); cbn [snd] in Hcode;
      rewrite Hcode; change (MTP_OK =? MTP_OK) with true; cbv iota;
      eexists; reflexivity. }
  destruct Hthen as [n Hthen].
  exists n, (snd (resolve (VStatusNum true n) w3)).
  split.
  - rewrite uploadFileInfo_shape.
    apply (exchange_ok_gen 2 _ _ w w3 _ [p0; p1]).
    + apply all_delivered_two; assumption.
    + exact HS.
    + unfold mbind, M_bind, await. rewrite Hthen. reflexivity.
    + reflexivity.
  - split; [|split; reflexivity].
    cbn [resolve snd with_log with_promise log promise w3 next_out w2 next_transaction
         pre_incr_transactionID new_Promise modify with_device after_reads].
    rewrite !writes_app.
    assert (Hr : writes (repeat (EvTransferIn InGetPacket) 2) = []) by reflexivity.
    rewrite Hr, app_nil_r, <- !app_assoc. reflexivity.
Qed.

(** X28: the view's [uploadFile] never sends the file: when the storage is found
    and the SendObjectInfo exchange succeeds, it writes the SendObjectInfo
    Command, the Data packet that announces a file of [bytes.length] bytes,
    and the SendObject Command of the next transaction -- and no Data phase,
    whatever [bytes] holds. *)
Theorem view_uploadFile_sends_no_data (sid : Z) (name bytes : list Z) (i : nat) (w : world)
    (p0 p1 : list Z) :
  WebHub.find_index (fun s => storageID s =? sid) (storageInfoObjects (device w)) = Some i ->
  bulk_in w (in_pos w) = XferData p0 ->
  bulk_in w (S (in_pos w)) = XferData p1 ->
  (forall k, bulk_out w k = OutOk) ->
  packet_code (snd (demux SEND_OBJECT_INFO [p0; p1])) = MTP_OK ->
  let tx := transactionID (device w) + 1 in
  written_by (WebHub.uploadFile sid name bytes) w
  = [command_packet SEND_OBJECT_INFO tx [sid; 0xffffffff];
     object_info_packet tx name (Z.of_nat (length bytes));
     command_packet SEND_OBJECT (tx + 1) []].
Proof.
  intros Hf Hin0 Hin1 Hout Hcode tx.
  destruct (find_index_lookup _ _ _ Hf) as (s & Hs & Hsid).
  apply Z.eqb_eq in Hsid.
  destruct (uploadFileInfo_run s name (Z.of_nat (length bytes)) w p0 p1 Hin0 Hin1 Hout Hcode)
    as (n & w1 & Hrun & Hw & Ht & _).
  apply written_by_app.
  assert (E : snd (WebHub.uploadFile sid name bytes w) = snd (uploadFile [] w1)).
  { unfold WebHub.uploadFile, mbind, M_bind, get_device, storage_at.
    rewrite Hf, Hs, Hrun. unfold WebHub.uploadFile_without_length.
    destruct (uploadFile [] w1) as [[v| |] w5]; reflexivity. }
  rewrite E, uploadFile_nil_writes, Hw, Ht, Hsid, <- app_assoc. reflexivity.
Qed.

Lemma view_uploadFile_sends_no_data_witness :
  written_by (WebHub.uploadFile 0x00010001 [0x61] [1; 2; 3])
    (example_world [response_packet MTP_OK 9; response_packet MTP_OK 9])
  = [command_packet SEND_OBJECT_INFO 9 [0x00010001; 0xffffffff];
     object_info_packet 9 [0x61] 3;
     command_packet SEND_OBJECT 10 []].
Proof.
  exact (view_uploadFile_sends_no_data 0x00010001 [0x61] [1; 2; 3] 0
           (example_world [response_packet MTP_OK 9; response_packet MTP_OK 9])
           (response_packet MTP_OK 9) (response_packet MTP_OK 9)
           eq_refl eq_refl eq_refl (fun _ => eq_refl) eq_refl).
Defined.
